(** * VidEX trade offers: the offer life cycle and its notifications

    A shallow embedding of the trade-offer routes of [src/index.ts]
    ([GET /offers], [POST /offers], [GET /offers/:id], [PATCH /offers/:id]),
    of [publishEmailEvent] (the Kafka producer), of the e-mail templates
    and of [processMessage] (the e-mail consumer), followed by the
    properties of the specification that concern them.

    Layout: data and operations first (JSON values, the template engine,
    the database, the task monad of a request handler, the handlers, the
    consumer), then the lemmas and theorems. *)

From Stdlib Require Import ZArith String Ascii List Lia.
From stdpp Require Import base option list gmap strings pretty.

Local Open Scope Z_scope.
Local Open Scope string_scope.

(* ===================================================================== *)
(** ** JavaScript values read from JSON *)
(* ===================================================================== *)

(** The values [JSON.parse] and [req.json()] produce. Numbers are the
    integers: every number the modelled routes read is an id or a year. *)
#[local] Unset Elimination Schemes.
Inductive json : Type :=
| JNull
| JBool (b : bool)
| JNum (n : Z)
| JStr (s : string)
| JArr (items : list json)
| JObj (fields : list (string * json)).
#[local] Set Elimination Schemes.

(** [ToBoolean]: what [if (v)] and [a && b] test. [undefined] is the
    [None] of a property read. *)
Definition truthy (v : option json) : bool :=
  match v with
  | None | Some JNull => false
  | Some (JBool b) => b
  | Some (JNum n) => negb (n =? 0)%Z
  | Some (JStr s) => negb (String.eqb s "")
  | Some (JArr _) | Some (JObj _) => true
  end.

Fixpoint assoc_last (k : string) (fields : list (string * json)) : option json :=
  match fields with
  | [] => None
  | (k', v) :: rest =>
      match assoc_last k rest with
      | Some w => Some w
      | None => if String.eqb k k' then Some v else None
      end
  end.

(** The result of reading a property of a value. *)
Inductive PropertyRead : Type :=
| ReadThrows                       (* TypeError: the value is null *)
| ReadValue (v : option json).     (* the property, or undefined *)

(** [event.name] for own data properties: a duplicated key keeps its last
    value, a primitive has none of the names read here, [null] throws. *)
Definition get_property (v : json) (name : string) : PropertyRead :=
  match v with
  | JNull => ReadThrows
  | JObj fields => ReadValue (assoc_last name fields)
  | _ => ReadValue None
  end.

(* ===================================================================== *)
(** ** The template engine *)
(* ===================================================================== *)

(** [email-templates.ts] builds every template with [Handlebars.compile].
    Handlebars is a dependency of the repository, not part of it; this is
    its behaviour on the fragment the eight templates are written in:
    literal text and [{{identifier}}] mustaches, rendered against an
    object of strings and numbers with the default (non-strict) options.
    A source outside the fragment is not given a meaning ([parse] returns
    [None]). *)

Inductive Value : Type :=
| VStr (s : string)
| VNum (n : Z).

Inductive Statement : Type :=
| ContentStatement (value : string)
| MustacheStatement (path : string).

Definition Program : Type := list Statement.

(** ['' + value] *)
Definition to_string (v : Value) : string :=
  match v with
  | VStr s => s
  | VNum n => pretty n
  end.

Definition quote_char : ascii := "034"%char.

(** [Utils.escapeExpression]: ampersand, angle brackets, both quotes,
    backtick and the equals sign become entities; a mustache of two
    braces always escapes. *)
Definition escapeChar (c : ascii) : string :=
  if Ascii.eqb c "&" then "&amp;"
  else if Ascii.eqb c "<" then "&lt;"
  else if Ascii.eqb c ">" then "&gt;"
  else if Ascii.eqb c quote_char then "&quot;"
  else if Ascii.eqb c "'" then "&#x27;"
  else if Ascii.eqb c "`" then "&#x60;"
  else if Ascii.eqb c "=" then "&#x3D;"
  else String c "".

Fixpoint escape_string (s : string) : string :=
  match s with
  | EmptyString => ""
  | String c rest => escapeChar c +:+ escape_string rest
  end.

Definition escapeExpression (v : option Value) : string :=
  match v with
  | None => ""                      (* [if (string == null) return ''] *)
  | Some v => escape_string (to_string v)
  end.

Definition is_alpha (c : ascii) : bool :=
  let n := nat_of_ascii c in
  ((65 <=? n) && (n <=? 90) || (97 <=? n) && (n <=? 122) || (n =? 95))%nat.

Definition is_digit (c : ascii) : bool :=
  let n := nat_of_ascii c in ((48 <=? n) && (n <=? 57))%nat.

Definition is_space (c : ascii) : bool :=
  let n := nat_of_ascii c in ((n =? 32) || (n =? 9) || (n =? 10) || (n =? 13))%nat.

Fixpoint drop_spaces (l : list ascii) : list ascii :=
  match l with
  | c :: rest => if is_space c then drop_spaces rest else l
  | [] => []
  end.

(** Names that are not plain variables: literals, keywords and the
    helpers Handlebars registers by default. *)
Definition reserved_names : list string :=
  ["else"; "true"; "false"; "null"; "undefined"; "this"; "as";
   "if"; "unless"; "each"; "with"; "log"; "lookup";
   "helperMissing"; "blockHelperMissing"].

Definition is_identifier (l : list ascii) : bool :=
  match l with
  | [] => false
  | c :: rest => is_alpha c && forallb (fun d => is_alpha d || is_digit d) rest
  end.

(** The path of a mustache, from the characters between the braces in
    reverse order. *)
Definition mustache_path (rev_inner : list ascii) : option string :=
  let inner := drop_spaces (rev (drop_spaces rev_inner)) in
  let name := string_of_list_ascii inner in
  if is_identifier inner && negb (bool_decide (name ∈ reserved_names))
  then Some name else None.

Definition content (rev_text : list ascii) : Program :=
  match rev_text with
  | [] => []
  | _ => [ContentStatement (string_of_list_ascii (rev rev_text))]
  end.

Inductive LexMode : Type := InContent | InMustache.

Definition is_open (c : ascii) : bool := Ascii.eqb c "{".
Definition is_close (c : ascii) : bool := Ascii.eqb c "}".
Definition is_backslash (c : ascii) : bool := Ascii.eqb c "\".

Definition ends_with_backslash (rev_text : list ascii) : bool :=
  match rev_text with
  | c :: _ => is_backslash c
  | [] => false
  end.

(** The tokenizer and parser in one pass. [acc] holds the characters of
    the statement being read, last first. *)
Fixpoint parse_from (m : LexMode) (acc : list ascii) (s : string) : option Program :=
  match s with
  | EmptyString =>
      match m with
      | InContent => Some (content acc)
      | InMustache => None           (* unclosed mustache: parse error *)
      end
  | String c rest =>
      match m with
      | InContent =>
          match rest with
          | String c' rest' =>
              if is_open c && is_open c' then
                if ends_with_backslash acc then None   (* escaped mustache *)
                else option_map (app (content acc)) (parse_from InMustache [] rest')
              else parse_from InContent (c :: acc) rest
          | EmptyString => parse_from InContent (c :: acc) rest
          end
      | InMustache =>
          match rest with
          | String c' rest' =>
              if is_close c && is_close c' then
                match mustache_path acc with
                | Some p => option_map (cons (MustacheStatement p)) (parse_from InContent [] rest')
                | None => None
                end
              else parse_from InMustache (c :: acc) rest
          | EmptyString => None
          end
      end
  end.

Definition parse (source : string) : option Program := parse_from InContent [] source.

(** The template's argument: an object literal of strings and numbers. *)
Definition Bindings : Type := gmap string Value.

Definition render_statement (ctx : Bindings) (st : Statement) : string :=
  match st with
  | ContentStatement text => text
  | MustacheStatement path => escapeExpression (ctx !! path)
  end.

Fixpoint render (p : Program) (ctx : Bindings) : string :=
  match p with
  | [] => ""
  | st :: rest => render_statement ctx st +:+ render rest ctx
  end.

(** [Handlebars.compile(source)(ctx)]; [None] when the call throws. *)
Definition Handlebars_compile (source : string) (ctx : Bindings) : option string :=
  match parse source with
  | Some p => Some (render p ctx)
  | None => None
  end.


Definition placeholders (p : Program) : list string :=
  omap (fun st => match st with
                  | MustacheStatement path => Some path
                  | ContentStatement _ => None
                  end) p.







(** An object literal. *)
Definition object (fields : list (string * Value)) : Bindings := list_to_map fields.

(* ===================================================================== *)
(** ** [email-templates.ts] (the templates of the offer life cycle) *)
(* ===================================================================== *)

Module EmailTemplates.

Definition offerReceivedTemplate : Bindings -> option string :=
  Handlebars_compile "New Trade Offer!

Hi {{recipientName}},

You've received a new trade offer from {{offererName}}!

They're offering: {{offeredGameName}} ({{offeredGameYear}})
They're requesting: {{requestedGameName}} ({{requestedGameYear}})

Log in to your VidEX account to view and respond to this offer.

---
This is an automated message from VidEX. Please do not reply to this email.".

Definition offerAcceptedTemplate : Bindings -> option string :=
  Handlebars_compile "Trade Offer Accepted!

Great news! {{recipientName}} has accepted your trade offer!

You're sending: {{offeredGameName}} ({{offeredGameYear}})
You're receiving: {{requestedGameName}} ({{requestedGameYear}})

Please arrange the exchange with {{recipientName}} through VidEX messaging or your preferred contact method.

---
This is an automated message from VidEX. Please do not reply to this email.".

Definition offerRejectedTemplate : Bindings -> option string :=
  Handlebars_compile "Trade Offer Rejected

Unfortunately, {{recipientName}} has declined your trade offer.

You were offering: {{offeredGameName}} ({{offeredGameYear}})
For their: {{requestedGameName}} ({{requestedGameYear}})

Don't worry, there are other collectors on VidEX! Feel free to make offers to other users.

---
This is an automated message from VidEX. Please do not reply to this email.".

Definition offerCreatedConfirmationTemplate : Bindings -> option string :=
  Handlebars_compile "Trade Offer Sent!

Hi {{offererName}},

Your trade offer has been sent to {{recipientName}}!

You're offering: {{offeredGameName}} ({{offeredGameYear}})
You're requesting: {{requestedGameName}} ({{requestedGameYear}})

We'll notify you when {{recipientName}} responds to your offer.

---
This is an automated message from VidEX. Please do not reply to this email.".

Definition offerAcceptedRecipientTemplate : Bindings -> option string :=
  Handlebars_compile "You Accepted a Trade!

Hi {{recipientName}},

You've accepted a trade offer from {{offererName}}!

You're sending: {{requestedGameName}} ({{requestedGameYear}})
You're receiving: {{offeredGameName}} ({{offeredGameYear}})

Please arrange the exchange with {{offererName}} through VidEX messaging or your preferred contact method.

---
This is an automated message from VidEX. Please do not reply to this email.".

Definition offerRejectedRecipientTemplate : Bindings -> option string :=
  Handlebars_compile "You Declined a Trade Offer

Hi {{recipientName}},

You've declined the trade offer from {{offererName}}.

They were offering: {{offeredGameName}} ({{offeredGameYear}})
For your: {{requestedGameName}} ({{requestedGameYear}})

You can continue browsing other trade offers on VidEX.

---
This is an automated message from VidEX. Please do not reply to this email.".

End EmailTemplates.

(* ===================================================================== *)
(** ** The database *)
(* ===================================================================== *)

(** [status TEXT NOT NULL CHECK(status IN ('pending', 'accepted', 'rejected'))] *)
Inductive OfferStatus : Type := pending | accepted | rejected.

Global Instance OfferStatus_eq_dec : EqDecision OfferStatus.
Proof. solve_decision. Defined.

Definition status_text (s : OfferStatus) : string :=
  match s with
  | pending => "pending"
  | accepted => "accepted"
  | rejected => "rejected"
  end.

(** The texts the CHECK constraint lets into the column. *)
Definition status_of_text (s : string) : option OfferStatus :=
  if String.eqb s "pending" then Some pending
  else if String.eqb s "accepted" then Some accepted
  else if String.eqb s "rejected" then Some rejected
  else None.

(** Rows, with the columns the offer routes read. Timestamps are instants
    in milliseconds. *)
Record User : Type := {
  user_id : Z;
  user_name : string;
  user_email : string;
}.

Record Game : Type := {
  game_id : Z;
  game_name : string;
  game_year : Z;
  owner_id : Z;
}.

Record TradeOffer : Type := {
  id : Z;
  requested_game_id : Z;
  offered_game_id : Z;
  offerer_id : Z;
  recipient_id : Z;
  status : OfferStatus;
  created_at : Z;
  updated_at : Z;
}.

(** The three tables by primary key, and the sequence behind
    [trade_offers.id SERIAL]. *)
Record Database : Type := {
  users : gmap Z User;
  games : gmap Z Game;
  trade_offers : gmap Z TradeOffer;
  trade_offers_id_seq : Z;
}.

Definition select_by_id {A : Type} (table : gmap Z A) (key : Z) : list A :=
  match table !! key with
  | Some row => [row]
  | None => []
  end.

(** [WHERE (p::T IS NULL OR column = p)] *)
Definition null_or {A : Type} (eqb : A -> A -> bool) (p : option A) (column : A) : bool :=
  match p with
  | None => true
  | Some x => eqb column x
  end.

Fixpoint insert_by_created_at_desc (o : TradeOffer) (sorted : list TradeOffer) : list TradeOffer :=
  match sorted with
  | [] => [o]
  | o' :: rest =>
      if (created_at o' <? created_at o)%Z then o :: sorted
      else o' :: insert_by_created_at_desc o rest
  end.

(** [ORDER BY created_at DESC]. SQL leaves the order of rows of equal
    [created_at] open; here it is the one the insertions give. *)
Definition order_by_created_at_desc (rows : list TradeOffer) : list TradeOffer :=
  foldr insert_by_created_at_desc [] rows.

Definition select_offers (d : Database) (statusParam : option string)
    (offererIdParam recipientIdParam : option Z) : list TradeOffer :=
  order_by_created_at_desc
    (filter (fun o =>
               null_or String.eqb statusParam (status_text (status o))
               && null_or Z.eqb offererIdParam (offerer_id o)
               && null_or Z.eqb recipientIdParam (recipient_id o) = true)
            (map_to_list (trade_offers d)).*2).

Inductive SqlResult (A : Type) : Type :=
| SqlRows (rows : list A)
| SqlError (reason : string).
Arguments SqlRows {A} rows.
Arguments SqlError {A} reason.

(** [INSERT INTO trade_offers (...) VALUES (..., 'pending', now, now)
    RETURNING *]: the id is the next value of the sequence (consumed even
    when the statement fails); the four foreign keys must resolve and the
    primary key must be free; else the statement throws and no row is
    written. *)
Definition insert_offer (d : Database)
    (requestedGameId offeredGameId offererId recipientId now : Z)
    : SqlResult TradeOffer * Database :=
  let new_id := (trade_offers_id_seq d + 1)%Z in
  let row := {| id := new_id;
                requested_game_id := requestedGameId;
                offered_game_id := offeredGameId;
                offerer_id := offererId;
                recipient_id := recipientId;
                status := pending;
                created_at := now;
                updated_at := now |} in
  if bool_decide (is_Some (games d !! requestedGameId))
     && bool_decide (is_Some (games d !! offeredGameId))
     && bool_decide (is_Some (users d !! offererId))
     && bool_decide (is_Some (users d !! recipientId))
     && bool_decide (trade_offers d !! new_id = None)
  then (SqlRows [row],
        {| users := users d; games := games d;
           trade_offers := <[new_id := row]> (trade_offers d);
           trade_offers_id_seq := new_id |})
  else (SqlError "constraint violation",
        {| users := users d; games := games d;
           trade_offers := trade_offers d;
           trade_offers_id_seq := new_id |}).

(** The row [SET status = s, updated_at = now] leaves. *)
Definition updated_row (o : TradeOffer) (s : OfferStatus) (now : Z) : TradeOffer :=
  {| id := id o;
     requested_game_id := requested_game_id o;
     offered_game_id := offered_game_id o;
     offerer_id := offerer_id o;
     recipient_id := recipient_id o;
     status := s;
     created_at := created_at o;
     updated_at := now |}.

(** [UPDATE trade_offers SET status = s, updated_at = now WHERE id = i
    RETURNING *]: the only guard is the id; a text outside the CHECK
    constraint makes the statement throw. *)
Definition update_offer (d : Database) (offerId : Z) (new_status : string) (now : Z)
    : SqlResult TradeOffer * Database :=
  match trade_offers d !! offerId with
  | None => (SqlRows [], d)
  | Some o =>
      match status_of_text new_status with
      | None => (SqlError "check constraint violation", d)
      | Some s =>
          (SqlRows [updated_row o s now],
           {| users := users d; games := games d;
              trade_offers := <[offerId := updated_row o s now]> (trade_offers d);
              trade_offers_id_seq := trade_offers_id_seq d |})
      end
  end.

(** Two databases with the same rows (the sequence may have advanced). *)
Definition same_tables (d d' : Database) : Prop :=
  users d' = users d /\ games d' = games d /\ trade_offers d' = trade_offers d
  /\ (trade_offers_id_seq d <= trade_offers_id_seq d')%Z.

(** Referential integrity, as the FOREIGN KEY clauses and the primary
    keys keep it: a game's owner is a user, an offer's games and users
    exist, a row is stored under its id, the sequence is past every id. *)
Definition db_consistent (d : Database) : Prop :=
  map_Forall (fun k g => game_id g = k /\ is_Some (users d !! owner_id g)) (games d)
  /\ map_Forall (fun k o =>
                   id o = k
                   /\ is_Some (games d !! requested_game_id o)
                   /\ is_Some (games d !! offered_game_id o)
                   /\ is_Some (users d !! offerer_id o)
                   /\ is_Some (users d !! recipient_id o)
                   /\ (k <= trade_offers_id_seq d)%Z)
                (trade_offers d).

Global Instance db_consistent_dec (d : Database) : Decision (db_consistent d).
Proof. unfold db_consistent. apply _. Defined.

(* ===================================================================== *)
(** ** Events and the world a handler runs in *)
(* ===================================================================== *)

(** [event-schemas.ts]: [EmailSendEvent]. *)
Record EmailSendEvent : Type := {
  type : string;
  event_id : string;
  timestamp : Z;
  to : string;
  subject : string;
  body : string;
}.

(** The argument of [producer.send]: one message on one topic. *)
Record ProducerRecord : Type := {
  topic : string;
  key : string;
  value : EmailSendEvent;
  correlation_id : string;
}.

Definition NOTIFICATIONS_EMAIL : string := "notifications.email".

(** What a handler does to the outside, in the order it does it. *)
Inductive Effect : Type :=
| SqlInserted (row : TradeOffer)          (* a committed INSERT *)
| SqlUpdated (row : TradeOffer)           (* a committed UPDATE *)
| Published (record : ProducerRecord)     (* a call of [producer.send] *)
| ConsoleError (message : string).

(** The database, the clock [new Date()] and [Date.now()] read, the
    values of [Math.random().toString(36).substring(2, 9)] and how many
    were drawn, whether the broker acknowledges a record, and the effects
    so far (oldest first). *)
Record World : Type := {
  db : Database;
  clock : Z;
  random : nat -> string;
  drawn : nat;
  broker_ack : ProducerRecord -> bool;
  trace : list Effect;
}.

Definition with_draws (w : World) (n : nat) (new_effects : list Effect) : World :=
  {| db := db w; clock := clock w; random := random w; drawn := (drawn w + n)%nat;
     broker_ack := broker_ack w; trace := trace w ++ new_effects |}.

(** [generateEventId()], for the [n]-th draw from now. *)
Definition generateEventId (w : World) (n : nat) : string :=
  pretty (clock w) +:+ "-" +:+ random w (drawn w + n)%nat.

(** The record [publishEmailEvent(to, subject, body)] hands to the
    producer: the event as the message value, keyed by the recipient. *)
Definition producer_record (w : World) (to_ subject_ body_ : string) : ProducerRecord :=
  {| topic := NOTIFICATIONS_EMAIL;
     key := to_;
     value := {| type := "email.send";
                 event_id := generateEventId w 0;
                 timestamp := clock w;
                 to := to_; subject := subject_; body := body_ |};
     correlation_id := generateEventId w 1 |}.

(** The call of [producer.send], and the line its [catch] logs when the
    broker does not acknowledge. *)
Definition publication (w : World) (to_ subject_ body_ : string) : list Effect :=
  Published (producer_record w to_ subject_ body_) ::
  if broker_ack w (producer_record w to_ subject_ body_) then []
  else [ConsoleError ("Failed to publish email event to " +:+ to_ +:+ ":")].

(** [publishEmailEvent(to, subject, body)]: builds the event, hands it to
    the producer and returns; a rejected send is caught and logged. *)
Definition publishEmailEvent (w : World) (to_ subject_ body_ : string) : World :=
  with_draws w 2 (publication w to_ subject_ body_).

(** The events a trace hands to the broker. *)
Definition published (effects : list Effect) : list EmailSendEvent :=
  omap (fun e => match e with
                 | Published r => Some (value r)
                 | _ => None
                 end) effects.

Definition is_write (e : Effect) : bool :=
  match e with
  | SqlInserted _ | SqlUpdated _ => true
  | _ => false
  end.

Definition is_publish (e : Effect) : bool :=
  match e with
  | Published _ => true
  | _ => false
  end.

(* ===================================================================== *)
(** ** Requests and responses *)
(* ===================================================================== *)

(** A request: the Authorization header, the path and query of its URL,
    [parseInt(req.params.id)], the query parameters of [GET /offers]
    (after [params.has] and [parseInt]) and what [req.json()] resolves to
    ([None]: it throws). *)
Record Request : Type := {
  authorization : option string;
  url_path_and_search : string;
  params_id : Z;
  query_status : option string;
  query_offererId : option Z;
  query_recipientId : option Z;
  json_body : option json;
}.

Record TradeOfferLinks : Type := {
  self : string;
  requestedGame : string;
  offeredGame : string;
  offerer : string;
  recipient : string;
}.

Record TradeOfferResponse : Type := {
  r_id : Z;
  requestedGameId : Z;
  offeredGameId : Z;
  offererId : Z;
  recipientId : Z;
  r_status : string;
  createdAt : Z;
  updatedAt : Z;
  _links : TradeOfferLinks;
}.

Inductive ResponseBody : Type :=
| ErrorBody (code : Z) (message : string)
| OfferBody (offer : TradeOfferResponse)
| OfferListBody (offers : list TradeOfferResponse) (self_href : string).

Record Response : Type := {
  http_status : Z;
  response_body : ResponseBody;
}.

Definition createTradeOfferLinks (offerId requestedGameId offeredGameId offererId recipientId : Z)
    : TradeOfferLinks :=
  {| self := "/offers/" +:+ pretty offerId;
     requestedGame := "/games/" +:+ pretty requestedGameId;
     offeredGame := "/games/" +:+ pretty offeredGameId;
     offerer := "/users/" +:+ pretty offererId;
     recipient := "/users/" +:+ pretty recipientId |}.

Definition formatTradeOfferResponse (offer : TradeOffer) : TradeOfferResponse :=
  {| r_id := id offer;
     requestedGameId := requested_game_id offer;
     offeredGameId := offered_game_id offer;
     offererId := offerer_id offer;
     recipientId := recipient_id offer;
     r_status := status_text (status offer);
     createdAt := created_at offer;
     updatedAt := updated_at offer;
     _links := createTradeOfferLinks (id offer) (requested_game_id offer)
                 (offered_game_id offer) (offerer_id offer) (recipient_id offer) |}.

Definition errorResponse (code : Z) (message : string) : Response :=
  {| http_status := code; response_body := ErrorBody code message |}.

Definition jsonResponse (code : Z) (offer : TradeOfferResponse) : Response :=
  {| http_status := code; response_body := OfferBody offer |}.

(** The error classes of the specification, as the routes answer them. *)
Definition NotFound (r : Response) : Prop := http_status r = 404.
Definition Forbidden (r : Response) : Prop := http_status r = 403.
Definition Unauthorized (r : Response) : Prop := http_status r = 401.
Definition InvalidState (r : Response) : Prop :=
  r = errorResponse 400 "Only pending offers can be updated".
Definition BadRequest (r : Response) : Prop := http_status r = 400.
Definition succeeded (r : Response) : bool :=
  ((200 <=? http_status r) && (http_status r <? 300))%Z.

(* ===================================================================== *)
(** ** What the routes take from outside the sources *)
(* ===================================================================== *)

Inductive SafeParse (A : Type) : Type :=
| ParseSuccess (data : A)
| ParseFailure (message : string).
Arguments ParseSuccess {A} data.
Arguments ParseFailure {A} message.

(** [jwt.verify(token, JWT_SECRET)] ([None]: it throws; else the [userId]
    of the payload), [TradeOfferInputSchema.safeParse] of [./schemas]
    (the file is not among the sources; a success carries
    [requestedGameId] and [offeredGameId]) and the message of the error
    [TradeOfferUpdateSchema.safeParse] reports. *)
Class Externals : Type := {
  jwt_verify : string -> option Z;
  TradeOfferInputSchema : json -> SafeParse (Z * Z);
  update_error_message : json -> string;
}.

(** Modelled from the spec: [TradeOfferUpdateSchema] of [./schemas], which
    is not among the sources. Section 4.1: the new status must be one of
    the two terminal values, else the request is invalid; the tests send
    an object with the one field [status]. *)
Definition TradeOfferUpdateSchema `{Externals} (input : json) : SafeParse string :=
  match get_property input "status" with
  | ReadValue (Some (JStr s)) =>
      if String.eqb s "accepted" || String.eqb s "rejected"
      then ParseSuccess s
      else ParseFailure (update_error_message input)
  | _ => ParseFailure (update_error_message input)
  end.

(* ===================================================================== *)
(** ** Tasks: a handler as the sequence of its operations *)
(* ===================================================================== *)

(** The operations of a handler on its world. The SQL statements and
    [req.json()] are awaited: the event loop may run another handler
    before the task resumes. [new Date()] and [publishEmailEvent] are
    synchronous. *)
Inductive Op : Type -> Type :=
| SelectGame (gameId : Z) : Op (list Game)
| SelectUser (userId : Z) : Op (list User)
| SelectOffer (offerId : Z) : Op (list TradeOffer)
| SelectOffers (statusParam : option string) (offererIdParam recipientIdParam : option Z)
    : Op (list TradeOffer)
| InsertOffer (requestedGameId offeredGameId offererId recipientId now : Z)
    : Op (SqlResult TradeOffer)
| UpdateOffer (offerId : Z) (new_status : string) (now : Z) : Op (SqlResult TradeOffer)
| ReqJson (req : Request) : Op (option json)
| NewDate : Op Z
| PublishEmailEvent (to_ subject_ body_ : string) : Op unit.

Inductive Task (R : Type) : Type :=
| Return (r : R)
| Throw (error : string)
| Perform {X : Type} (op : Op X) (k : X -> Task R).
Arguments Return {R} r.
Arguments Throw {R} error.
Arguments Perform {R X} op k.

Notation "'await' x <- op ; k" := (Perform op (fun x => k))
  (at level 10, x pattern, op at level 99, k at level 200).

(** [try { t } catch (error) { handler }] *)
Fixpoint try_catch {R : Type} (t : Task R) (handler : string -> Task R) : Task R :=
  match t with
  | Return r => Return r
  | Throw error => handler error
  | Perform op k => Perform op (fun x => try_catch (k x) handler)
  end.

Definition synchronous {X : Type} (op : Op X) : bool :=
  match op with
  | NewDate | PublishEmailEvent _ _ _ => true
  | _ => false
  end.

Definition set_db (w : World) (d : Database) : World :=
  {| db := d; clock := clock w; random := random w; drawn := drawn w;
     broker_ack := broker_ack w; trace := trace w |}.

Definition emit (w : World) (e : Effect) : World :=
  {| db := db w; clock := clock w; random := random w; drawn := drawn w;
     broker_ack := broker_ack w; trace := trace w ++ [e] |}.

Definition committed {A : Type} (w : World) (result : SqlResult A * Database)
    (effect : A -> Effect) : SqlResult A * World :=
  match result with
  | (SqlRows (row :: rows), d) => (SqlRows (row :: rows), emit (set_db w d) (effect row))
  | (other, d) => (other, set_db w d)
  end.

(** One operation on the world. *)
Definition perform {X : Type} (op : Op X) (w : World) : X * World :=
  match op in Op X return X * World with
  | SelectGame gameId => (select_by_id (games (db w)) gameId, w)
  | SelectUser userId => (select_by_id (users (db w)) userId, w)
  | SelectOffer offerId => (select_by_id (trade_offers (db w)) offerId, w)
  | SelectOffers st o r => (select_offers (db w) st o r, w)
  | InsertOffer requested offered offerer_ recipient_ now =>
      committed w (insert_offer (db w) requested offered offerer_ recipient_ now) SqlInserted
  | UpdateOffer offerId st now =>
      committed w (update_offer (db w) offerId st now) SqlUpdated
  | ReqJson req => (json_body req, w)
  | NewDate => (clock w, w)
  | PublishEmailEvent to_ subject_ body_ => (tt, publishEmailEvent w to_ subject_ body_)
  end.

Inductive Outcome (R : Type) : Type :=
| Returned (r : R)
| Thrown (error : string).
Arguments Returned {R} r.
Arguments Thrown {R} error.

(** A handler that runs alone, from its first operation to its last. *)
Fixpoint run {R : Type} (t : Task R) (w : World) : Outcome R * World :=
  match t with
  | Return r => (Returned r, w)
  | Throw error => (Thrown error, w)
  | Perform op k => let (x, w') := perform op w in run (k x) w'
  end.

(** The synchronous operations at the head of a task. *)
Fixpoint run_sync {R : Type} (t : Task R) (w : World) : Task R * World :=
  match t with
  | Perform op k =>
      if synchronous op
      then let (x, w') := perform op w in run_sync (k x) w'
      else (t, w)
  | _ => (t, w)
  end.

(** One turn of the event loop for a task: the awaited operation
    completes and the task runs up to its next [await] (or its end). *)
Definition resume {R : Type} (t : Task R) (w : World) : Task R * World :=
  match t with
  | Perform op k => let (x, w') := perform op w in run_sync (k x) w'
  | _ => (t, w)
  end.

(** Two handlers in flight: [schedule] tells, turn by turn, which of the
    two the event loop resumes ([true]: the first). *)
Fixpoint event_loop {R : Type} (schedule : list bool) (t1 t2 : Task R) (w : World)
    : Task R * Task R * World :=
  match schedule with
  | [] => (t1, t2, w)
  | true :: rest => let (t1', w') := resume t1 w in event_loop rest t1' t2 w'
  | false :: rest => let (t2', w') := resume t2 w in event_loop rest t1 t2' w'
  end.


(* ===================================================================== *)
(** ** [index.ts]: authentication and the offer routes *)
(* ===================================================================== *)

Section Routes.

Context `{Externals}.

Definition authenticate (req : Request) : option Z :=
  match authorization req with
  | None => None
  | Some authHeader =>
      if String.eqb authHeader "" || negb (String.prefix "Bearer " authHeader)
      then None
      else jwt_verify (String.substring 7 (String.length authHeader - 7) authHeader)
  end.

Definition requireAuth (req : Request) : Response + Z :=
  match authenticate req with
  | None => inl (errorResponse 401 "Unauthorized: Please login first")
  | Some userId => inr userId
  end.

(** The object every offer template is applied to. *)
Definition template_variables (recipient_ offerer_ : User) (offeredGame requestedGame : Game)
    : Bindings :=
  object [("recipientName", VStr (user_name recipient_));
          ("offererName", VStr (user_name offerer_));
          ("offeredGameName", VStr (game_name offeredGame));
          ("offeredGameYear", VNum (game_year offeredGame));
          ("requestedGameName", VStr (game_name requestedGame));
          ("requestedGameYear", VNum (game_year requestedGame))].

(** [publishEmailEvent(to, subject, template({...}))], then [k]: the
    template is applied first, and a throw of it leaves the call undone. *)
Definition publish_rendered {R : Type} (to_ subject_ : string) (rendered : option string)
    (k : Task R) : Task R :=
  match rendered with
  | None => Throw "template error"
  | Some body_ => await _ <- PublishEmailEvent to_ subject_ body_; k
  end.

Definition invalid_input : string -> Task Response :=
  fun _ => Return (errorResponse 400 "Invalid input").

(** [GET /offers] *)
Definition get_offers (req : Request) : Task Response :=
  match requireAuth req with
  | inl response => Return response
  | inr _ =>
      await offers <- SelectOffers (query_status req) (query_offererId req)
                                   (query_recipientId req);
      Return {| http_status := 200;
                response_body := OfferListBody (map formatTradeOfferResponse offers)
                                   (url_path_and_search req) |}
  end.

(** [POST /offers] *)
Definition post_offers (req : Request) : Task Response :=
  match requireAuth req with
  | inl response => Return response
  | inr authenticatedUserId =>
      try_catch
        (await parsed <- ReqJson req;
         match parsed with
         | None => Throw "SyntaxError"
         | Some input =>
         match TradeOfferInputSchema input with
         | ParseFailure message => Return (errorResponse 400 message)
         | ParseSuccess (requestedGameId, offeredGameId) =>
         await requestedGames <- SelectGame requestedGameId;
         match requestedGames with
         | [] => Return (errorResponse 404 "Requested game not found")
         | requestedGame :: _ =>
         await offeredGames <- SelectGame offeredGameId;
         match offeredGames with
         | [] => Return (errorResponse 404 "Offered game not found")
         | offeredGame :: _ =>
         if negb (owner_id offeredGame =? authenticatedUserId)%Z
         then Return (errorResponse 403 "Forbidden: You can only offer games you own")
         else if (owner_id requestedGame =? authenticatedUserId)%Z
         then Return (errorResponse 400 "Cannot create trade offer for your own game")
         else
         await now <- NewDate;
         await result <- InsertOffer requestedGameId offeredGameId authenticatedUserId
                                     (owner_id requestedGame) now;
         match result with
         | SqlError reason => Throw reason
         | SqlRows [] => Throw "TypeError"
         | SqlRows (offer :: _) =>
         await offerers <- SelectUser (offerer_id offer);
         await recipients <- SelectUser (recipient_id offer);
         let response := Return (jsonResponse 201 (formatTradeOfferResponse offer)) in
         match offerers, recipients with
         | offerer_ :: _, recipient_ :: _ =>
             let variables := template_variables recipient_ offerer_ offeredGame requestedGame in
             publish_rendered (user_email recipient_) "You've received a trade offer!"
               (EmailTemplates.offerReceivedTemplate variables)
               (publish_rendered (user_email offerer_) "Your trade offer has been sent!"
                  (EmailTemplates.offerCreatedConfirmationTemplate variables)
                  response)
         | _, _ => response
         end
         end end end end end)
        invalid_input
  end.

(** [GET /offers/:id] *)
Definition get_offer (req : Request) : Task Response :=
  match requireAuth req with
  | inl response => Return response
  | inr _ =>
      await offers <- SelectOffer (params_id req);
      match offers with
      | [] => Return (errorResponse 404 "Trade offer not found")
      | offer :: _ => Return (jsonResponse 200 (formatTradeOfferResponse offer))
      end
  end.

(** [PATCH /offers/:id] *)
Definition patch_offer (req : Request) : Task Response :=
  match requireAuth req with
  | inl response => Return response
  | inr authenticatedUserId =>
      try_catch
        (let offerId := params_id req in
         await offers <- SelectOffer offerId;
         match offers with
         | [] => Return (errorResponse 404 "Trade offer not found")
         | offer :: _ =>
         if negb (recipient_id offer =? authenticatedUserId)%Z
         then Return (errorResponse 403 "Forbidden: Only the recipient can update this offer")
         else if negb (bool_decide (status offer = pending))
         then Return (errorResponse 400 "Only pending offers can be updated")
         else
         await parsed <- ReqJson req;
         match parsed with
         | None => Throw "SyntaxError"
         | Some input =>
         match TradeOfferUpdateSchema input with
         | ParseFailure message => Return (errorResponse 400 message)
         | ParseSuccess new_status =>
         await now <- NewDate;
         await result <- UpdateOffer offerId new_status now;
         match result with
         | SqlError reason => Throw reason
         | SqlRows [] => Throw "TypeError"
         | SqlRows (updatedOffer :: _) =>
         await offerers <- SelectUser (offerer_id updatedOffer);
         await recipients <- SelectUser (recipient_id updatedOffer);
         await requestedGames <- SelectGame (requested_game_id updatedOffer);
         await offeredGames <- SelectGame (offered_game_id updatedOffer);
         let response := Return (jsonResponse 200 (formatTradeOfferResponse updatedOffer)) in
         match status updatedOffer with
         | accepted =>
             match offerers, recipients, requestedGames, offeredGames with
             | offerer_ :: _, recipient_ :: _, requestedGame :: _, offeredGame :: _ =>
                 let variables := template_variables recipient_ offerer_ offeredGame requestedGame in
                 publish_rendered (user_email offerer_) "Your trade offer was accepted!"
                   (EmailTemplates.offerAcceptedTemplate variables)
                   (publish_rendered (user_email recipient_) "You accepted a trade offer!"
                      (EmailTemplates.offerAcceptedRecipientTemplate variables)
                      response)
             | _, _, _, _ => response
             end
         | rejected =>
             match offerers, recipients, requestedGames, offeredGames with
             | offerer_ :: _, recipient_ :: _, requestedGame :: _, offeredGame :: _ =>
                 let variables := template_variables recipient_ offerer_ offeredGame requestedGame in
                 publish_rendered (user_email offerer_) "Your trade offer was declined"
                   (EmailTemplates.offerRejectedTemplate variables)
                   (publish_rendered (user_email recipient_) "You declined a trade offer"
                      (EmailTemplates.offerRejectedRecipientTemplate variables)
                      response)
             | _, _, _, _ => response
             end
         | pending => response
         end
         end end end end)
        invalid_input
  end.

End Routes.

(* ===================================================================== *)
(** ** [email-consumer/index.ts] *)
(* ===================================================================== *)

(** A message of the topic; [message.value] is a buffer or [null]. *)
Record KafkaMessage : Type := {
  message_key : option string;
  message_value : option string;
}.

(** The argument of [transporter.sendMail]. The fields come from the
    parsed event as they are, whatever their type. *)
Record Mail : Type := {
  mail_from : string;
  mail_to : json;
  mail_subject : json;
  mail_text : json;
}.

Inductive ConsoleLevel : Type := LevelLog | LevelWarn | LevelError.

(** What the consumer does to the outside: console lines (the text and
    the value printed with it) and calls of the delivery channel. *)
Inductive ConsumerEffect : Type :=
| Console (level : ConsoleLevel) (text : string) (printed : option json)
| SendMail (mail : Mail).

(** [JSON.parse] ([None]: it throws), the environment's
    [EMAIL_FROM_ADDRESS] and whether [transporter.sendMail] resolves. *)
Class ConsumerRuntime : Type := {
  JSON_parse : string -> option json;
  EMAIL_FROM_ADDRESS : option string;
  sendMail_resolves : Mail -> bool;
}.

Section EmailConsumer.

Context `{ConsumerRuntime}.

(** [sendEmail(to, subject, body)]: its effects, and whether it returns
    ([true]) or rethrows the transport's error ([false]). *)
Definition sendEmail (to_ subject_ body_ : json) : list ConsumerEffect * bool :=
  let fromAddress :=
    match EMAIL_FROM_ADDRESS with
    | Some address => if String.eqb address "" then "noreply@videx.local" else address
    | None => "noreply@videx.local"
    end in
  let mail := {| mail_from := fromAddress; mail_to := to_;
                 mail_subject := subject_; mail_text := body_ |} in
  if sendMail_resolves mail
  then ([SendMail mail; Console LevelLog "Email sent to" (Some to_)], true)
  else ([SendMail mail; Console LevelError "Failed to send email to" (Some to_)], false).

Definition is_email_send (v : option json) : bool :=
  match v with
  | Some (JStr s) => String.eqb s "email.send"
  | _ => false
  end.

(** The body of the [try] block of [processMessage], for a parsed event:
    its effects, and whether it completes ([false]: it throws). *)
Definition process_event (event : json) : list ConsumerEffect * bool :=
  match get_property event "type" with
  | ReadThrows => ([], false)
  | ReadValue event_type =>
      let announced := Console LevelLog "Processing event:" event_type in
      match get_property event "to", get_property event "subject",
            get_property event "body" with
      | ReadValue (Some to_), ReadValue (Some subject_), ReadValue (Some body_) =>
          if is_email_send event_type && truthy (Some to_) && truthy (Some subject_)
             && truthy (Some body_)
          then let (effects, returned) := sendEmail to_ subject_ body_ in
               (announced :: effects, returned)
          else ([announced;
                 Console LevelWarn "Received unknown or malformed event:" event_type], true)
      | _, _, _ =>
          ([announced;
            Console LevelWarn "Received unknown or malformed event:" event_type], true)
      end
  end.

Definition error_processing : ConsumerEffect :=
  Console LevelError "Error processing message:" None.

(** [processMessage(message)]. It always returns: the message counts as
    consumed whatever happened. *)
Definition processMessage (message : KafkaMessage) : list ConsumerEffect :=
  match message_value message with
  | None => []
  | Some text =>
      match JSON_parse text with
      | None => [error_processing]
      | Some event =>
          let (effects, completed) := process_event event in
          if completed then effects else effects ++ [error_processing]
      end
  end.

(** [consumer.run({ eachMessage })]: the messages of the topic, one after
    the other. *)
Definition consume (messages : list KafkaMessage) : list ConsumerEffect :=
  concat (map processMessage messages).

Definition deliveries (effects : list ConsumerEffect) : list Mail :=
  omap (fun e => match e with
                 | SendMail mail => Some mail
                 | Console _ _ _ => None
                 end) effects.



(** The messages the consumer answers with a delivery: a value that
    parses to an event of type [email.send] whose [to], [subject] and
    [body] are truthy. *)
Definition deliverable (message : KafkaMessage) : option (json * json * json) :=
  match message_value message with
  | None => None
  | Some text =>
      match JSON_parse text with
      | Some (JObj fields) =>
          match assoc_last "to" fields, assoc_last "subject" fields,
                assoc_last "body" fields with
          | Some to_, Some subject_, Some body_ =>
              if is_email_send (assoc_last "type" fields) && truthy (Some to_)
                 && truthy (Some subject_) && truthy (Some body_)
              then Some (to_, subject_, body_) else None
          | _, _, _ => None
          end
      | _ => None
      end
  end.

End EmailConsumer.

(* ===================================================================== *)
(** ** Histories of calls *)
(* ===================================================================== *)

(** The two state-changing operations of the trade-offer service. *)
Inductive Call : Type :=
| CreateOffer (req : Request)
| UpdateStatus (req : Request).

Definition handler `{Externals} (c : Call) : Task Response :=
  match c with
  | CreateOffer req => post_offers req
  | UpdateStatus req => patch_offer req
  end.

(** The world at another instant of the clock. *)
Definition at_time (w : World) (now : Z) : World :=
  {| db := db w; clock := now; random := random w; drawn := drawn w;
     broker_ack := broker_ack w; trace := trace w |}.

(** The world with another broker. *)
Definition with_broker (w : World) (ack : ProducerRecord -> bool) : World :=
  {| db := db w; clock := clock w; random := random w; drawn := drawn w;
     broker_ack := ack; trace := trace w |}.

(** Calls served one after the other, each at its own instant. *)
Fixpoint serve_all `{Externals} (calls : list (Z * Call)) (w : World) : World :=
  match calls with
  | [] => w
  | (now, c) :: rest => serve_all rest (run (handler c) (at_time w now)).2
  end.

(** The effects a run added to the trace. *)
Definition new_effects (before after : World) : list Effect :=
  drop (length (trace before)) (trace after).


(** No write after a publication. *)
Fixpoint writes_before_publishes (effects : list Effect) : bool :=
  match effects with
  | [] => true
  | e :: rest =>
      (if is_publish e then forallb (fun e' => negb (is_write e')) rest else true)
      && writes_before_publishes rest
  end.

Definition is_console_error (e : Effect) : bool :=
  match e with
  | ConsoleError _ => true
  | _ => false
  end.

(** The trace without the console. *)
Definition without_console (effects : list Effect) : list Effect :=
  List.filter (fun e => negb (is_console_error e)) effects.

(** Two worlds that differ at most in their broker and in what was
    logged. *)
Definition same_but_broker (w1 w2 : World) : Prop :=
  db w1 = db w2 /\ clock w1 = clock w2 /\ random w1 = random w2 /\ drawn w1 = drawn w2
  /\ without_console (trace w1) = without_console (trace w2).

(* ===================================================================== *)
(** ** A small instance: three users, two games *)
(* ===================================================================== *)

Module Sample.

(** One token per user; the input schema wants two numbers. *)
Definition externals : Externals :=
  {| jwt_verify token :=
       if String.eqb token "token-of-alice" then Some 1
       else if String.eqb token "token-of-bob" then Some 2
       else if String.eqb token "token-of-carol" then Some 3
       else None;
     TradeOfferInputSchema input :=
       match get_property input "requestedGameId", get_property input "offeredGameId" with
       | ReadValue (Some (JNum requested)), ReadValue (Some (JNum offered)) =>
           ParseSuccess (requested, offered)
       | _, _ => ParseFailure "Invalid input: expected number"
       end;
     update_error_message _ := "Invalid option: expected one of accepted, rejected" |}.

Definition alice : User := {| user_id := 1; user_name := "Alice"; user_email := "alice@example.com" |}.
Definition bob : User := {| user_id := 2; user_name := "Bob"; user_email := "bob@example.com" |}.
Definition carol : User := {| user_id := 3; user_name := "Carol"; user_email := "carol@example.com" |}.

Definition zelda : Game := {| game_id := 1; game_name := "Zelda"; game_year := 1986; owner_id := 1 |}.
Definition metroid : Game := {| game_id := 2; game_name := "Metroid"; game_year := 1986; owner_id := 2 |}.

Definition database : Database :=
  {| users := <[1 := alice]> (<[2 := bob]> (<[3 := carol]> ∅));
     games := <[1 := zelda]> (<[2 := metroid]> ∅);
     trade_offers := ∅;
     trade_offers_id_seq := 0 |}.

Definition world : World :=
  {| db := database; clock := 1700000000000; random := fun n => "r" +:+ pretty n;
     drawn := 0; broker_ack := fun _ => true; trace := [] |}.

Definition request (token : option string) (offerId : Z) (input : option json) : Request :=
  {| authorization := token; url_path_and_search := "/offers";
     params_id := offerId; query_status := None;
     query_offererId := None; query_recipientId := None; json_body := input |}.

(** Alice offers Zelda for Bob's Metroid. *)
Definition alice_offers : Request :=
  request (Some "Bearer token-of-alice") 0
    (Some (JObj [("requestedGameId", JNum 2); ("offeredGameId", JNum 1)])).

Definition set_status (token new_status : string) : Request :=
  request (Some ("Bearer " +:+ token)) 1 (Some (JObj [("status", JStr new_status)])).

Definition bob_accepts : Request := set_status "token-of-bob" "accepted".
Definition bob_rejects : Request := set_status "token-of-bob" "rejected".
Definition carol_accepts : Request := set_status "token-of-carol" "accepted".

(** The world once Alice's offer (offer 1) is stored. *)
Definition world_with_offer : World :=
  (run (post_offers (H := externals) alice_offers) world).2.

(** The row of Alice's offer. *)
Definition first_offer : TradeOffer :=
  {| id := 1; requested_game_id := 2; offered_game_id := 1; offerer_id := 1;
     recipient_id := 2; status := pending;
     created_at := 1700000000000; updated_at := 1700000000000 |}.

Definition accepting : json := JObj [("status", JStr "accepted")].

(** Two handlers resumed in turn, seven turns each. *)
Definition alternating : list bool :=
  [true; false; true; false; true; false; true; false; true; false; true; false; true; false].

(** Alice asks for her own game and offers Bob's. *)
Definition alice_self_trade : Request :=
  request (Some "Bearer token-of-alice") 0
    (Some (JObj [("requestedGameId", JNum 1); ("offeredGameId", JNum 2)])).

Definition runtime : ConsumerRuntime :=
  {| JSON_parse text :=
       if String.eqb text "email.send to bob"
       then Some (JObj [("type", JStr "email.send"); ("id", JStr "1-r0");
                        ("timestamp", JNum 1); ("to", JStr "bob@example.com");
                        ("subject", JStr "You've received a trade offer!");
                        ("body", JStr "New Trade Offer!")])
       else if String.eqb text "null" then Some JNull
       else None;
     EMAIL_FROM_ADDRESS := None;
     sendMail_resolves _ := true |}.

End Sample.

(* ===================================================================== *)
(** ** Reading the offers *)
(* ===================================================================== *)




(* ===================================================================== *)
(** ** The records handed to the producer *)
(* ===================================================================== *)

(** The shape [publishEmailEvent] gives every record: the one topic, the
    addressee as key, an event of type [email.send] stamped with the
    clock. *)
Definition wire_format (now : Z) (r : ProducerRecord) : Prop :=
  topic r = NOTIFICATIONS_EMAIL
  /\ key r = to (value r)
  /\ type (value r) = "email.send"
  /\ timestamp (value r) = now.

(** The ids [generateEventId] made for the records of a trace: for each
    record the id of its event, then its correlation id. *)
Fixpoint generated_ids (effects : list Effect) : list string :=
  match effects with
  | [] => []
  | Published r :: rest => event_id (value r) :: correlation_id r :: generated_ids rest
  | _ :: rest => generated_ids rest
  end.

(* ===================================================================== *)
(** ** From the producer to the mail *)
(* ===================================================================== *)

(** What [JSON.parse] makes of the [JSON.stringify] of an event, as far
    as the consumer reads it: an object whose [type], [to], [subject] and
    [body] are the event's, as strings. *)
Definition carries (parsed : json) (event : EmailSendEvent) : Prop :=
  get_property parsed "type" = ReadValue (Some (JStr (type event)))
  /\ get_property parsed "to" = ReadValue (Some (JStr (to event)))
  /\ get_property parsed "subject" = ReadValue (Some (JStr (subject event)))
  /\ get_property parsed "body" = ReadValue (Some (JStr (body event))).

(** The message the broker hands to the consumer for a record; [text] is
    the [JSON.stringify] of the record's event. *)
Definition message_of (r : ProducerRecord) (text : string) : KafkaMessage :=
  {| message_key := Some (key r); message_value := Some text |}.

(** The three fields of a mail that come from the event. *)
Definition mail_contents (mail : Mail) : json * json * json :=
  (mail_to mail, mail_subject mail, mail_text mail).

(** Tasks all of whose operations satisfy [P]. *)
Fixpoint performs_only {R : Type} (P : forall X : Type, Op X -> Prop) (t : Task R) : Prop :=
  match t with
  | Return _ | Throw _ => True
  | @Perform _ X op k => P X op /\ forall x, performs_only P (k x)
  end.

(** The events handed to the producer satisfy [P]. *)
Definition publishing (P : string -> string -> string -> Prop) (X : Type) (op : Op X)
    : Prop :=
  match op with
  | PublishEmailEvent to_ subject_ body_ => P to_ subject_ body_
  | _ => True
  end.

(** The offerer and the recipient of the rows inserted satisfy [P]. *)
Definition inserting (P : Z -> Z -> Prop) (X : Type) (op : Op X) : Prop :=
  match op with
  | InsertOffer _ _ offererId recipientId _ => P offererId recipientId
  | _ => True
  end.

Definition event_satisfies (P : string -> string -> string -> Prop) (e : Effect) : Prop :=
  match e with
  | Published r => P (to (value r)) (subject (value r)) (body (value r))
  | _ => True
  end.

(** No stored offer is from a user to the same user. *)
Definition no_self_offer (d : Database) : Prop :=
  map_Forall (fun _ o => offerer_id o <> recipient_id o) (trade_offers d).

(* ===================================================================== *)
(** ** [email-templates.ts] (the templates of the account routes) *)
(* ===================================================================== *)

(** The two templates of the account routes. *)
Module AccountTemplates.

Definition userWelcomeTemplate : Bindings -> option string :=
  Handlebars_compile "Welcome to VidEX!

Hi {{name}},

Welcome to the Video Game Exchange platform! Your account has been successfully created.

You can now start trading video games with other collectors in our community.

Account Email: {{email}}

Happy trading!

---
This is an automated message from VidEX. Please do not reply to this email.".

Definition passwordChangedTemplate : Bindings -> option string :=
  Handlebars_compile "Password Changed

Hi {{name}},

Your VidEX account password has been successfully changed.

SECURITY NOTICE: If you did not make this change, please contact our support team immediately.

Your account remains secure and you can continue using VidEX with your new password.

---
This is an automated message from VidEX. Please do not reply to this email.".

End AccountTemplates.

(** The object the account routes apply their templates to:
    [{ name: user.name, email: user.email }]. *)
Definition account_variables (user : User) : Bindings :=
  object [("name", VStr (user_name user)); ("email", VStr (user_email user))].

(** A template that renders a program which opens with a title and whose
    placeholders all satisfy [bound]. *)
Definition renders_with (bound : string -> Prop) (template : Bindings -> option string)
    : Prop :=
  exists title rest,
    title <> ""
    /\ (forall ctx, template ctx = Some (render (ContentStatement title :: rest) ctx))
    /\ Forall bound (placeholders rest).

(* ===================================================================== *)
(** ** Worlds over time *)
(* ===================================================================== *)

(** The columns of an offer no statement of the routes sets after the
    INSERT. *)
Definition same_offer (o o' : TradeOffer) : Prop :=
  id o' = id o
  /\ requested_game_id o' = requested_game_id o
  /\ offered_game_id o' = offered_game_id o
  /\ offerer_id o' = offerer_id o
  /\ recipient_id o' = recipient_id o
  /\ created_at o' = created_at o.

(** A later world of the same service: the users and the games are the
    same, every offer is still stored with the columns of [same_offer],
    the sequence has not gone back and the trace has only grown. *)
Definition later_world (w w' : World) : Prop :=
  users (db w') = users (db w)
  /\ games (db w') = games (db w)
  /\ (forall k o, trade_offers (db w) !! k = Some o ->
                  exists o', trade_offers (db w') !! k = Some o' /\ same_offer o o')
  /\ (trade_offers_id_seq (db w) <= trade_offers_id_seq (db w'))%Z
  /\ clock w' = clock w
  /\ exists added, trace w' = (trace w ++ added)%list.

(* ===================================================================== *)
(** ** [index.ts]: deleting games and users *)
(* ===================================================================== *)

(** [DELETE FROM games WHERE id = i]. The two foreign keys of
    [trade_offers] on [games] are [ON DELETE CASCADE]: the offers that
    request or offer the game go with it. *)
Definition delete_from_games (d : Database) (gameId : Z) : Database :=
  {| users := users d;
     games := delete gameId (games d);
     trade_offers :=
       filter (fun row => requested_game_id row.2 <> gameId
                          /\ offered_game_id row.2 <> gameId)
              (trade_offers d);
     trade_offers_id_seq := trade_offers_id_seq d |}.

(** Whether a game is stored with this owner. *)
Definition owned_by (d : Database) (userId gameId : Z) : bool :=
  match games d !! gameId with
  | Some game => (owner_id game =? userId)%Z
  | None => false
  end.

(** [DELETE FROM users WHERE id = i]. The foreign key of [games] on
    [users] and the four of [trade_offers] are [ON DELETE CASCADE]: the
    games of the user go with the user, and so do the offers the user
    made or received and the offers about one of these games. *)
Definition delete_from_users (d : Database) (userId : Z) : Database :=
  {| users := delete userId (users d);
     games := filter (fun row => owner_id row.2 <> userId) (games d);
     trade_offers :=
       filter (fun row => offerer_id row.2 <> userId
                          /\ recipient_id row.2 <> userId
                          /\ owned_by d userId (requested_game_id row.2) = false
                          /\ owned_by d userId (offered_game_id row.2) = false)
              (trade_offers d);
     trade_offers_id_seq := trade_offers_id_seq d |}.

(** The answer of a route that may have no body:
    [new Response(null, { status: 204 })]. *)
Inductive Reply : Type :=
| Answered (response : Response)
| NoContent.

Section DeleteRoutes.

Context `{Externals}.

(** [DELETE /users/:id], run alone. *)
Definition delete_user (req : Request) (w : World) : Reply * World :=
  match requireAuth req with
  | inl response => (Answered response, w)
  | inr authenticatedUserId =>
      let userId := params_id req in
      if negb (userId =? authenticatedUserId)%Z
      then (Answered (errorResponse 403 "Forbidden: You can only delete your own profile"), w)
      else
        match select_by_id (users (db w)) userId with
        | [] => (Answered (errorResponse 404 "User not found"), w)
        | _ :: _ => (NoContent, set_db w (delete_from_users (db w) userId))
        end
  end.

(** [DELETE /games/:id], run alone. *)
Definition delete_game (req : Request) (w : World) : Reply * World :=
  match requireAuth req with
  | inl response => (Answered response, w)
  | inr authenticatedUserId =>
      let gameId := params_id req in
      match select_by_id (games (db w)) gameId with
      | [] => (Answered (errorResponse 404 "Game not found"), w)
      | game :: _ =>
          if negb (owner_id game =? authenticatedUserId)%Z
          then (Answered (errorResponse 403 "Forbidden: You can only delete your own games"), w)
          else (NoContent, set_db w (delete_from_games (db w) gameId))
      end
  end.

End DeleteRoutes.

(* ===================================================================== *)
(** ** [index.ts], the earlier version: sessions instead of signed tokens *)
(* ===================================================================== *)

Module Sessions.

(** [const sessions = new Map<string, number>()]: token -> userId. *)
Definition Store : Type := gmap string Z.

Definition authenticate (sessions : Store) (req : Request) : option Z :=
  match authorization req with
  | None => None
  | Some authHeader =>
      if String.eqb authHeader "" || negb (String.prefix "Bearer " authHeader)
      then None
      else sessions !! String.substring 7 (String.length authHeader - 7) authHeader
  end.

(** [sessions.set(token, user.id)], the step of [POST /auth/login] that
    follows a password that matches; [token] is [crypto.randomUUID()]. *)
Definition login_session (sessions : Store) (token : string) (userId : Z) : Store :=
  <[token := userId]> sessions.

(** [POST /auth/logout]: the map it leaves. The answer is 200
    [Logged out successfully] in every case. *)
Definition logout (sessions : Store) (req : Request) : Store :=
  match authorization req with
  | None => sessions
  | Some authHeader =>
      if negb (String.eqb authHeader "") && String.prefix "Bearer " authHeader
      then delete (String.substring 7 (String.length authHeader - 7) authHeader) sessions
      else sessions
  end.

End Sessions.

(* ===================================================================== *)
(** ** [index.ts]: accounts *)
(* ===================================================================== *)

(** The columns of [users] the offer routes do not read. The table is
    split in two: the rows of [users (db w)] and, under the same ids,
    these. The password is the hash that is stored. *)
Record UserDetails : Type := {
  password : string;
  street_address : string;
  user_created_at : Z;
  user_updated_at : Z;
}.

(** The service with every column of [users] and the sequence behind
    [users.id SERIAL]. *)
Record Site : Type := {
  world : World;
  user_details : gmap Z UserDetails;
  users_id_seq : Z;
}.

Definition UserRow : Type := User * UserDetails.

Definition site_users (s : Site) : gmap Z User := users (db (world s)).

(** [SELECT * FROM users WHERE id = i] *)
Definition select_user_row (s : Site) (userId : Z) : list UserRow :=
  match site_users s !! userId, user_details s !! userId with
  | Some u, Some d => [(u, d)]
  | _, _ => []
  end.

(** [SELECT * FROM users WHERE email = e] *)
Definition select_users_by_email (s : Site) (email : string) : list UserRow :=
  omap (fun row : Z * User =>
          if String.eqb (user_email row.2) email
          then pair row.2 <$> user_details s !! row.1
          else None)
       (map_to_list (site_users s)).

Definition with_users (w : World) (rows : gmap Z User) : World :=
  set_db w {| users := rows; games := games (db w);
              trade_offers := trade_offers (db w);
              trade_offers_id_seq := trade_offers_id_seq (db w) |}.

(** [INSERT INTO users (...) VALUES (...) RETURNING *]: the id is the
    next value of the sequence (consumed even when the statement fails);
    the primary key must be free and the e-mail address must not be
    stored ([email TEXT UNIQUE]); else the statement throws and no row is
    written. *)
Definition insert_user (s : Site) (name email hashedPassword streetAddress : string)
    (now : Z) : SqlResult UserRow * Site :=
  let new_id := (users_id_seq s + 1)%Z in
  let row := {| user_id := new_id; user_name := name; user_email := email |} in
  let details := {| password := hashedPassword; street_address := streetAddress;
                    user_created_at := now; user_updated_at := now |} in
  if bool_decide (site_users s !! new_id = None)
     && bool_decide (user_details s !! new_id = None)
     && bool_decide (map_Forall (fun _ u => user_email u <> email) (site_users s))
  then (SqlRows [(row, details)],
        {| world := with_users (world s) (<[new_id := row]> (site_users s));
           user_details := <[new_id := details]> (user_details s);
           users_id_seq := new_id |})
  else (SqlError "constraint violation",
        {| world := world s; user_details := user_details s; users_id_seq := new_id |}).

(** [UPDATE users SET ${sql(updates)} WHERE id = i RETURNING *], where
    [updates] holds [updated_at] and those of [name], [street_address]
    and [password] that were given. *)
Definition update_user (s : Site) (userId : Z)
    (name streetAddress hashedPassword : option string) (now : Z) : list UserRow * Site :=
  match select_user_row s userId with
  | [] => ([], s)
  | (u, d) :: _ =>
      let u' := {| user_id := user_id u;
                   user_name := default (user_name u) name;
                   user_email := user_email u |} in
      let d' := {| password := default (password d) hashedPassword;
                   street_address := default (street_address d) streetAddress;
                   user_created_at := user_created_at d;
                   user_updated_at := now |} in
      ([(u', d')],
       {| world := with_users (world s) (<[userId := u']> (site_users s));
          user_details := <[userId := d']> (user_details s);
          users_id_seq := users_id_seq s |})
  end.

Definition site_publish (s : Site) (to_ subject_ body_ : string) : Site :=
  {| world := publishEmailEvent (world s) to_ subject_ body_;
     user_details := user_details s;
     users_id_seq := users_id_seq s |}.

Record UserLinks : Type := {
  user_self : string;
  user_games : string;
}.

Record UserResponse : Type := {
  user_r_id : Z;
  user_r_name : string;
  user_r_email : string;
  user_r_streetAddress : string;
  user_r_createdAt : Z;
  user_r_updatedAt : Z;
  user_r_links : UserLinks;
}.

Record LoginResponse : Type := {
  login_token : string;
  login_userId : Z;
  login_message : string;
  login_self : string;
  login_user : string;
}.

Definition createUserLinks (userId : Z) : UserLinks :=
  {| user_self := "/users/" +:+ pretty userId;
     user_games := "/games?ownerId=" +:+ pretty userId |}.

Definition formatUserResponse (user : UserRow) : UserResponse :=
  {| user_r_id := user_id user.1;
     user_r_name := user_name user.1;
     user_r_email := user_email user.1;
     user_r_streetAddress := street_address user.2;
     user_r_createdAt := user_created_at user.2;
     user_r_updatedAt := user_updated_at user.2;
     user_r_links := createUserLinks (user_id user.1) |}.

(** The answers of the account routes: an error, a user, a login. *)
Inductive AccountReply : Type :=
| Refused (response : Response)
| UserJson (code : Z) (body_ : UserResponse)
| LoginJson (body_ : LoginResponse).

(** [UserInputSchema], [LoginInputSchema] and [UserPatchSchema] of
    [./schemas] (a success carries the fields of [validation.data]; a
    field of the patch that is [undefined] is [None]),
    [Bun.password.hash], [Bun.password.verify] and
    [jwt.sign({ userId }, JWT_SECRET, { expiresIn: '7d' })]. *)
Class AccountExternals : Type := {
  UserInputSchema : json -> SafeParse (string * string * string * string);
  LoginInputSchema : json -> SafeParse (string * string);
  UserPatchSchema : json -> SafeParse (option string * option string * option string);
  Bun_password_hash : string -> string;
  Bun_password_verify : string -> string -> bool;
  jwt_sign : Z -> string;
}.

Section AccountRoutes.

Context `{Externals} `{AccountExternals}.

Definition generateToken (userId : Z) : string := jwt_sign userId.

(** [POST /auth/login], run alone; it writes nothing. *)
Definition post_auth_login (req : Request) (s : Site) : AccountReply :=
  match json_body req with
  | None => Refused (errorResponse 400 "Invalid input")
  | Some input =>
      match LoginInputSchema input with
      | ParseFailure message => Refused (errorResponse 400 message)
      | ParseSuccess (email, password_) =>
          match select_users_by_email s email with
          | [] => Refused (errorResponse 401 "Invalid email or password")
          | user :: _ =>
              if negb (Bun_password_verify password_ (password user.2))
              then Refused (errorResponse 401 "Invalid email or password")
              else LoginJson {| login_token := generateToken (user_id user.1);
                                login_userId := user_id user.1;
                                login_message := "Login successful";
                                login_self := "/auth/login";
                                login_user := "/users/" +:+ pretty (user_id user.1) |}
          end
      end
  end.

(** [POST /users], run alone. Whatever throws inside its [try] is
    answered 400 [Invalid input]. *)
Definition post_users (req : Request) (s : Site) : AccountReply * Site :=
  match json_body req with
  | None => (Refused (errorResponse 400 "Invalid input"), s)
  | Some input =>
      match UserInputSchema input with
      | ParseFailure message => (Refused (errorResponse 400 message), s)
      | ParseSuccess (name, email, password_, streetAddress) =>
          match select_users_by_email s email with
          | _ :: _ => (Refused (errorResponse 409 "User with this email already exists"), s)
          | [] =>
              let hashedPassword := Bun_password_hash password_ in
              let now := clock (world s) in
              match insert_user s name email hashedPassword streetAddress now with
              | (SqlRows (user :: _), s') =>
                  match AccountTemplates.userWelcomeTemplate (account_variables user.1) with
                  | Some emailBody =>
                      (UserJson 201 (formatUserResponse user),
                       site_publish s' (user_email user.1) "Welcome to VidEX!" emailBody)
                  | None => (Refused (errorResponse 400 "Invalid input"), s')
                  end
              | (_, s') => (Refused (errorResponse 400 "Invalid input"), s')
              end
          end
      end
  end.

(** [GET /users/:id] *)
Definition get_user (req : Request) (s : Site) : AccountReply :=
  match requireAuth req with
  | inl response => Refused response
  | inr _ =>
      match select_user_row s (params_id req) with
      | [] => Refused (errorResponse 404 "User not found")
      | user :: _ => UserJson 200 (formatUserResponse user)
      end
  end.

(** [PATCH /users/:id], run alone. *)
Definition patch_user (req : Request) (s : Site) : AccountReply * Site :=
  match requireAuth req with
  | inl response => (Refused response, s)
  | inr authenticatedUserId =>
      let userId := params_id req in
      if negb (userId =? authenticatedUserId)%Z
      then (Refused (errorResponse 403 "Forbidden: You can only update your own profile"), s)
      else
        match select_user_row s userId with
        | [] => (Refused (errorResponse 404 "User not found"), s)
        | _ :: _ =>
            match json_body req with
            | None => (Refused (errorResponse 400 "Invalid input"), s)
            | Some input =>
                match UserPatchSchema input with
                | ParseFailure message => (Refused (errorResponse 400 message), s)
                | ParseSuccess (name, streetAddress, password_) =>
                    let now := clock (world s) in
                    let hashedPassword := Bun_password_hash <$> password_ in
                    if bool_decide (name = None /\ streetAddress = None /\ password_ = None)
                    then (Refused (errorResponse 400 "No valid fields to update"), s)
                    else
                      match update_user s userId name streetAddress hashedPassword now with
                      | ([], s') => (Refused (errorResponse 400 "Invalid input"), s')
                      | (updated :: _, s') =>
                          match password_ with
                          | Some _ =>
                              match AccountTemplates.passwordChangedTemplate
                                      (account_variables updated.1) with
                              | Some emailBody =>
                                  (UserJson 200 (formatUserResponse updated),
                                   site_publish s' (user_email updated.1)
                                     "Your VidEX password was changed" emailBody)
                              | None => (Refused (errorResponse 400 "Invalid input"), s')
                              end
                          | None => (UserJson 200 (formatUserResponse updated), s')
                          end
                      end
                end
            end
        end
  end.

End AccountRoutes.

(** The users table in order: the two halves of the table hold the same
    ids, a row is stored under its id, the sequence is past every id and
    no e-mail address is stored twice ([email TEXT UNIQUE]). *)
Definition users_in_order (s : Site) : Prop :=
  dom (site_users s) = dom (user_details s)
  /\ map_Forall (fun k u => user_id u = k /\ (k <= users_id_seq s)%Z) (site_users s)
  /\ NoDup (user_email <$> (map_to_list (site_users s)).*2).

Global Instance users_in_order_dec (s : Site) : Decision (users_in_order s).
Proof. unfold users_in_order. apply _. Defined.

(* ===================================================================== *)
(** ** [index.ts]: games *)
(* ===================================================================== *)

(** The columns of [games] the offer routes do not read, under the same
    ids as the rows of [games (db w)]. *)
Record GameDetails : Type := {
  publisher : string;
  gaming_system : string;
  condition : string;
  previous_owners : option Z;
  game_created_at : Z;
  game_updated_at : Z;
}.

(** The service with every column of [games] as well, and the sequence
    behind [games.id SERIAL]. *)
Record Catalog : Type := {
  site : Site;
  game_details : gmap Z GameDetails;
  games_id_seq : Z;
}.

Definition GameRow : Type := Game * GameDetails.

Definition catalog_games (c : Catalog) : gmap Z Game := games (db (world (site c))).

(** [SELECT * FROM games WHERE id = i] *)
Definition select_game_row (c : Catalog) (gameId : Z) : list GameRow :=
  match catalog_games c !! gameId, game_details c !! gameId with
  | Some g, Some d => [(g, d)]
  | _, _ => []
  end.





Record GameLinks : Type := {
  game_self : string;
  game_owner : string;
}.

Record GameResponse : Type := {
  game_r_id : Z;
  game_r_name : string;
  game_r_publisher : string;
  game_r_year : Z;
  game_r_gamingSystem : string;
  game_r_condition : string;
  game_r_previousOwners : option Z;
  game_r_ownerId : Z;
  game_r_createdAt : Z;
  game_r_updatedAt : Z;
  game_r_links : GameLinks;
}.

Definition createGameLinks (gameId ownerId : Z) : GameLinks :=
  {| game_self := "/games/" +:+ pretty gameId;
     game_owner := "/users/" +:+ pretty ownerId |}.

Definition formatGameResponse (game : GameRow) : GameResponse :=
  {| game_r_id := game_id game.1;
     game_r_name := game_name game.1;
     game_r_publisher := publisher game.2;
     game_r_year := game_year game.1;
     game_r_gamingSystem := gaming_system game.2;
     game_r_condition := condition game.2;
     game_r_previousOwners := previous_owners game.2;
     game_r_ownerId := owner_id game.1;
     game_r_createdAt := game_created_at game.2;
     game_r_updatedAt := game_updated_at game.2;
     game_r_links := createGameLinks (game_id game.1) (owner_id game.1) |}.

Inductive GameReply : Type :=
| GameRefused (response : Response)
| GameJson (code : Z) (body_ : GameResponse).



Section GameRoutes.

Context `{Externals} `{GameExternals}.


(** [GET /games/:id] *)
Definition get_game (req : Request) (c : Catalog) : GameReply :=
  match requireAuth req with
  | inl response => GameRefused response
  | inr _ =>
      match select_game_row c (params_id req) with
      | [] => GameRefused (errorResponse 404 "Game not found")
      | game :: _ => GameJson 200 (formatGameResponse game)
      end
  end.






End GameRoutes.

(** The games table in order: its two halves hold the same ids, a row is
    stored under its id and the sequence is past every id. *)
Definition games_in_order (c : Catalog) : Prop :=
  dom (catalog_games c) = dom (game_details c)
  /\ map_Forall (fun k g => game_id g = k /\ (k <= games_id_seq c)%Z) (catalog_games c).

Global Instance games_in_order_dec (c : Catalog) : Decision (games_in_order c).
Proof. unfold games_in_order. apply _. Defined.


(* ===================================================================== *)
(** ** The small instance, continued *)
(* ===================================================================== *)

Module Scenario.

Definition bob_reads : Request := Sample.request (Some "Bearer token-of-bob") 1 None.

(** Alice sends a body that is not JSON. *)
Definition alice_garbles : Request := Sample.request (Some "Bearer token-of-alice") 0 None.

(** Bob deletes his Metroid (game 2); Alice deletes her account. *)
Definition bob_deletes_metroid : Request := Sample.request (Some "Bearer token-of-bob") 2 None.
Definition alice_leaves : Request := Sample.request (Some "Bearer token-of-alice") 1 None.

(** The records a trace hands to the producer. *)
Definition records (effects : list Effect) : list ProducerRecord :=
  omap (fun e => match e with
                 | Published r => Some r
                 | _ => None
                 end) effects.

(** The record of the first event of Alice's offer: the mail to Bob. *)
Definition first_record : ProducerRecord :=
  Eval vm_compute in
    match records (new_effects Sample.world Sample.world_with_offer) with
    | r :: _ => r
    | [] => producer_record Sample.world "" "" ""
    end.

(** [JSON.parse(JSON.stringify(event))], without the timestamp. *)
Definition stringified (event : EmailSendEvent) : json :=
  JObj [("type", JStr (type event)); ("id", JStr (event_id event));
        ("to", JStr (to event)); ("subject", JStr (subject event));
        ("body", JStr (body event))].

Definition runtime : ConsumerRuntime :=
  {| JSON_parse text :=
       if String.eqb text "first event" then Some (stringified (value first_record))
       else None;
     EMAIL_FROM_ADDRESS := Some "videx@example.com";
     sendMail_resolves _ := true |}.

(** A request of the earlier version that carries a session token. *)
Definition with_session : Request := Sample.request (Some "Bearer 5f2c") 0 None.

(** The accounts of the three users, and what the account routes take
    from outside: schemas that want strings, a hash that can be told from
    the password, one token per id. *)
Definition details (hashed street : string) : UserDetails :=
  {| password := hashed; street_address := street;
     user_created_at := 1600000000000; user_updated_at := 1600000000000 |}.

Definition accounts : Site :=
  {| world := Sample.world;
     user_details := <[1 := details "hash of wonderland" "1 Main St"]>
                       (<[2 := details "hash of builder" "2 Oak Ave"]>
                          (<[3 := details "hash of singer" "3 Pine Rd"]> ∅));
     users_id_seq := 3 |}.

Definition text_of (input : json) (name : string) : option string :=
  match get_property input name with
  | ReadValue (Some (JStr s)) => Some s
  | _ => None
  end.

Definition account_externals : AccountExternals :=
  {| UserInputSchema input :=
       match text_of input "name", text_of input "email", text_of input "password",
             text_of input "streetAddress" with
       | Some name, Some email, Some password_, Some streetAddress =>
           ParseSuccess (name, email, password_, streetAddress)
       | _, _, _, _ => ParseFailure "Invalid input: expected string"
       end;
     LoginInputSchema input :=
       match text_of input "email", text_of input "password" with
       | Some email, Some password_ => ParseSuccess (email, password_)
       | _, _ => ParseFailure "Invalid input: expected string"
       end;
     UserPatchSchema input :=
       ParseSuccess (text_of input "name", text_of input "streetAddress",
                     text_of input "password");
     Bun_password_hash password_ := "hash of " +:+ password_;
     Bun_password_verify password_ hashed := String.eqb hashed ("hash of " +:+ password_);
     jwt_sign userId := "token-of-" +:+ pretty userId |}.

(** Dave registers, then logs in. *)
Definition dave_registers : Request :=
  Sample.request None 0
    (Some (JObj [("name", JStr "Dave"); ("email", JStr "dave@example.com");
                 ("password", JStr "drummer"); ("streetAddress", JStr "4 Elm St")])).

Definition dave_credentials : json :=
  JObj [("email", JStr "dave@example.com"); ("password", JStr "drummer")].

Definition dave_logs_in : Request := Sample.request None 0 (Some dave_credentials).

Definition dave : UserRow :=
  ({| user_id := 4; user_name := "Dave"; user_email := "dave@example.com" |},
   {| password := "hash of drummer"; street_address := "4 Elm St";
      user_created_at := 1700000000000; user_updated_at := 1700000000000 |}).

(** Alice changes her name. *)
Definition alice_renames : Request :=
  Sample.request (Some "Bearer token-of-alice") 1 (Some (JObj [("name", JStr "Alicia")])).






End Scenario.

(* ===================================================================== *)
(** * Properties *)
(* ===================================================================== *)

Arguments insert_offer : simpl never.
Arguments update_offer : simpl never.
Arguments publishEmailEvent : simpl never.
Arguments template_variables : simpl never.
Arguments select_by_id : simpl never.
Arguments errorResponse : simpl never.
Arguments jsonResponse : simpl never.
Arguments formatTradeOfferResponse : simpl never.

(* ===================================================================== *)
(** ** The template engine *)
(* ===================================================================== *)










Ltac compute_parse :=
  match goal with
  | |- context [parse ?s] =>
      let v := eval vm_compute in (parse s) in
      change (parse s) with v
  end.

(** The six templates of the offer life cycle are in the fragment: they
    render whatever the bindings. *)
Lemma template_renders ctx :
  is_Some (EmailTemplates.offerReceivedTemplate ctx)
  /\ is_Some (EmailTemplates.offerCreatedConfirmationTemplate ctx)
  /\ is_Some (EmailTemplates.offerAcceptedTemplate ctx)
  /\ is_Some (EmailTemplates.offerAcceptedRecipientTemplate ctx)
  /\ is_Some (EmailTemplates.offerRejectedTemplate ctx)
  /\ is_Some (EmailTemplates.offerRejectedRecipientTemplate ctx).
Proof.
  unfold EmailTemplates.offerReceivedTemplate, EmailTemplates.offerCreatedConfirmationTemplate,
    EmailTemplates.offerAcceptedTemplate, EmailTemplates.offerAcceptedRecipientTemplate,
    EmailTemplates.offerRejectedTemplate, EmailTemplates.offerRejectedRecipientTemplate,
    Handlebars_compile.
  repeat compute_parse. repeat split; eexists; reflexivity.
Qed.

Opaque EmailTemplates.offerReceivedTemplate EmailTemplates.offerCreatedConfirmationTemplate
  EmailTemplates.offerAcceptedTemplate EmailTemplates.offerAcceptedRecipientTemplate
  EmailTemplates.offerRejectedTemplate EmailTemplates.offerRejectedRecipientTemplate.

(* ===================================================================== *)
(** ** Tasks, the database and the trace *)
(* ===================================================================== *)

Lemma run_try_catch {R : Type} (t : Task R) (h : string -> Task R) (w : World) :
  run (try_catch t h) w =
  match run t w with
  | (Returned r, w') => (Returned r, w')
  | (Thrown e, w') => run (h e) w'
  end.
Proof.
  revert w. induction t as [r | e | X op k IH]; intros w; simpl; try reflexivity.
  destruct (perform op w) as [x w']. apply IH.
Qed.

Lemma select_by_id_cases {A : Type} (table : gmap Z A) (k : Z) :
  (table !! k = None /\ select_by_id table k = [])
  \/ (exists row, table !! k = Some row /\ select_by_id table k = [row]).
Proof.
  unfold select_by_id. destruct (table !! k); eauto.
Qed.

(** An INSERT that returns rows returns the one pending row it stored
    under the next id, and its foreign keys resolved. *)
Lemma insert_offer_rows d rq off a r now rows d' :
  insert_offer d rq off a r now = (SqlRows rows, d') ->
  let row := {| id := trade_offers_id_seq d + 1; requested_game_id := rq;
                offered_game_id := off; offerer_id := a; recipient_id := r;
                status := pending; created_at := now; updated_at := now |} in
  rows = [row]
  /\ is_Some (games d !! rq) /\ is_Some (games d !! off)
  /\ is_Some (users d !! a) /\ is_Some (users d !! r)
  /\ trade_offers d !! (trade_offers_id_seq d + 1) = None
  /\ users d' = users d /\ games d' = games d
  /\ trade_offers d' = <[trade_offers_id_seq d + 1 := row]> (trade_offers d)
  /\ trade_offers_id_seq d' = trade_offers_id_seq d + 1.
Proof.
  unfold insert_offer. intros Hins. cbv zeta.
  destruct (_ && _) eqn:Hchecks in Hins; [|discriminate].
  injection Hins as <- <-.
  repeat (apply andb_prop in Hchecks as [Hchecks ?]).
  repeat match goal with
         | Hb : bool_decide _ = true |- _ => apply bool_decide_eq_true in Hb
         end.
  simpl. repeat split; assumption.
Qed.

Lemma insert_offer_error d rq off a r now reason d' :
  insert_offer d rq off a r now = (SqlError reason, d') -> same_tables d d'.
Proof.
  unfold insert_offer. intros Hins.
  destruct (_ && _) in Hins; [discriminate|].
  injection Hins as _ <-. repeat split. simpl. lia.
Qed.

(** The UPDATE writes whatever the row's status: its guard is the id. *)
Lemma update_offer_found d k s now o st :
  trade_offers d !! k = Some o -> status_of_text s = Some st ->
  update_offer d k s now =
  (SqlRows [updated_row o st now],
   {| users := users d; games := games d;
      trade_offers := <[k := updated_row o st now]> (trade_offers d);
      trade_offers_id_seq := trade_offers_id_seq d |}).
Proof.
  intros Ho Hs. unfold update_offer. rewrite Ho, Hs. reflexivity.
Qed.

Lemma status_of_text_status_text st : status_of_text (status_text st) = Some st.
Proof. destruct st; reflexivity. Qed.

Lemma games_owner d :
  db_consistent d -> forall k g, games d !! k = Some g -> is_Some (users d !! owner_id g).
Proof. intros [Hgames _] k g Hg. apply (Hgames k g Hg). Qed.

Lemma offers_refs d :
  db_consistent d -> forall k o, trade_offers d !! k = Some o ->
  is_Some (games d !! requested_game_id o) /\ is_Some (games d !! offered_game_id o)
  /\ is_Some (users d !! offerer_id o) /\ is_Some (users d !! recipient_id o).
Proof. intros [_ Hoffers] k o Ho. destruct (Hoffers k o Ho) as (_ & ? & ? & ? & ? & _). auto. Qed.

Lemma offers_seq d :
  db_consistent d -> forall k o, trade_offers d !! k = Some o -> k <= trade_offers_id_seq d.
Proof. intros [_ Hoffers] k o Ho. apply (Hoffers k o Ho). Qed.

(** In a consistent database the INSERT of [POST /offers] goes through. *)
Lemma insert_offer_consistent d rq off actor g_r g_o now :
  db_consistent d ->
  games d !! rq = Some g_r -> games d !! off = Some g_o -> owner_id g_o = actor ->
  let row := {| id := trade_offers_id_seq d + 1; requested_game_id := rq;
                offered_game_id := off; offerer_id := actor; recipient_id := owner_id g_r;
                status := pending; created_at := now; updated_at := now |} in
  insert_offer d rq off actor (owner_id g_r) now
  = (SqlRows [row],
     {| users := users d; games := games d;
        trade_offers := <[trade_offers_id_seq d + 1 := row]> (trade_offers d);
        trade_offers_id_seq := trade_offers_id_seq d + 1 |}).
Proof.
  intros Hd Hg_r Hg_o Hown. unfold insert_offer. cbv zeta.
  rewrite !bool_decide_eq_true_2; [reflexivity | | | | |]; rewrite ?Hg_r, ?Hg_o; eauto.
  - destruct (trade_offers d !! (trade_offers_id_seq d + 1)) as [o|] eqn:Ho; [|reflexivity].
    apply (offers_seq d Hd) in Ho. lia.
  - apply (games_owner d Hd _ _ Hg_r).
  - subst actor. apply (games_owner d Hd _ _ Hg_o).
Qed.

Lemma same_tables_consistent d d' :
  same_tables d d' -> db_consistent d -> db_consistent d'.
Proof.
  intros (Hu & Hg & Ho & Hseq) [Hgames Hoffers]. unfold db_consistent.
  rewrite Hu, Hg, Ho. split; [exact Hgames|].
  intros k o Hk. destruct (Hoffers k o Hk) as (? & ? & ? & ? & ? & ?).
  repeat split; try assumption. lia.
Qed.

Lemma db_publishEmailEvent w to_ subject_ body_ :
  db (publishEmailEvent w to_ subject_ body_) = db w.
Proof. reflexivity. Qed.

Lemma new_effects_app before after added :
  trace after = (trace before ++ added)%list -> new_effects before after = added.
Proof. unfold new_effects. intros ->. apply drop_app_length. Qed.

Lemma new_effects_same before after :
  trace after = trace before -> new_effects before after = [].
Proof. unfold new_effects. intros ->. apply drop_all. Qed.

Lemma publication_quiet w to_ subject_ body_ :
  exists logged,
    publication w to_ subject_ body_
    = Published (producer_record w to_ subject_ body_) :: logged
    /\ Forall (fun e => is_write e = false /\ is_publish e = false) logged.
Proof.
  unfold publication. destruct (broker_ack _ _); eexists; split; try reflexivity;
    repeat constructor.
Qed.

(** The effects of a write followed by two publications. *)
Lemma write_then_two_publications w d' write to1 subject1 body1 to2 subject2 body2 w' :
  w' = publishEmailEvent
         (publishEmailEvent (emit (set_db w d') write) to1 subject1 body1)
         to2 subject2 body2 ->
  db w' = d'
  /\ exists record1 record2 logged1 logged2,
       new_effects w w'
       = (write :: Published record1 :: logged1 ++ Published record2 :: logged2)%list
       /\ to (value record1) = to1 /\ to (value record2) = to2
       /\ Forall (fun e => is_write e = false /\ is_publish e = false) (logged1 ++ logged2).
Proof.
  intros ->. split; [reflexivity|].
  set (w1 := emit (set_db w d') write).
  set (w2 := publishEmailEvent w1 to1 subject1 body1).
  destruct (publication_quiet w1 to1 subject1 body1) as (logged1 & Hp1 & Hq1).
  destruct (publication_quiet w2 to2 subject2 body2) as (logged2 & Hp2 & Hq2).
  exists (producer_record w1 to1 subject1 body1), (producer_record w2 to2 subject2 body2),
    logged1, logged2.
  split; [|split; [reflexivity|split; [reflexivity|apply Forall_app; auto]]].
  apply new_effects_app.
  change (trace (publishEmailEvent w2 to2 subject2 body2))
    with (((trace w ++ [write]) ++ publication w1 to1 subject1 body1)
          ++ publication w2 to2 subject2 body2)%list.
  rewrite Hp1, Hp2, <- !app_assoc. reflexivity.
Qed.

Lemma published_write_two write record1 logged1 record2 logged2 :
  is_publish write = false ->
  Forall (fun e => is_write e = false /\ is_publish e = false) (logged1 ++ logged2) ->
  published (write :: Published record1 :: logged1 ++ Published record2 :: logged2)
  = [value record1; value record2].
Proof.
  intros Hwrite [H1 H2]%Forall_app. unfold published.
  assert (Hnone : forall l, Forall (fun e => is_write e = false /\ is_publish e = false) l ->
            omap (fun e => match e with Published r => Some (value r) | _ => None end) l = []).
  { induction 1 as [|e l [_ He] _ IH]; [reflexivity|].
    simpl. destruct e; try discriminate; exact IH. }
  destruct write; try discriminate; simpl; rewrite omap_app; simpl;
    rewrite !Hnone by assumption; reflexivity.
Qed.

Lemma ordered_write_two write record1 logged1 record2 logged2 :
  Forall (fun e => is_write e = false /\ is_publish e = false) (logged1 ++ logged2) ->
  writes_before_publishes
    (write :: Published record1 :: logged1 ++ Published record2 :: logged2) = true.
Proof.
  intros [H1 H2]%Forall_app.
  assert (Hnowrite : forall l, Forall (fun e => is_write e = false /\ is_publish e = false) l ->
            forallb (fun e' => negb (is_write e')) l = true).
  { induction 1 as [|e l [He _] _ IH]; [reflexivity|]. simpl. rewrite He, IH. reflexivity. }
  assert (Hquiet : forall l rest,
            Forall (fun e => is_write e = false /\ is_publish e = false) l ->
            writes_before_publishes (l ++ rest) = writes_before_publishes rest).
  { induction 1 as [|e l [_ He] _ IH]; [reflexivity|]. simpl. rewrite He, IH. reflexivity. }
  assert (Hmid : forallb (fun e' => negb (is_write e'))
                   (logged1 ++ Published record2 :: logged2) = true).
  { rewrite forallb_app. simpl. rewrite !Hnowrite by assumption. reflexivity. }
  assert (Htail : writes_before_publishes
                    (Published record1 :: logged1 ++ Published record2 :: logged2) = true).
  { simpl. rewrite Hmid, Hquiet by assumption. simpl.
    rewrite Hnowrite by assumption.
    rewrite <- (app_nil_r logged2), Hquiet by assumption. reflexivity. }
  change (writes_before_publishes (write :: ?l))
    with ((if is_publish write then forallb (fun e' => negb (is_write e')) l else true)
          && writes_before_publishes l).
  rewrite Htail. destruct (is_publish write); [|reflexivity].
  simpl. rewrite Hmid. reflexivity.
Qed.

Lemma without_console_app l1 l2 :
  without_console (l1 ++ l2) = (without_console l1 ++ without_console l2)%list.
Proof. apply List.filter_app. Qed.

Lemma published_without_console l : published (without_console l) = published l.
Proof.
  induction l as [|e l IH]; [reflexivity|].
  destruct e; simpl; rewrite ?IH; reflexivity.
Qed.

Lemma without_console_publication w1 w2 to_ subject_ body_ :
  clock w1 = clock w2 -> random w1 = random w2 -> drawn w1 = drawn w2 ->
  without_console (publication w1 to_ subject_ body_)
  = without_console (publication w2 to_ subject_ body_).
Proof.
  intros Hclock Hrandom Hdrawn. unfold publication.
  assert (producer_record w1 to_ subject_ body_ = producer_record w2 to_ subject_ body_) as ->.
  { unfold producer_record, generateEventId. rewrite Hclock, Hrandom, Hdrawn. reflexivity. }
  do 2 destruct (broker_ack _ _); reflexivity.
Qed.

Lemma perform_same_but_broker {X : Type} (op : Op X) w1 w2 :
  same_but_broker w1 w2 ->
  (perform op w1).1 = (perform op w2).1
  /\ same_but_broker (perform op w1).2 (perform op w2).2.
Proof.
  intros (Hdb & Hclock & Hrandom & Hdrawn & Htrace).
  destruct op; simpl; rewrite ?Hdb, ?Hclock; try (split; [reflexivity|]);
    try (repeat split; assumption).
  - destruct (insert_offer _ _ _ _ _ _) as [[[|row rows]|reason] d']; simpl;
      (split; [reflexivity|]); repeat split; try assumption.
    cbn [trace emit set_db]. rewrite !without_console_app, Htrace. reflexivity.
  - destruct (update_offer _ _ _ _) as [[[|row rows]|reason] d']; simpl;
      (split; [reflexivity|]); repeat split; try assumption.
    cbn [trace emit set_db]. rewrite !without_console_app, Htrace. reflexivity.
  - repeat split; simpl; try assumption; [congruence|].
    unfold publishEmailEvent, with_draws. cbn [trace].
    rewrite !without_console_app, Htrace.
    rewrite (without_console_publication w1 w2) by assumption. reflexivity.
Qed.

(** The broker's answers reach neither the result of a task nor the
    database; they show in the console only. *)
Lemma run_same_but_broker {R : Type} (t : Task R) w1 w2 :
  same_but_broker w1 w2 ->
  (run t w1).1 = (run t w2).1 /\ same_but_broker (run t w1).2 (run t w2).2.
Proof.
  revert w1 w2. induction t as [r | e | X op k IH]; intros w1 w2 Hsame; simpl; auto.
  destruct (perform_same_but_broker op w1 w2 Hsame) as [Hx Hsame'].
  destruct (perform op w1) as [x1 w1'], (perform op w2) as [x2 w2']. simpl in *. subst x2.
  apply IH. assumption.
Qed.



Ltac failed_response :=
  eexists _, _; split; [reflexivity|]; left; repeat split; try (simpl; lia).

(* ===================================================================== *)
(** ** The offer routes *)
(* ===================================================================== *)

Section RouteProperties.

Context `{Externals}.

Lemma authenticate_None req :
  authorization req = None
  \/ (exists authHeader, authorization req = Some authHeader
        /\ (String.prefix "Bearer " authHeader = false
            \/ jwt_verify (String.substring 7 (String.length authHeader - 7) authHeader) = None)) ->
  authenticate req = None.
Proof.
  unfold authenticate. intros [-> | (h & -> & [Hprefix | Hverify])]; [reflexivity | |].
  - rewrite Hprefix. simpl. rewrite orb_true_r. reflexivity.
  - rewrite Hverify. destruct (_ || _); reflexivity.
Qed.

Lemma update_schema_success input new_status :
  TradeOfferUpdateSchema input = ParseSuccess new_status ->
  get_property input "status" = ReadValue (Some (JStr new_status))
  /\ (new_status = "accepted" \/ new_status = "rejected").
Proof.
  unfold TradeOfferUpdateSchema.
  destruct (get_property input "status") as [|[[]|]]; try discriminate.
  destruct (String.eqb s "accepted") eqn:Ha; simpl.
  - intros [= <-]. apply String.eqb_eq in Ha. auto.
  - destruct (String.eqb s "rejected") eqn:Hr; [|discriminate].
    intros [= <-]. apply String.eqb_eq in Hr. auto.
Qed.

Lemma update_schema_terminal input st :
  st = accepted \/ st = rejected ->
  get_property input "status" = ReadValue (Some (JStr (status_text st))) ->
  TradeOfferUpdateSchema input = ParseSuccess (status_text st).
Proof.
  intros Hst Hprop. unfold TradeOfferUpdateSchema. rewrite Hprop.
  destruct Hst as [-> | ->]; reflexivity.
Qed.

Lemma update_schema_other input :
  (forall st, st = accepted \/ st = rejected ->
              get_property input "status" <> ReadValue (Some (JStr (status_text st)))) ->
  TradeOfferUpdateSchema input = ParseFailure (update_error_message input).
Proof.
  intros Hother. unfold TradeOfferUpdateSchema.
  destruct (get_property input "status") as [|[[]|]] eqn:Hprop; try reflexivity.
  destruct (String.eqb s "accepted") eqn:Ha.
  { apply String.eqb_eq in Ha. subst s. destruct (Hother accepted); auto. }
  destruct (String.eqb s "rejected") eqn:Hr; [|reflexivity].
  apply String.eqb_eq in Hr. subst s. destruct (Hother rejected); auto.
Qed.

(** [POST /offers] always answers: with an error that leaves the rows
    and the trace as they were, or with the stored offer after one INSERT
    and two publications. *)
Lemma post_offers_run req w :
  exists r w', run (post_offers req) w = (Returned r, w')
  /\ ((succeeded r = false /\ same_tables (db w) (db w') /\ trace w' = trace w)
      \/ (exists actor rq off g_r offer d' u_o u_r body1 body2,
            authenticate req = Some actor
            /\ games (db w) !! rq = Some g_r
            /\ insert_offer (db w) rq off actor (owner_id g_r) (clock w) = (SqlRows [offer], d')
            /\ users (db w) !! offerer_id offer = Some u_o
            /\ users (db w) !! recipient_id offer = Some u_r
            /\ r = jsonResponse 201 (formatTradeOfferResponse offer)
            /\ w' = publishEmailEvent
                      (publishEmailEvent (emit (set_db w d') (SqlInserted offer))
                         (user_email u_r) "You've received a trade offer!" body1)
                      (user_email u_o) "Your trade offer has been sent!" body2)).
Proof.
  unfold post_offers, requireAuth.
  destruct (authenticate req) as [actor|] eqn:Hauth; [|failed_response].
  rewrite run_try_catch. simpl.
  destruct (json_body req) as [input|]; simpl; [|failed_response].
  destruct (TradeOfferInputSchema input) as [[rq off]|msg]; simpl; [|failed_response].
  destruct (select_by_id_cases (games (db w)) rq) as [[_ ->]|(g_r & Hg_r & ->)];
    simpl; [failed_response|].
  destruct (select_by_id_cases (games (db w)) off) as [[_ ->]|(g_o & Hg_o & ->)];
    simpl; [failed_response|].
  destruct (owner_id g_o =? actor)%Z; simpl; [|failed_response].
  destruct (owner_id g_r =? actor)%Z; simpl; [failed_response|].
  destruct (insert_offer (db w) rq off actor (owner_id g_r) (clock w))
    as [[rows|reason] d'] eqn:Hins; simpl.
  2: { apply insert_offer_error in Hins. failed_response; apply Hins. }
  pose proof (insert_offer_rows _ _ _ _ _ _ _ _ Hins)
    as (-> & _ & _ & [u_o Hu_o] & [u_r Hu_r] & _ & Husers & _).
  simpl. rewrite Husers. unfold select_by_id at 1 2. simpl. rewrite Hu_o, Hu_r. simpl.
  destruct (template_renders (template_variables u_r u_o g_o g_r))
    as ([body1 ->] & [body2 ->] & _).
  simpl. eexists _, _. split; [reflexivity|]. right.
  eexists actor, rq, off, g_r, _, d', u_o, u_r, body1, body2.
  repeat split; eassumption.
Qed.

(** [PATCH /offers/:id] always answers: with an error that leaves the
    rows and the trace as they were, or with the updated offer after one
    UPDATE of a pending row and, when its users and games are found, two
    publications. *)
Lemma patch_offer_run req w :
  exists r w', run (patch_offer req) w = (Returned r, w')
  /\ ((succeeded r = false /\ same_tables (db w) (db w') /\ trace w' = trace w)
      \/ (exists actor offer input new_status st d',
            authenticate req = Some actor
            /\ trade_offers (db w) !! params_id req = Some offer
            /\ recipient_id offer = actor /\ status offer = pending
            /\ json_body req = Some input
            /\ TradeOfferUpdateSchema input = ParseSuccess new_status
            /\ status_of_text new_status = Some st
            /\ (st = accepted \/ st = rejected)
            /\ update_offer (db w) (params_id req) new_status (clock w)
               = (SqlRows [updated_row offer st (clock w)], d')
            /\ r = jsonResponse 200 (formatTradeOfferResponse (updated_row offer st (clock w)))
            /\ let w1 := emit (set_db w d') (SqlUpdated (updated_row offer st (clock w))) in
               (w' = w1
                /\ (users (db w) !! offerer_id offer = None
                    \/ users (db w) !! recipient_id offer = None
                    \/ games (db w) !! requested_game_id offer = None
                    \/ games (db w) !! offered_game_id offer = None))
               \/ (exists u_o u_r subject1 body1 subject2 body2,
                      users (db w) !! offerer_id offer = Some u_o
                      /\ users (db w) !! recipient_id offer = Some u_r
                      /\ w' = publishEmailEvent
                                (publishEmailEvent w1 (user_email u_o) subject1 body1)
                                (user_email u_r) subject2 body2))).
Proof.
  unfold patch_offer, requireAuth.
  destruct (authenticate req) as [actor|] eqn:Hauth; [|failed_response].
  rewrite run_try_catch. simpl.
  destruct (select_by_id_cases (trade_offers (db w)) (params_id req))
    as [[_ ->]|(offer & Hoffer & ->)]; simpl; [failed_response|].
  destruct (Z.eqb_spec (recipient_id offer) actor) as [Hrcp|]; simpl; [|failed_response].
  destruct (decide (status offer = pending)) as [Hpending|Hnot].
  2: { rewrite bool_decide_eq_false_2 by assumption. simpl. failed_response. }
  rewrite bool_decide_eq_true_2 by assumption. simpl.
  destruct (json_body req) as [input|] eqn:Hbody; simpl; [|failed_response].
  destruct (TradeOfferUpdateSchema input) as [new_status|msg] eqn:Hschema; simpl;
    [|failed_response].
  destruct (update_schema_success _ _ Hschema) as [_ Hterminal].
  assert (exists st, status_of_text new_status = Some st /\ (st = accepted \/ st = rejected))
    as (st & Hst & Hst').
  { destruct Hterminal as [-> | ->]; eexists; (split; [reflexivity|]); auto. }
  pose proof (update_offer_found (db w) _ _ (clock w) _ _ Hoffer Hst) as Hupd.
  rewrite Hupd. simpl.
  pose proof Hst' as Hedge.
  unfold select_by_id. simpl.
  destruct (users (db w) !! offerer_id offer) as [u_o|] eqn:Hu_o;
    destruct (users (db w) !! recipient_id offer) as [u_r|] eqn:Hu_r;
    destruct (games (db w) !! requested_game_id offer) as [g_r|] eqn:Hg_r;
    destruct (games (db w) !! offered_game_id offer) as [g_o|] eqn:Hg_o;
    destruct Hst' as [-> | ->]; simpl.
  all: try (destruct (template_renders (template_variables u_r u_o g_o g_r))
              as (_ & _ & [b1 Hb1] & [b2 Hb2] & [b3 Hb3] & [b4 Hb4]);
            rewrite ?Hb1, ?Hb2, ?Hb3, ?Hb4; simpl).
  all: eexists _, _; (split; [reflexivity|]); right.
  all: eexists actor, offer, input, new_status, _, _.
  all: do 9 (split; [first [eassumption | reflexivity]|]).
  all: split; [reflexivity|].
  all: cbv zeta.
  all: first [ left; split; [reflexivity | tauto]
             | right; eexists _, _, _, _, _, _;
               (split; [eassumption|]); (split; [eassumption|]); reflexivity ].
Qed.

(** The first steps of [PATCH /offers/:id], one lemma per answer. *)
Lemma patch_offer_not_found req w actor :
  authenticate req = Some actor ->
  trade_offers (db w) !! params_id req = None ->
  run (patch_offer req) w = (Returned (errorResponse 404 "Trade offer not found"), w).
Proof.
  intros Hauth Hoffer. unfold patch_offer, requireAuth. rewrite Hauth, run_try_catch. simpl.
  unfold select_by_id. rewrite Hoffer. reflexivity.
Qed.

Lemma patch_offer_not_recipient req w actor offer :
  authenticate req = Some actor ->
  trade_offers (db w) !! params_id req = Some offer ->
  recipient_id offer <> actor ->
  run (patch_offer req) w
  = (Returned (errorResponse 403 "Forbidden: Only the recipient can update this offer"), w).
Proof.
  intros Hauth Hoffer Hne. unfold patch_offer, requireAuth. rewrite Hauth, run_try_catch. simpl.
  unfold select_by_id. rewrite Hoffer. simpl.
  rewrite (proj2 (Z.eqb_neq _ _) Hne). reflexivity.
Qed.

Lemma patch_offer_not_pending req w actor offer :
  authenticate req = Some actor ->
  trade_offers (db w) !! params_id req = Some offer ->
  recipient_id offer = actor ->
  status offer <> pending ->
  run (patch_offer req) w
  = (Returned (errorResponse 400 "Only pending offers can be updated"), w).
Proof.
  intros Hauth Hoffer Hrcp Hnot. unfold patch_offer, requireAuth.
  rewrite Hauth, run_try_catch. simpl. unfold select_by_id. rewrite Hoffer. simpl.
  rewrite (proj2 (Z.eqb_eq _ _) Hrcp), bool_decide_eq_false_2 by assumption.
  reflexivity.
Qed.

Lemma patch_offer_invalid_status req w actor offer input :
  authenticate req = Some actor ->
  trade_offers (db w) !! params_id req = Some offer ->
  recipient_id offer = actor ->
  status offer = pending ->
  json_body req = Some input ->
  (forall st, st = accepted \/ st = rejected ->
              get_property input "status" <> ReadValue (Some (JStr (status_text st)))) ->
  run (patch_offer req) w = (Returned (errorResponse 400 (update_error_message input)), w).
Proof.
  intros Hauth Hoffer Hrcp Hpending Hbody Hother. unfold patch_offer, requireAuth.
  rewrite Hauth, run_try_catch. simpl. unfold select_by_id. rewrite Hoffer. simpl.
  rewrite (proj2 (Z.eqb_eq _ _) Hrcp), bool_decide_eq_true_2 by assumption. simpl.
  rewrite Hbody. simpl. rewrite (update_schema_other _ Hother). reflexivity.
Qed.

Lemma patch_offer_accepts req w actor offer input st :
  authenticate req = Some actor ->
  trade_offers (db w) !! params_id req = Some offer ->
  recipient_id offer = actor -> status offer = pending ->
  json_body req = Some input ->
  st = accepted \/ st = rejected ->
  get_property input "status" = ReadValue (Some (JStr (status_text st))) ->
  exists w',
    run (patch_offer req) w
    = (Returned (jsonResponse 200 (formatTradeOfferResponse (updated_row offer st (clock w)))), w')
    /\ trade_offers (db w')
       = <[params_id req := updated_row offer st (clock w)]> (trade_offers (db w))
    /\ users (db w') = users (db w) /\ games (db w') = games (db w)
    /\ trade_offers_id_seq (db w') = trade_offers_id_seq (db w).
Proof.
  intros Hauth Hoffer Hrcp Hpending Hbody Hst Hprop.
  unfold patch_offer, requireAuth.
  rewrite Hauth, run_try_catch. simpl. unfold select_by_id. rewrite Hoffer. simpl.
  rewrite (proj2 (Z.eqb_eq _ _) Hrcp), bool_decide_eq_true_2 by assumption. simpl.
  rewrite Hbody. simpl. rewrite (update_schema_terminal _ _ Hst Hprop). simpl.
  rewrite (update_offer_found _ _ _ (clock w) _ _ Hoffer (status_of_text_status_text st)).
  simpl. unfold select_by_id.
  destruct (users (db w) !! offerer_id offer) as [u_o|];
    destruct (users (db w) !! recipient_id offer) as [u_r|];
    destruct (games (db w) !! requested_game_id offer) as [g_r|];
    destruct (games (db w) !! offered_game_id offer) as [g_o|];
    destruct Hst as [-> | ->]; simpl.
  all: try (destruct (template_renders (template_variables u_r u_o g_o g_r))
              as (_ & _ & [b1 Hb1] & [b2 Hb2] & [b3 Hb3] & [b4 Hb4]);
            rewrite ?Hb1, ?Hb2, ?Hb3, ?Hb4; simpl).
  all: eexists; split; [reflexivity|]; repeat split.
Qed.

(** Either handler returns a response; the users and games are as
    before, and when the response is not a success so are the offers and
    the trace. *)
Lemma handler_run c w :
  exists r w', run (handler c) w = (Returned r, w')
    /\ users (db w') = users (db w) /\ games (db w') = games (db w)
    /\ (succeeded r = false -> trade_offers (db w') = trade_offers (db w) /\ trace w' = trace w).
Proof.
  destruct c as [req|req]; simpl.
  - destruct (post_offers_run req w) as (r & w' & Hrun & [(Hfailed & Hsame & Htrace) | Hok]).
    + exists r, w'. destruct Hsame as (? & ? & ? & ?). auto.
    + destruct Hok as (actor & rq & off & g_r & offer & d' & u_o & u_r & b1 & b2
                       & _ & _ & Hins & _ & _ & -> & ->).
      apply insert_offer_rows in Hins as (_ & _ & _ & _ & _ & _ & Hu & Hg & _).
      eexists _, _. split; [exact Hrun|]. split; [exact Hu|]. split; [exact Hg|].
      discriminate.
  - destruct (patch_offer_run req w) as (r & w' & Hrun & [(Hfailed & Hsame & Htrace) | Hok]).
    + exists r, w'. destruct Hsame as (? & ? & ? & ?). auto.
    + destruct Hok as (actor & offer & input & s & st & d' & _ & Hoffer & _ & _ & _ & _
                       & Hst & _ & Hupd & -> & Hw').
      rewrite (update_offer_found _ _ _ _ _ _ Hoffer Hst) in Hupd.
      injection Hupd as <-.
      eexists _, _. split; [exact Hrun|].
      cbv zeta in Hw'. destruct Hw' as [[-> _] | (? & ? & ? & ? & ? & ? & _ & _ & ->)];
        (split; [reflexivity|]); (split; [reflexivity|]); discriminate.
Qed.

(** What a call adds to the trace: nothing, one write, or one write
    followed by two publications and what the console logs of them. *)
Lemma handler_effects c w :
  let w' := (run (handler c) w).2 in
  new_effects w w' = []
  \/ (exists write, new_effects w w' = [write] /\ is_write write = true)
  \/ (exists write record1 logged1 record2 logged2,
        new_effects w w'
        = (write :: Published record1 :: logged1 ++ Published record2 :: logged2)%list
        /\ is_write write = true
        /\ Forall (fun e => is_write e = false /\ is_publish e = false) (logged1 ++ logged2)).
Proof.
  cbv zeta. destruct c as [req|req]; simpl.
  - destruct (post_offers_run req w) as (r & w' & -> & [(_ & _ & Htrace) | Hok]); simpl.
    { left. apply new_effects_same, Htrace. }
    destruct Hok as (actor & rq & off & g_r & offer & d' & u_o & u_r & b1 & b2
                     & _ & _ & _ & _ & _ & _ & Hw').
    apply write_then_two_publications in Hw'
      as (_ & record1 & record2 & l1 & l2 & Hnew & _ & _ & Hquiet).
    right. right. eexists _, _, _, _, _. split; [exact Hnew|]. split; [reflexivity|assumption].
  - destruct (patch_offer_run req w) as (r & w' & -> & [(_ & _ & Htrace) | Hok]); simpl.
    { left. apply new_effects_same, Htrace. }
    destruct Hok as (actor & offer & input & s & st & d' & _ & _ & _ & _ & _ & _
                     & _ & _ & _ & _ & Hw').
    cbv zeta in Hw'. destruct Hw' as [[-> _] | (u_o & u_r & s1 & b1 & s2 & b2 & _ & _ & Hw')].
    { right. left. eexists. split; [apply new_effects_app; reflexivity | reflexivity]. }
    apply write_then_two_publications in Hw'
      as (_ & record1 & record2 & l1 & l2 & Hnew & _ & _ & Hquiet).
    right. right. eexists _, _, _, _, _. split; [exact Hnew|]. split; [reflexivity|assumption].
Qed.


(** The two handlers keep the database consistent. *)
Lemma handler_preserves_consistency c w :
  db_consistent (db w) -> db_consistent (db (run (handler c) w).2).
Proof.
  intros Hd. destruct c as [req|req]; simpl.
  - destruct (post_offers_run req w) as (r & w' & -> & [(_ & Hsame & _) | Hok]); simpl.
    { eapply same_tables_consistent; eassumption. }
    destruct Hok as (actor & rq & off & g_r & offer & d' & u_o & u_r & b1 & b2
                     & _ & _ & Hins & _ & _ & _ & ->).
    apply insert_offer_rows in Hins
      as ([= ->] & Hg1 & Hg2 & Hu1 & Hu2 & _ & Hu & Hg & Ho & Hseq).
    change (db_consistent d'). destruct Hd as [Hgames Hoffers]. unfold db_consistent.
    rewrite Hu, Hg, Ho, Hseq. split; [exact Hgames|].
    apply map_Forall_insert_2.
    + simpl. repeat split; try assumption. lia.
    + intros k o Hk. destruct (Hoffers k o Hk) as (? & ? & ? & ? & ? & ?).
      repeat split; try assumption. lia.
  - destruct (patch_offer_run req w) as (r & w' & -> & [(_ & Hsame & _) | Hok]); simpl.
    { eapply same_tables_consistent; eassumption. }
    destruct Hok as (actor & offer & input & s & st & d' & _ & Hoffer & _ & _ & _ & _
                     & Hst & _ & Hupd & _ & Hw').
    rewrite (update_offer_found _ _ _ _ _ _ Hoffer Hst) in Hupd. injection Hupd as <-.
    assert (db w' = {| users := users (db w); games := games (db w);
                       trade_offers := <[params_id req := updated_row offer st (clock w)]>
                                         (trade_offers (db w));
                       trade_offers_id_seq := trade_offers_id_seq (db w) |}) as ->.
    { cbv zeta in Hw'. destruct Hw' as [[-> _] | (? & ? & ? & ? & ? & ? & _ & _ & ->)];
        reflexivity. }
    destruct Hd as [Hgames Hoffers]. split; [exact Hgames|]. simpl.
    apply map_Forall_insert_2; [|exact Hoffers].
    exact (Hoffers _ _ Hoffer).
Qed.

(** Consistency holds along every history of calls. *)
Lemma serve_all_consistent calls w :
  db_consistent (db w) -> db_consistent (db (serve_all calls w)).
Proof.
  revert w. induction calls as [|[now c] rest IH]; intros w Hd; simpl; [assumption|].
  apply IH. apply handler_preserves_consistency. exact Hd.
Qed.

(** C10. Each of the four offer routes first requires an authenticated
    actor: when the Authorization header is missing, does not start with
    [Bearer ] or carries a token that does not verify, the route answers
    401, which is none of 404, 403 and 400, and the world is as before: the
    store is unchanged and nothing is added to the trace, so no event is
    emitted. *)
Theorem unauthenticated_is_unauthorized (req : Request) (w : World) :
  authorization req = None
  \/ (exists authHeader, authorization req = Some authHeader
        /\ (String.prefix "Bearer " authHeader = false
            \/ jwt_verify (String.substring 7 (String.length authHeader - 7) authHeader) = None)) ->
  let unauthorized := errorResponse 401 "Unauthorized: Please login first" in
  Unauthorized unauthorized
  /\ ~ NotFound unauthorized /\ ~ Forbidden unauthorized /\ ~ BadRequest unauthorized
  /\ run (post_offers req) w = (Returned unauthorized, w)
  /\ run (patch_offer req) w = (Returned unauthorized, w)
  /\ run (get_offers req) w = (Returned unauthorized, w)
  /\ run (get_offer req) w = (Returned unauthorized, w).
Proof.
  intros Hauth%authenticate_None. cbv zeta.
  unfold post_offers, patch_offer, get_offers, get_offer, requireAuth.
  rewrite Hauth. repeat split; try reflexivity; unfold NotFound, Forbidden, BadRequest;
    simpl; discriminate.
Qed.

(** C5. [CreateOffer(actorId, requestedItemId, offeredItemId)], that is
    [POST /offers] by an authenticated actor with a body the input schema
    accepts: when the requested or the offered item does not exist the
    answer is 404 (NotFound); else when the offered item is not the
    actor's it is 403 (Forbidden); else when the requested item is the
    actor's it is 400 (InvalidRequest); else it is 201 and a new offer is
    stored with status pending, the actor as offerer and the owner of the
    requested item as recipient. *)
Theorem create_offer_decision (req : Request) (w : World) (actor : Z) (input : json)
    (requestedItemId offeredItemId : Z) :
  authenticate req = Some actor ->
  json_body req = Some input ->
  TradeOfferInputSchema input = ParseSuccess (requestedItemId, offeredItemId) ->
  db_consistent (db w) ->
  let result := run (post_offers req) w in
  match games (db w) !! requestedItemId, games (db w) !! offeredItemId with
  | None, _ =>
      result = (Returned (errorResponse 404 "Requested game not found"), w)
  | Some _, None =>
      result = (Returned (errorResponse 404 "Offered game not found"), w)
  | Some requested, Some offered =>
      if decide (owner_id offered <> actor)
      then result = (Returned (errorResponse 403 "Forbidden: You can only offer games you own"), w)
      else if decide (owner_id requested = actor)
      then result = (Returned (errorResponse 400 "Cannot create trade offer for your own game"), w)
      else
        let offer := {| id := trade_offers_id_seq (db w) + 1;
                        requested_game_id := requestedItemId;
                        offered_game_id := offeredItemId;
                        offerer_id := actor;
                        recipient_id := owner_id requested;
                        status := pending;
                        created_at := clock w;
                        updated_at := clock w |} in
        exists w',
          result = (Returned (jsonResponse 201 (formatTradeOfferResponse offer)), w')
          /\ trade_offers (db w) !! id offer = None
          /\ trade_offers (db w') = <[id offer := offer]> (trade_offers (db w))
  end.
Proof.
  intros Hauth Hbody Hschema Hd. cbv zeta.
  unfold post_offers, requireAuth. rewrite Hauth, run_try_catch. simpl.
  rewrite Hbody. simpl. rewrite Hschema. simpl. unfold select_by_id.
  destruct (games (db w) !! requestedItemId) as [g_r|] eqn:Hg_r; simpl; [|reflexivity].
  unfold select_by_id.
  destruct (games (db w) !! offeredItemId) as [g_o|] eqn:Hg_o; simpl; [|reflexivity].
  destruct (decide (owner_id g_o <> actor)) as [Hne|Hown].
  { apply Z.eqb_neq in Hne. rewrite Hne. reflexivity. }
  apply dec_stable in Hown. rewrite (proj2 (Z.eqb_eq _ _) Hown). simpl.
  destruct (decide (owner_id g_r = actor)) as [Hself|Hother].
  { rewrite (proj2 (Z.eqb_eq _ _) Hself). reflexivity. }
  rewrite (proj2 (Z.eqb_neq _ _) Hother). simpl.
  rewrite (insert_offer_consistent _ _ _ _ _ _ (clock w) Hd Hg_r Hg_o Hown). simpl.
  destruct (games_owner _ Hd _ _ Hg_r) as [u_r Hu_r].
  destruct (games_owner _ Hd _ _ Hg_o) as [u_o Hu_o]. rewrite Hown in Hu_o.
  unfold select_by_id. rewrite Hu_o, Hu_r. simpl.
  destruct (template_renders (template_variables u_r u_o g_o g_r))
    as ([body1 ->] & [body2 ->] & _).
  simpl. eexists. split; [reflexivity|]. split; [|reflexivity].
  destruct (trade_offers (db w) !! (trade_offers_id_seq (db w) + 1)) as [o|] eqn:Ho;
    [|reflexivity].
  apply (offers_seq _ Hd) in Ho. lia.
Qed.

(** C6. [UpdateStatus(actorId, offerId, newStatus)], that is
    [PATCH /offers/:id] by an authenticated actor: when the offer does
    not exist the answer is 404 (NotFound); else when the actor is not the
    stored recipient it is 403 (Forbidden); else when the status is not
    pending it is the 400 of InvalidState; else, for the body sent, when
    its status is neither accepted nor rejected it is the 400 of the
    schema (InvalidRequest), and when it is one of them the answer is 200
    and the stored offer has the new status and the clock's instant as
    [updated_at]. *)
Theorem update_status_decision (req : Request) (w : World) (actor : Z) :
  authenticate req = Some actor ->
  let result := run (patch_offer req) w in
  match trade_offers (db w) !! params_id req with
  | None => result = (Returned (errorResponse 404 "Trade offer not found"), w)
  | Some offer =>
      if decide (recipient_id offer <> actor)
      then result
           = (Returned (errorResponse 403 "Forbidden: Only the recipient can update this offer"), w)
      else if decide (status offer <> pending)
      then result = (Returned (errorResponse 400 "Only pending offers can be updated"), w)
           /\ InvalidState (errorResponse 400 "Only pending offers can be updated")
      else forall input, json_body req = Some input ->
        ((forall newStatus, newStatus = accepted \/ newStatus = rejected ->
            get_property input "status" <> ReadValue (Some (JStr (status_text newStatus)))) ->
         result = (Returned (errorResponse 400 (update_error_message input)), w))
        /\ (forall newStatus, newStatus = accepted \/ newStatus = rejected ->
            get_property input "status" = ReadValue (Some (JStr (status_text newStatus))) ->
            let updated := updated_row offer newStatus (clock w) in
            status updated = newStatus /\ updated_at updated = clock w
            /\ exists w',
                 result = (Returned (jsonResponse 200 (formatTradeOfferResponse updated)), w')
                 /\ trade_offers (db w') = <[params_id req := updated]> (trade_offers (db w)))
  end.
Proof.
  intros Hauth. cbv zeta.
  destruct (trade_offers (db w) !! params_id req) as [offer|] eqn:Hoffer;
    [|apply (patch_offer_not_found _ _ _ Hauth Hoffer)].
  destruct (decide (recipient_id offer <> actor)) as [Hne|Hrcp];
    [apply (patch_offer_not_recipient _ _ _ _ Hauth Hoffer Hne)|].
  apply dec_stable in Hrcp.
  destruct (decide (status offer <> pending)) as [Hnot|Hpending].
  { split; [apply (patch_offer_not_pending _ _ _ _ Hauth Hoffer Hrcp Hnot) | reflexivity]. }
  apply dec_stable in Hpending.
  intros input Hbody. split.
  - apply (patch_offer_invalid_status _ _ _ _ _ Hauth Hoffer Hrcp Hpending Hbody).
  - intros st Hst Hprop. split; [reflexivity|]. split; [reflexivity|].
    destruct (patch_offer_accepts req w actor offer input st) as (w' & Hrun & Hoffers & _);
      try assumption.
    exists w'. split; assumption.
Qed.

(** C7, as amended. Whenever CreateOffer or UpdateStatus answers with an
    error, the offers are as before and nothing is added to the trace, so
    no event is emitted. A self-trade CreateOffer (the requested item is
    the actor's) always fails, leaving the world as it was: with
    InvalidRequest when the offered item exists and is the actor's, with
    NotFound when it does not exist, with Forbidden when it is another
    user's. An UpdateStatus by a user who is not the recipient of the
    stored offer always fails Forbidden, leaving the world as it was. *)
Theorem failed_calls_leave_no_trace (req : Request) (w : World) (actor : Z) :
  authenticate req = Some actor ->
  (forall c r w', run (handler c) w = (Returned r, w') -> succeeded r = false ->
     trade_offers (db w') = trade_offers (db w)
     /\ trace w' = trace w /\ published (new_effects w w') = [])
  /\ (forall input requestedItemId offeredItemId requested,
        json_body req = Some input ->
        TradeOfferInputSchema input = ParseSuccess (requestedItemId, offeredItemId) ->
        games (db w) !! requestedItemId = Some requested ->
        owner_id requested = actor ->
        exists r, run (post_offers req) w = (Returned r, w)
          /\ succeeded r = false
          /\ match games (db w) !! offeredItemId with
             | None => r = errorResponse 404 "Offered game not found"
             | Some offered =>
                 if decide (owner_id offered = actor)
                 then r = errorResponse 400 "Cannot create trade offer for your own game"
                 else r = errorResponse 403 "Forbidden: You can only offer games you own"
             end)
  /\ (forall offer,
        trade_offers (db w) !! params_id req = Some offer ->
        recipient_id offer <> actor ->
        run (patch_offer req) w
        = (Returned (errorResponse 403 "Forbidden: Only the recipient can update this offer"), w)
        /\ Forbidden (errorResponse 403 "Forbidden: Only the recipient can update this offer")).
Proof.
  intros Hauth. split; [|split].
  - intros c r w' Hrun Hfailed.
    destruct (handler_run c w) as (r0 & w0 & Hrun0 & _ & _ & Hunchanged).
    rewrite Hrun in Hrun0. injection Hrun0 as <- <-.
    destruct (Hunchanged Hfailed) as [Hoffers Htrace].
    repeat split; try assumption. rewrite (new_effects_same _ _ Htrace). reflexivity.
  - intros input rq off g_r Hbody Hschema Hg_r Hself.
    unfold post_offers, requireAuth. rewrite Hauth, run_try_catch. simpl.
    rewrite Hbody. simpl. rewrite Hschema. simpl. unfold select_by_id. rewrite Hg_r. simpl.
    unfold select_by_id.
    destruct (games (db w) !! off) as [g_o|]; simpl; [|eexists; repeat split].
    destruct (decide (owner_id g_o = actor)) as [Hown|Hne].
    + rewrite (proj2 (Z.eqb_eq _ _) Hown), (proj2 (Z.eqb_eq _ _) Hself). simpl.
      eexists; repeat split.
    + rewrite (proj2 (Z.eqb_neq _ _) Hne). simpl. eexists; repeat split.
  - intros offer Hoffer Hne. split; [|reflexivity].
    apply (patch_offer_not_recipient _ _ _ _ Hauth Hoffer Hne).
Qed.

(** C4. In a consistent database, a CreateOffer that succeeds emits
    exactly two events, the first addressed to the recipient and the
    second to the offerer; an UpdateStatus that succeeds emits exactly
    two, the first addressed to the offerer and the second to the
    recipient; a call that fails emits none. *)
Theorem events_of_a_call (c : Call) (w : World) (r : Response) (w' : World) :
  db_consistent (db w) ->
  run (handler c) w = (Returned r, w') ->
  if succeeded r
  then exists offer u_o u_r e_o e_r,
         response_body r = OfferBody (formatTradeOfferResponse offer)
         /\ users (db w) !! offerer_id offer = Some u_o
         /\ users (db w) !! recipient_id offer = Some u_r
         /\ to e_o = user_email u_o /\ to e_r = user_email u_r
         /\ published (new_effects w w')
            = match c with
              | CreateOffer _ => [e_r; e_o]
              | UpdateStatus _ => [e_o; e_r]
              end
  else published (new_effects w w') = [].
Proof.
  intros Hd Hrun. destruct c as [req|req]; simpl in Hrun.
  - destruct (post_offers_run req w) as (r0 & w0 & Hrun0 & Hcases).
    rewrite Hrun in Hrun0. injection Hrun0 as <- <-.
    destruct Hcases as [(-> & _ & Htrace) | Hok].
    { rewrite (new_effects_same _ _ Htrace). reflexivity. }
    destruct Hok as (actor & rq & off & g_r & offer & d' & u_o & u_r & b1 & b2
                     & _ & _ & _ & Hu_o & Hu_r & -> & Hw').
    apply write_then_two_publications in Hw'
      as (_ & record1 & record2 & l1 & l2 & -> & Hto1 & Hto2 & Hquiet).
    rewrite published_write_two by (reflexivity || assumption).
    simpl. exists offer, u_o, u_r, (value record2), (value record1).
    repeat split; first [reflexivity | assumption].
  - destruct (patch_offer_run req w) as (r0 & w0 & Hrun0 & Hcases).
    rewrite Hrun in Hrun0. injection Hrun0 as <- <-.
    destruct Hcases as [(-> & _ & Htrace) | Hok].
    { rewrite (new_effects_same _ _ Htrace). reflexivity. }
    destruct Hok as (actor & offer & input & s & st & d' & _ & Hoffer & _ & _ & _ & _
                     & _ & _ & _ & -> & Hw').
    cbv zeta in Hw'.
    destruct Hw' as [[_ Hmissing] | (u_o & u_r & s1 & b1 & s2 & b2 & Hu_o & Hu_r & Hw')].
    { destruct (offers_refs _ Hd _ _ Hoffer) as ([? Hg1] & [? Hg2] & [? Hu1] & [? Hu2]).
      rewrite Hg1, Hg2, Hu1, Hu2 in Hmissing. intuition discriminate. }
    apply write_then_two_publications in Hw'
      as (_ & record1 & record2 & l1 & l2 & -> & Hto1 & Hto2 & Hquiet).
    rewrite published_write_two by (reflexivity || assumption).
    simpl. exists (updated_row offer st (clock w)), u_o, u_r, (value record1), (value record2).
    repeat split; first [reflexivity | assumption].
Qed.


(** C8. In every run of CreateOffer and UpdateStatus no write to the
    database comes after a publication, and when something is published
    the first effect of the run is the committed write. Whether the
    broker acknowledges the records or not changes neither the response,
    nor the database, nor the events handed to the producer. *)
Theorem commit_precedes_publication (c : Call) (w : World) (ack : ProducerRecord -> bool) :
  let (result, w') := run (handler c) w in
  let (result_ack, w_ack) := run (handler c) (with_broker w ack) in
  writes_before_publishes (new_effects w w') = true
  /\ (published (new_effects w w') <> [] ->
      exists write rest, new_effects w w' = write :: rest /\ is_write write = true)
  /\ result_ack = result
  /\ db w_ack = db w'
  /\ published (trace w_ack) = published (trace w').
Proof.
  pose proof (handler_effects c w) as Heffects.
  assert (Hsame : same_but_broker w (with_broker w ack)) by (repeat split).
  pose proof (run_same_but_broker (handler c) _ _ Hsame) as [Hresult (Hdb & _ & _ & _ & Htrace)].
  destruct (run (handler c) w) as [result w'].
  destruct (run (handler c) (with_broker w ack)) as [result_ack w_ack].
  simpl in *.
  split; [|split; [|split; [congruence|split; [congruence|]]]].
  - destruct Heffects
      as [-> | [(write & -> & Hwrite) | (write & r1 & l1 & r2 & l2 & -> & _ & Hquiet)]].
    + reflexivity.
    + simpl. destruct (is_publish write); reflexivity.
    + apply ordered_write_two, Hquiet.
  - intros Hsome.
    destruct Heffects
      as [Hnone | [(write & -> & Hwrite) | (write & r1 & l1 & r2 & l2 & -> & Hwrite & _)]].
    + rewrite Hnone in Hsome. contradiction.
    + eauto.
    + eauto.
  - rewrite <- (published_without_console (trace w_ack)), <- Htrace.
    apply published_without_console.
Qed.


End RouteProperties.

(* ===================================================================== *)
(** ** The routes on the small instance *)
(* ===================================================================== *)

(** A request without a header is answered 401 by the two routes that
    write, and the world stays as it is. *)
Lemma unauthenticated_is_unauthorized_witness :
  authorization (Sample.request None 1 None) = None
  /\ run (post_offers (H := Sample.externals) (Sample.request None 1 None))
       Sample.world_with_offer
     = (Returned (errorResponse 401 "Unauthorized: Please login first"),
        Sample.world_with_offer)
  /\ run (patch_offer (H := Sample.externals) (Sample.request None 1 None))
       Sample.world_with_offer
     = (Returned (errorResponse 401 "Unauthorized: Please login first"),
        Sample.world_with_offer).
Proof.
  split; [reflexivity|].
  pose proof (unauthenticated_is_unauthorized (H := Sample.externals)
                (Sample.request None 1 None) Sample.world_with_offer
                (or_introl eq_refl)) as Hroutes.
  cbv zeta in Hroutes. split; apply Hroutes.
Defined.

(** Alice offers her Zelda for Bob's Metroid: offer 1 is stored, pending,
    from Alice to Bob. *)
Lemma create_offer_decision_witness :
  db_consistent (db Sample.world)
  /\ exists w',
       run (post_offers (H := Sample.externals) Sample.alice_offers) Sample.world
       = (Returned (jsonResponse 201 (formatTradeOfferResponse Sample.first_offer)), w')
       /\ trade_offers (db Sample.world) !! 1 = None
       /\ trade_offers (db w') = <[1 := Sample.first_offer]> (trade_offers (db Sample.world)).
Proof.
  assert (Hd : db_consistent (db Sample.world))
    by (apply (bool_decide_unpack _); vm_compute; exact I).
  split; [exact Hd|].
  exact (create_offer_decision (H := Sample.externals) Sample.alice_offers Sample.world 1
           (JObj [("requestedGameId", JNum 2); ("offeredGameId", JNum 1)]) 2 1
           eq_refl eq_refl eq_refl Hd).
Defined.

(** Bob accepts offer 1. *)
Lemma update_status_decision_witness :
  authenticate (H := Sample.externals) Sample.bob_accepts = Some 2
  /\ exists w',
       run (patch_offer (H := Sample.externals) Sample.bob_accepts) Sample.world_with_offer
       = (Returned (jsonResponse 200 (formatTradeOfferResponse
                      (updated_row Sample.first_offer accepted
                         (clock Sample.world_with_offer)))), w')
       /\ trade_offers (db w')
          = <[1 := updated_row Sample.first_offer accepted (clock Sample.world_with_offer)]>
              (trade_offers (db Sample.world_with_offer)).
Proof.
  split; [reflexivity|].
  pose proof (update_status_decision (H := Sample.externals) Sample.bob_accepts
                Sample.world_with_offer 2 eq_refl
              : forall input, json_body Sample.bob_accepts = Some input -> _ /\ _) as Hdecision.
  destruct (Hdecision Sample.accepting eq_refl) as [_ Haccept].
  destruct (Haccept accepted (or_introl eq_refl) eq_refl) as (_ & _ & Hrun).
  exact Hrun.
Defined.

(** Carol, who is not the recipient of offer 1, is answered 403 and the
    world stays as it is. *)
Lemma failed_calls_leave_no_trace_witness :
  authenticate (H := Sample.externals) Sample.carol_accepts = Some 3
  /\ run (patch_offer (H := Sample.externals) Sample.carol_accepts) Sample.world_with_offer
     = (Returned (errorResponse 403 "Forbidden: Only the recipient can update this offer"),
        Sample.world_with_offer).
Proof.
  split; [reflexivity|].
  destruct (failed_calls_leave_no_trace (H := Sample.externals) Sample.carol_accepts
              Sample.world_with_offer 3 eq_refl) as (_ & _ & Hforbidden).
  apply (Hforbidden Sample.first_offer eq_refl). discriminate.
Defined.

(** C7 as stated fails: Alice asks for her own Zelda, a self-trade, and
    offers Bob's Metroid; the answer is Forbidden, not InvalidRequest. *)
Lemma self_trade_answered_forbidden :
  authenticate (H := Sample.externals) Sample.alice_self_trade = Some 1
  /\ owner_id <$> games (db Sample.world) !! 1 = Some 1
  /\ run (post_offers (H := Sample.externals) Sample.alice_self_trade) Sample.world
     = (Returned (errorResponse 403 "Forbidden: You can only offer games you own"),
        Sample.world)
  /\ ~ BadRequest (errorResponse 403 "Forbidden: You can only offer games you own").
Proof.
  split; [reflexivity|]. split; [reflexivity|]. split; [vm_compute; reflexivity|].
  unfold BadRequest. simpl. discriminate.
Qed.


(** Alice's offer emits two events: to Bob, then to Alice. *)
Lemma events_of_a_call_witness :
  db_consistent (db Sample.world)
  /\ exists e_r e_o,
       published (new_effects Sample.world Sample.world_with_offer) = [e_r; e_o]
       /\ to e_r = "bob@example.com" /\ to e_o = "alice@example.com".
Proof.
  assert (Hd : db_consistent (db Sample.world))
    by (apply (bool_decide_unpack _); vm_compute; exact I).
  split; [exact Hd|].
  assert (Hrun : run (handler (H := Sample.externals) (CreateOffer Sample.alice_offers))
                   Sample.world
                 = (Returned (jsonResponse 201 (formatTradeOfferResponse Sample.first_offer)),
                    Sample.world_with_offer)) by (vm_compute; reflexivity).
  pose proof (events_of_a_call (H := Sample.externals) (CreateOffer Sample.alice_offers)
                Sample.world _ _ Hd Hrun) as Hevents.
  change (succeeded (jsonResponse 201 (formatTradeOfferResponse Sample.first_offer))) with true
    in Hevents.
  destruct Hevents as (offer & u_o & u_r & e_o & e_r & Hbody & Hu_o & Hu_r & Hto_o & Hto_r & Hpub).
  assert (Hofferer : 1 = offerer_id offer) by (injection Hbody; intros; assumption).
  assert (Hrecipient : 2 = recipient_id offer) by (injection Hbody; intros; assumption).
  rewrite <- Hofferer in Hu_o. rewrite <- Hrecipient in Hu_r.
  change (Some Sample.alice = Some u_o) in Hu_o. change (Some Sample.bob = Some u_r) in Hu_r.
  injection Hu_o as <-. injection Hu_r as <-.
  exists e_r, e_o. split; [exact Hpub|]. split; assumption.
Defined.



(* ===================================================================== *)
(** ** The e-mail consumer *)
(* ===================================================================== *)

Section ConsumerProperties.

Context `{ConsumerRuntime}.


Lemma deliveries_app l1 l2 :
  deliveries (l1 ++ l2)%list = (deliveries l1 ++ deliveries l2)%list.
Proof. apply omap_app. Qed.




End ConsumerProperties.


(** An event of the publisher reaches the delivery channel once, as it
    is. *)
Lemma published_event_delivered_once :
  deliveries (processMessage (H := Sample.runtime)
                {| message_key := Some "bob@example.com";
                   message_value := Some "email.send to bob" |})
  = [{| mail_from := "noreply@videx.local";
        mail_to := JStr "bob@example.com";
        mail_subject := JStr "You've received a trade offer!";
        mail_text := JStr "New Trade Offer!" |}].
Proof. reflexivity. Qed.

(* ===================================================================== *)
(** ** Reading the offers *)
(* ===================================================================== *)








Section ReadingOffers.

Context `{Externals}.




(** X4. An offer that was written can be read back: after a CreateOffer
    or an UpdateStatus that succeeds in a consistent database,
    [GET /offers/:id] with the id of the response, by any authenticated
    user, answers 200 with the same body. *)
Theorem written_offer_can_be_read (c : Call) (w : World) (r : Response) (w' : World)
    (body : TradeOfferResponse) (reader : Request) (anyone : Z) :
  db_consistent (db w) ->
  run (handler c) w = (Returned r, w') ->
  succeeded r = true ->
  response_body r = OfferBody body ->
  authenticate reader = Some anyone ->
  params_id reader = r_id body ->
  run (get_offer reader) w' = (Returned (jsonResponse 200 body), w').
Proof.
  intros Hd Hrun Hok Hbody Hauth Hid.
  assert (exists offer, body = formatTradeOfferResponse offer
                        /\ trade_offers (db w') !! id offer = Some offer)
    as (offer & -> & Hstored).
  { destruct c as [req|req]; simpl in Hrun.
    - destruct (post_offers_run req w) as (r0 & w0 & Hrun0 & Hcases).
      rewrite Hrun in Hrun0. injection Hrun0 as <- <-.
      destruct Hcases as [(Hfailed & _) | Hcreated]; [congruence|].
      destruct Hcreated as (actor & rq & off & g_r & offer & d' & u_o & u_r & b1 & b2
                            & _ & _ & Hins & _ & _ & -> & ->).
      injection Hbody as <-. exists offer. split; [reflexivity|].
      apply insert_offer_rows in Hins as ([= ->] & _ & _ & _ & _ & _ & _ & _ & Hoffers & _).
      rewrite !db_publishEmailEvent. simpl. rewrite Hoffers. apply lookup_insert_eq.
    - destruct (patch_offer_run req w) as (r0 & w0 & Hrun0 & Hcases).
      rewrite Hrun in Hrun0. injection Hrun0 as <- <-.
      destruct Hcases as [(Hfailed & _) | Hupdated]; [congruence|].
      destruct Hupdated as (actor & offer & input & s & st & d' & _ & Hoffer & _ & _ & _ & _
                            & Hst & _ & Hupd & -> & Hw').
      injection Hbody as <-. exists (updated_row offer st (clock w)). split; [reflexivity|].
      rewrite (update_offer_found _ _ _ _ _ _ Hoffer Hst) in Hupd. injection Hupd as <-.
      destruct Hd as [_ Hoffers]. destruct (Hoffers _ _ Hoffer) as [Hkey _].
      simpl. rewrite Hkey.
      cbv zeta in Hw'. destruct Hw' as [[-> _] | (? & ? & ? & ? & ? & ? & _ & _ & ->)];
        simpl; apply lookup_insert_eq. }
  unfold get_offer, requireAuth. rewrite Hauth. simpl.
  unfold select_by_id. rewrite Hid.
  change (r_id (formatTradeOfferResponse offer)) with (id offer).
  rewrite Hstored. reflexivity.
Qed.

(** An id that is not stored is answered 404. *)
Lemma unknown_offer_not_found (reader : Request) (w : World) (anyone : Z) :
  authenticate reader = Some anyone ->
  trade_offers (db w) !! params_id reader = None ->
  run (get_offer reader) w = (Returned (errorResponse 404 "Trade offer not found"), w).
Proof.
  intros Hauth Hnone. unfold get_offer, requireAuth. rewrite Hauth. simpl.
  unfold select_by_id. rewrite Hnone. reflexivity.
Qed.

End ReadingOffers.

(* ===================================================================== *)
(** ** Authentication *)
(* ===================================================================== *)

Lemma prefix_split (p s : string) :
  String.prefix p s = true -> exists rest, s = p +:+ rest.
Proof.
  revert s. induction p as [|c p IH]; intros s.
  - intros _. exists s. reflexivity.
  - destruct s as [|c' s]; simpl; [discriminate|].
    destruct (Ascii.ascii_dec c c') as [<-|]; [|discriminate].
    intros Hp. destruct (IH s Hp) as [rest ->]. exists rest. reflexivity.
Qed.

Lemma prefix_append (p rest : string) : String.prefix p (p +:+ rest) = true.
Proof.
  induction p as [|c p IH]; [destruct rest; reflexivity|].
  change (String c p +:+ rest) with (String c (p +:+ rest)). simpl.
  destruct (Ascii.ascii_dec c c); [exact IH | contradiction].
Qed.

Lemma substring_whole (s : string) : String.substring 0 (String.length s) s = s.
Proof. induction s as [|c s IH]; simpl; [reflexivity | rewrite IH; reflexivity]. Qed.

Lemma substring_after (p rest : string) :
  String.substring (String.length p) (String.length (p +:+ rest) - String.length p)
    (p +:+ rest) = rest.
Proof.
  induction p as [|c p IH].
  - change (EmptyString +:+ rest) with rest. simpl. rewrite Nat.sub_0_r. apply substring_whole.
  - change (String c p +:+ rest) with (String c (p +:+ rest)). simpl. exact IH.
Qed.

Section Authentication.

Context `{Externals}.

(** X5. A request is authenticated as a user exactly when its
    Authorization header is [Bearer ], then a token that verifies for
    that user: the token handed to [jwt.verify] is the header without
    these seven characters. *)
Theorem authenticate_bearer (req : Request) (userId : Z) :
  authenticate req = Some userId
  <-> exists token,
        authorization req = Some ("Bearer " +:+ token) /\ jwt_verify token = Some userId.
Proof.
  unfold authenticate. split.
  - destruct (authorization req) as [h|]; [|discriminate].
    destruct (String.eqb h EmptyString); [discriminate|]. simpl.
    destruct (String.prefix "Bearer " h) eqn:Hprefix; [|discriminate]. simpl.
    destruct (prefix_split _ _ Hprefix) as [token ->].
    change 7%nat with (String.length "Bearer ").
    rewrite substring_after. eauto.
  - intros (token & -> & Hverify).
    change (String.eqb ("Bearer " +:+ token) EmptyString) with false.
    rewrite prefix_append. simpl negb. cbn [orb].
    change 7%nat with (String.length "Bearer ").
    rewrite substring_after. exact Hverify.
Qed.

End Authentication.

(* ===================================================================== *)
(** ** The records handed to the producer *)
(* ===================================================================== *)

Lemma publication_wire_format w to_ subject_ body_ r :
  Published r ∈ publication w to_ subject_ body_ -> wire_format (clock w) r.
Proof.
  unfold publication. intros Hin. apply elem_of_cons in Hin. destruct Hin as [Heq | Hin].
  - injection Heq as ->. repeat split.
  - destruct (broker_ack _ _); [apply elem_of_nil in Hin; contradiction|].
    apply list_elem_of_singleton in Hin. discriminate.
Qed.

(** What one operation adds to the trace, and what it leaves. *)
Lemma perform_trace {X : Type} (op : Op X) w :
  exists added,
    trace (perform op w).2 = (trace w ++ added)%list
    /\ clock (perform op w).2 = clock w
    /\ random (perform op w).2 = random w
    /\ (forall r, Published r ∈ added -> wire_format (clock w) r)
    /\ exists n, drawn (perform op w).2 = (drawn w + n)%nat
         /\ generated_ids added
            = map (fun i => pretty (clock w) +:+ "-" +:+ random w i) (seq (drawn w) n).
Proof.
  assert (Hquiet : exists added,
            trace w = (trace w ++ added)%list /\ clock w = clock w /\ random w = random w
            /\ (forall r, Published r ∈ added -> wire_format (clock w) r)
            /\ exists n, drawn w = (drawn w + n)%nat
                 /\ generated_ids added
                    = map (fun i => pretty (clock w) +:+ "-" +:+ random w i) (seq (drawn w) n)).
  { exists []. rewrite app_nil_r. do 3 (split; [reflexivity|]).
    split; [intros record Hin; apply elem_of_nil in Hin; contradiction|].
    exists 0%nat. split; [lia | reflexivity]. }
  destruct op
    as [gameId | userId | offerId | statusParam offererIdParam recipientIdParam | requestedGameId offeredGameId offererId recipientId now | offerId new_status now | req | | to_ subject_ body_];
    simpl; try exact Hquiet.
  - destruct (insert_offer _ _ _ _ _ _) as [[[|row rows]|reason] d']; simpl; try exact Hquiet.
    exists [SqlInserted row]. do 3 (split; [reflexivity|]). split.
    + intros record Hin. apply list_elem_of_singleton in Hin. discriminate.
    + exists 0%nat. split; [lia | reflexivity].
  - destruct (update_offer _ _ _ _) as [[[|row rows]|reason] d']; simpl; try exact Hquiet.
    exists [SqlUpdated row]. do 3 (split; [reflexivity|]). split.
    + intros record Hin. apply list_elem_of_singleton in Hin. discriminate.
    + exists 0%nat. split; [lia | reflexivity].
  - exists (publication w to_ subject_ body_). do 3 (split; [reflexivity|]). split.
    + apply publication_wire_format.
    + exists 2%nat. split; [reflexivity|].
      unfold publication. destruct (broker_ack _ _);
        cbn [generated_ids producer_record value event_id correlation_id map seq];
        unfold generateEventId; rewrite Nat.add_0_r, Nat.add_1_r; reflexivity.
Qed.

Lemma generated_ids_app l1 l2 :
  generated_ids (l1 ++ l2) = (generated_ids l1 ++ generated_ids l2)%list.
Proof.
  induction l1 as [|e l1 IH]; [reflexivity|].
  destruct e; simpl; rewrite IH; reflexivity.
Qed.

(** What a run adds to the trace: the clock and the random source stay,
    every record is in the wire format, and the ids are the successive
    draws. *)
Lemma run_trace {R : Type} (t : Task R) w :
  exists added n,
    trace (run t w).2 = (trace w ++ added)%list
    /\ clock (run t w).2 = clock w
    /\ random (run t w).2 = random w
    /\ (forall r, Published r ∈ added -> wire_format (clock w) r)
    /\ drawn (run t w).2 = (drawn w + n)%nat
    /\ generated_ids added
       = map (fun i => pretty (clock w) +:+ "-" +:+ random w i) (seq (drawn w) n).
Proof.
  revert w. induction t as [r | e | X op k IH]; intros w; simpl.
  1, 2: exists [], 0%nat; rewrite app_nil_r;
        do 3 (split; [reflexivity|]); split; [|split; [lia|reflexivity]];
        intros record Hin; apply elem_of_nil in Hin; contradiction.
  destruct (perform_trace op w)
    as (added1 & Htrace1 & Hclock1 & Hrandom1 & Hwire1 & n1 & Hdrawn1 & Hids1).
  destruct (perform op w) as [x w1]. simpl in *.
  destruct (IH x w1) as (added2 & n2 & Htrace2 & Hclock2 & Hrandom2 & Hwire2 & Hdrawn2 & Hids2).
  exists (added1 ++ added2)%list, (n1 + n2)%nat.
  split; [rewrite Htrace2, Htrace1, app_assoc; reflexivity|].
  split; [congruence|]. split; [congruence|]. split; [|split].
  - intros record Hin. apply elem_of_app in Hin as [Hin | Hin]; [auto|].
    rewrite <- Hclock1. auto.
  - lia.
  - rewrite generated_ids_app, Hids1, Hids2, seq_app, map_app.
    rewrite Hclock1, Hrandom1, Hdrawn1. reflexivity.
Qed.




(* ===================================================================== *)
(** ** From the producer to the mail *)
(* ===================================================================== *)

Section ConsumerOrder.

Context `{ConsumerRuntime}.

Lemma sendEmail_mail to_ subject_ body_ :
  exists mail,
    deliveries (sendEmail to_ subject_ body_).1 = [mail]
    /\ mail_contents mail = (to_, subject_, body_)
    /\ mail_from mail <> ""
    /\ (forall address, EMAIL_FROM_ADDRESS = Some address -> address <> "" ->
        mail_from mail = address).
Proof.
  unfold sendEmail. cbv zeta.
  match goal with
  | |- context [sendMail_resolves ?m] => exists m; destruct (sendMail_resolves m)
  end.
  all: split; [reflexivity|]; split; [reflexivity|]; simpl.
  all: destruct EMAIL_FROM_ADDRESS as [address|]; [|split; [discriminate|discriminate]].
  all: destruct (String.eqb_spec address "") as [->|Hne];
       (split; [first [discriminate | assumption]|]); intros a [= <-] Ha; congruence.
Qed.

Lemma processMessage_mail message :
  match deliverable message with
  | Some contents =>
      exists mail,
        deliveries (processMessage message) = [mail]
        /\ mail_contents mail = contents
        /\ mail_from mail <> ""
        /\ (forall address, EMAIL_FROM_ADDRESS = Some address -> address <> "" ->
            mail_from mail = address)
  | None => deliveries (processMessage message) = []
  end.
Proof.
  unfold processMessage, deliverable.
  destruct (message_value message) as [text|]; [|reflexivity].
  destruct (JSON_parse text) as [event|]; [|reflexivity].
  destruct event as [| | | | |fields]; try reflexivity.
  unfold process_event, get_property.
  destruct (assoc_last "to" fields) as [to_|];
    destruct (assoc_last "subject" fields) as [subject_|];
    destruct (assoc_last "body" fields) as [body_|]; try reflexivity.
  destruct (is_email_send (assoc_last "type" fields) && truthy (Some to_)
            && truthy (Some subject_) && truthy (Some body_)); [|reflexivity].
  destruct (sendEmail_mail to_ subject_ body_) as (mail & Hmail & Hrest).
  exists mail. split; [|exact Hrest].
  destruct (sendEmail to_ subject_ body_) as [effects returned]. simpl in Hmail.
  destruct returned; [exact Hmail|].
  change (deliveries ((Console LevelLog "Processing event:" (assoc_last "type" fields)
                       :: effects) ++ [error_processing])%list = [mail]).
  rewrite deliveries_app. simpl. rewrite Hmail. reflexivity.
Qed.

(** X8. The consumer handles the messages of the topic one by one and in
    their order: the mails it hands to the transport are, in order, those
    of the deliverable messages, each with the contents of its event. A
    message that is dropped, or whose delivery fails, does not stop the
    messages after it, and a message received twice is mailed twice. The
    sender is never empty: it is [EMAIL_FROM_ADDRESS] when that is set to
    a non-empty text. *)
Theorem consumer_mails_in_order (messages : list KafkaMessage) :
  map mail_contents (deliveries (consume messages)) = omap deliverable messages
  /\ Forall (fun mail =>
               mail_from mail <> ""
               /\ forall address, EMAIL_FROM_ADDRESS = Some address -> address <> "" ->
                                  mail_from mail = address)
            (deliveries (consume messages)).
Proof.
  unfold consume. induction messages as [|m messages [IHmap IHfrom]]; [split; constructor|].
  simpl. rewrite deliveries_app, map_app.
  pose proof (processMessage_mail m) as Hm.
  destruct (deliverable m) as [contents|].
  - destruct Hm as (mail & -> & Hcontents & Hfrom). simpl. rewrite Hcontents, IHmap.
    split; [reflexivity|]. constructor; assumption.
  - rewrite Hm. simpl. split; assumption.
Qed.

Lemma carries_object parsed event :
  carries parsed event ->
  exists fields,
    parsed = JObj fields
    /\ assoc_last "type" fields = Some (JStr (type event))
    /\ assoc_last "to" fields = Some (JStr (to event))
    /\ assoc_last "subject" fields = Some (JStr (subject event))
    /\ assoc_last "body" fields = Some (JStr (body event)).
Proof.
  intros (Htype & Hto & Hsubject & Hbody).
  destruct parsed as [| | | | |fields]; try discriminate.
  exists fields. simpl in *. repeat split; congruence.
Qed.

(** X9. An event a handler publishes, once the broker hands it to the
    consumer: when its [to], [subject] and [body] are not empty it is
    mailed once, to the event's addressee, with the event's subject and
    body; when one of them is empty the guard of the consumer drops it,
    with a warning and no mail. *)
Theorem published_event_is_mailed {R : Type} (t : Task R) (w : World)
    (r : ProducerRecord) (text : string) (parsed : json) :
  Published r ∈ new_effects w (run t w).2 ->
  JSON_parse text = Some parsed ->
  carries parsed (value r) ->
  let effects := processMessage (message_of r text) in
  (to (value r) <> "" /\ subject (value r) <> "" /\ body (value r) <> "" ->
   exists mail,
     deliveries effects = [mail]
     /\ mail_contents mail
        = (JStr (to (value r)), JStr (subject (value r)), JStr (body (value r))))
  /\ (to (value r) = "" \/ subject (value r) = "" \/ body (value r) = "" ->
      effects = [Console LevelLog "Processing event:" (Some (JStr "email.send"));
                 Console LevelWarn "Received unknown or malformed event:"
                   (Some (JStr "email.send"))]).
Proof.
  intros Hin Hparse Hcarries. cbv zeta.
  destruct (run_trace t w) as (added & n & Htrace & _ & _ & Hwire & _).
  rewrite (new_effects_app _ _ _ Htrace) in Hin.
  destruct (Hwire _ Hin) as (_ & _ & Htype & _).
  destruct (carries_object _ _ Hcarries) as (fields & -> & Hty & Hto & Hsubject & Hbody).
  rewrite Htype in Hty. split.
  - intros (Hto_ne & Hsubject_ne & Hbody_ne).
    pose proof (processMessage_mail (message_of r text)) as Hmail.
    unfold deliverable in Hmail. simpl in Hmail.
    rewrite Hparse, Hto, Hsubject, Hbody, Hty in Hmail. simpl in Hmail.
    apply String.eqb_neq in Hto_ne, Hsubject_ne, Hbody_ne.
    rewrite Hto_ne, Hsubject_ne, Hbody_ne in Hmail. simpl in Hmail.
    destruct Hmail as (mail & Hmail & Hcontents & _). exists mail. split; assumption.
  - intros Hempty. unfold processMessage. simpl. rewrite Hparse.
    unfold process_event, get_property. rewrite Hty, Hto, Hsubject, Hbody. simpl.
    destruct Hempty as [-> | [-> | ->]]; simpl;
      rewrite ?andb_false_r; reflexivity.
Qed.

End ConsumerOrder.

(* ===================================================================== *)
(** ** The templates and the objects they are applied to *)
(* ===================================================================== *)

Transparent EmailTemplates.offerReceivedTemplate EmailTemplates.offerCreatedConfirmationTemplate
  EmailTemplates.offerAcceptedTemplate EmailTemplates.offerAcceptedRecipientTemplate
  EmailTemplates.offerRejectedTemplate EmailTemplates.offerRejectedRecipientTemplate.

Ltac template_program :=
  unfold renders_with, Handlebars_compile; compute_parse;
  eexists _, _; split; [|split; [intros ctx; reflexivity|]];
  [discriminate|];
  match goal with
  | |- Forall _ ?names => let v := eval vm_compute in names in change names with v
  end;
  repeat (apply Forall_cons; split; [intros; vm_compute; eexists; reflexivity|]);
  constructor.

Lemma offer_templates_render_with :
  Forall (renders_with
            (fun name => forall recipient_ offerer_ offeredGame requestedGame,
                 is_Some (template_variables recipient_ offerer_ offeredGame requestedGame
                            !! name)))
         [EmailTemplates.offerReceivedTemplate;
          EmailTemplates.offerCreatedConfirmationTemplate;
          EmailTemplates.offerAcceptedTemplate;
          EmailTemplates.offerAcceptedRecipientTemplate;
          EmailTemplates.offerRejectedTemplate;
          EmailTemplates.offerRejectedRecipientTemplate].
Proof.
  repeat (apply Forall_cons; split; [|]); [..|constructor].
  - unfold EmailTemplates.offerReceivedTemplate. template_program.
  - unfold EmailTemplates.offerCreatedConfirmationTemplate. template_program.
  - unfold EmailTemplates.offerAcceptedTemplate. template_program.
  - unfold EmailTemplates.offerAcceptedRecipientTemplate. template_program.
  - unfold EmailTemplates.offerRejectedTemplate. template_program.
  - unfold EmailTemplates.offerRejectedRecipientTemplate. template_program.
Qed.

Opaque EmailTemplates.offerReceivedTemplate EmailTemplates.offerCreatedConfirmationTemplate
  EmailTemplates.offerAcceptedTemplate EmailTemplates.offerAcceptedRecipientTemplate
  EmailTemplates.offerRejectedTemplate EmailTemplates.offerRejectedRecipientTemplate.

Lemma account_templates_render_with :
  Forall (renders_with (fun name => forall user, is_Some (account_variables user !! name)))
         [AccountTemplates.userWelcomeTemplate; AccountTemplates.passwordChangedTemplate].
Proof.
  repeat (apply Forall_cons; split; [|]); [..|constructor].
  - unfold AccountTemplates.userWelcomeTemplate. template_program.
  - unfold AccountTemplates.passwordChangedTemplate. template_program.
Qed.

Opaque AccountTemplates.userWelcomeTemplate AccountTemplates.passwordChangedTemplate.

(** X10. Every template is applied to an object that has all the
    variables it mentions: each of the six offer templates renders, for
    every object, a program that opens with its title and whose
    placeholders are all properties of the object the offer routes build,
    and the two account templates likewise with [{ name, email }]. No
    placeholder of a mail is left without its value. *)
Theorem templates_find_their_variables :
  Forall (renders_with
            (fun name => forall recipient_ offerer_ offeredGame requestedGame,
                 is_Some (template_variables recipient_ offerer_ offeredGame requestedGame
                            !! name)))
         [EmailTemplates.offerReceivedTemplate;
          EmailTemplates.offerCreatedConfirmationTemplate;
          EmailTemplates.offerAcceptedTemplate;
          EmailTemplates.offerAcceptedRecipientTemplate;
          EmailTemplates.offerRejectedTemplate;
          EmailTemplates.offerRejectedRecipientTemplate]
  /\ Forall (renders_with (fun name => forall user, is_Some (account_variables user !! name)))
            [AccountTemplates.userWelcomeTemplate; AccountTemplates.passwordChangedTemplate].
Proof. split; [exact offer_templates_render_with | exact account_templates_render_with]. Qed.

(* ===================================================================== *)
(** ** What the offer routes publish and insert *)
(* ===================================================================== *)

Lemma renders_with_not_empty bound template ctx body_ :
  renders_with bound template -> template ctx = Some body_ -> body_ <> "".
Proof.
  intros (title & rest & Htitle & Hrender & _). rewrite Hrender. intros [= <-].
  destruct title as [|c title]; [congruence|].
  change (String c (title +:+ render rest ctx) <> ""). discriminate.
Qed.

Lemma offer_bodies_not_empty ctx body_ :
  EmailTemplates.offerReceivedTemplate ctx = Some body_
  \/ EmailTemplates.offerCreatedConfirmationTemplate ctx = Some body_
  \/ EmailTemplates.offerAcceptedTemplate ctx = Some body_
  \/ EmailTemplates.offerAcceptedRecipientTemplate ctx = Some body_
  \/ EmailTemplates.offerRejectedTemplate ctx = Some body_
  \/ EmailTemplates.offerRejectedRecipientTemplate ctx = Some body_ ->
  body_ <> "".
Proof.
  pose proof offer_templates_render_with as Hall.
  repeat (apply Forall_cons in Hall; destruct Hall as [? Hall]).
  intros [?|[?|[?|[?|[?|?]]]]];
    match goal with
    | Ht : ?T ctx = Some body_, Hr : renders_with _ ?T |- _ =>
        exact (renders_with_not_empty _ _ _ _ Hr Ht)
    end.
Qed.

Lemma try_catch_performs_only {R : Type} P (t : Task R) (h : string -> Task R) :
  performs_only P t -> (forall e, performs_only P (h e)) ->
  performs_only P (try_catch t h).
Proof.
  intros Ht Hh. induction t as [r | e | X op k IH]; simpl; [exact I | apply Hh |].
  destruct Ht as [Hop Hk]. split; [exact Hop|]. intros x. apply IH, Hk.
Qed.

Lemma publish_rendered_performs_only {R : Type} (P : forall X : Type, Op X -> Prop)
    to_ subject_ rendered (k : Task R) :
  (forall body_, rendered = Some body_ -> P unit (PublishEmailEvent to_ subject_ body_)) ->
  performs_only P k ->
  performs_only P (publish_rendered to_ subject_ rendered k).
Proof.
  intros Hbody Hk. unfold publish_rendered. destruct rendered as [body_|]; [|exact I].
  simpl. split; [apply Hbody; reflexivity|]. intros _. exact Hk.
Qed.

Lemma run_publishing {R : Type} P (t : Task R) :
  performs_only (publishing P) t ->
  forall w, Forall (event_satisfies P) (new_effects w (run t w).2).
Proof.
  intros Ht w.
  enough (exists added, trace (run t w).2 = (trace w ++ added)%list
                        /\ Forall (event_satisfies P) added) as (added & Htrace & Hall).
  { rewrite (new_effects_app _ _ _ Htrace). exact Hall. }
  revert w. induction t as [r | e | X op k IH]; intros w; simpl.
  1, 2: exists []; rewrite app_nil_r; split; [reflexivity | constructor].
  destruct Ht as [Hop Hk].
  assert (exists added, trace (perform op w).2 = (trace w ++ added)%list
                        /\ Forall (event_satisfies P) added) as (added1 & Htrace1 & Hall1).
  { assert (Hquiet : exists added, trace w = (trace w ++ added)%list
                                   /\ Forall (event_satisfies P) added).
    { exists []. rewrite app_nil_r. split; [reflexivity | constructor]. }
    clear IH Hk. destruct op
    as [gameId | userId | offerId | statusParam offererIdParam recipientIdParam | requestedGameId offeredGameId offererId recipientId now | offerId new_status now | req | | to_ subject_ body_];
    simpl; try exact Hquiet.
    - destruct (insert_offer _ _ _ _ _ _) as [[[|row rows]|reason] d']; simpl;
        try exact Hquiet.
      exists [SqlInserted row]. split; [reflexivity|]. repeat constructor.
    - destruct (update_offer _ _ _ _) as [[[|row rows]|reason] d']; simpl;
        try exact Hquiet.
      exists [SqlUpdated row]. split; [reflexivity|]. repeat constructor.
    - exists (publication w to_ subject_ body_). split; [reflexivity|].
      unfold publication. constructor; [exact Hop|].
      destruct (broker_ack _ _); repeat constructor. }
  destruct (perform op w) as [x w1]. simpl in *.
  destruct (IH x (Hk x) w1) as (added2 & Htrace2 & Hall2).
  exists (added1 ++ added2)%list. split.
  - rewrite Htrace2, Htrace1, app_assoc. reflexivity.
  - apply Forall_app. split; assumption.
Qed.

(** Walks through a handler, operation by operation and branch by
    branch; [solve_op] proves what is asked of an operation. *)
Ltac walk_task solve_op :=
  repeat match goal with
         | |- performs_only _ (Return _) => exact I
         | |- performs_only _ (Throw _) => exact I
         | |- performs_only _ (Perform _ _) => cbn [performs_only publishing inserting]
         | |- True /\ _ => split; [exact I|]
         | |- _ /\ forall _, performs_only _ _ => split; [solve [solve_op]|]
         | |- forall _, _ => intros ?
         | |- performs_only _ (publish_rendered _ _ _ _) =>
             apply publish_rendered_performs_only; [intros ? ?; solve [solve_op]|]
         | |- performs_only _ (match ?x with _ => _ end) => destruct x eqn:?
         | |- performs_only _ (if ?b then _ else _) => destruct b eqn:?
         | |- performs_only _ (let _ := _ in _) => cbv zeta
         end.

Section OfferEvents.

Context `{Externals}.

Lemma handler_publishing (c : Call) :
  performs_only (publishing (fun _ subject_ body_ => subject_ <> "" /\ body_ <> ""))
                (handler c).
Proof.
  destruct c as [req | req]; unfold handler, post_offers, patch_offer.
  - destruct (requireAuth req); [exact I|].
    apply try_catch_performs_only; [|intros e; exact I].
    walk_task ltac:(split; [discriminate | eapply offer_bodies_not_empty; eauto 10]).
  - destruct (requireAuth req); [exact I|].
    apply try_catch_performs_only; [|intros e; exact I]. cbv zeta.
    walk_task ltac:(split; [discriminate | eapply offer_bodies_not_empty; eauto 10]).
Qed.

(** X11. Every event CreateOffer and UpdateStatus publish has a subject
    and a body that are not empty: the subject is one of the literals of
    the routes and the body is a rendered template, which opens with its
    title. The guard of the consumer ([event.to && event.subject &&
    event.body]) can thus stop an offer event only for an empty
    address. *)
Theorem offer_events_have_subject_and_body (c : Call) (w : World) :
  Forall (event_satisfies (fun _ subject_ body_ => subject_ <> "" /\ body_ <> ""))
         (new_effects w (run (handler c) w).2).
Proof. apply run_publishing, handler_publishing. Qed.

Lemma handler_inserting (c : Call) :
  performs_only (inserting (fun offererId recipientId => offererId <> recipientId))
                (handler c).
Proof.
  destruct c as [req | req]; unfold handler, post_offers, patch_offer.
  - destruct (requireAuth req) as [|actor]; [exact I|].
    apply try_catch_performs_only; [|intros e; exact I].
    walk_task ltac:(first [exact I
                          | intros Heq; subst; rewrite Z.eqb_refl in *; discriminate]).
  - destruct (requireAuth req); [exact I|].
    apply try_catch_performs_only; [|intros e; exact I]. cbv zeta.
    walk_task ltac:(exact I).
Qed.

End OfferEvents.

(* ===================================================================== *)
(** ** Handlers in flight together *)
(* ===================================================================== *)

Lemma same_offer_refl o : same_offer o o.
Proof. repeat split. Qed.

Lemma same_offer_trans o1 o2 o3 : same_offer o1 o2 -> same_offer o2 o3 -> same_offer o1 o3.
Proof. unfold same_offer. intuition congruence. Qed.

Lemma later_world_refl w : later_world w w.
Proof.
  unfold later_world. do 2 (split; [reflexivity|]). split; [|split; [lia|split; [reflexivity|]]].
  - intros k o Hk. exists o. split; [exact Hk | apply same_offer_refl].
  - exists []. rewrite app_nil_r. reflexivity.
Qed.

Lemma later_world_trans w1 w2 w3 :
  later_world w1 w2 -> later_world w2 w3 -> later_world w1 w3.
Proof.
  intros (Hu1 & Hg1 & Ho1 & Hs1 & Hc1 & added1 & Ht1) (Hu2 & Hg2 & Ho2 & Hs2 & Hc2 & added2 & Ht2).
  unfold later_world. split; [congruence|]. split; [congruence|].
  split; [|split; [lia|split; [congruence|]]].
  - intros k o Hk. destruct (Ho1 k o Hk) as (o' & Hk' & Hsame).
    destruct (Ho2 k o' Hk') as (o'' & Hk'' & Hsame'). exists o''.
    split; [exact Hk''|]. eapply same_offer_trans; eassumption.
  - exists (added1 ++ added2)%list. rewrite Ht2, Ht1, app_assoc. reflexivity.
Qed.

Lemma db_committed {A : Type} w (result : SqlResult A) d (effect : A -> Effect) :
  db (committed w (result, d) effect).2 = d
  /\ clock (committed w (result, d) effect).2 = clock w
  /\ exists added, trace (committed w (result, d) effect).2 = (trace w ++ added)%list.
Proof.
  destruct result as [[|row rows]|reason]; simpl; repeat split;
    first [exists []; rewrite app_nil_r; reflexivity | eexists; reflexivity].
Qed.

(** One operation leaves the world a later world, and a consistent
    database consistent. *)
Lemma perform_later {X : Type} (op : Op X) w :
  later_world w (perform op w).2
  /\ (db_consistent (db w) -> db_consistent (db (perform op w).2)).
Proof.
  pose proof (later_world_refl w) as Hrefl.
  destruct op
    as [gameId | userId | offerId | statusParam offererIdParam recipientIdParam | requestedGameId offeredGameId offererId recipientId now | offerId new_status now | req | | to_ subject_ body_];
    simpl; try (split; [exact Hrefl | auto]).
  - (* INSERT *)
    destruct (insert_offer (db w) requestedGameId offeredGameId offererId recipientId now)
      as [result d'] eqn:Hins.
    destruct (db_committed w result d' SqlInserted) as (Hdb & Hclock & Htrace).
    unfold later_world. rewrite Hdb, Hclock.
    destruct result as [rows|reason].
    + apply insert_offer_rows in Hins
        as (-> & Hg1 & Hg2 & Hu1 & Hu2 & Hfree & Hu & Hg & Ho & Hseq).
      split.
      * rewrite Hu, Hg, Ho, Hseq. do 2 (split; [reflexivity|]).
        split; [|split; [lia|split; [reflexivity | exact Htrace]]].
        intros k o Hk. exists o. split; [|apply same_offer_refl].
        rewrite lookup_insert_ne; [exact Hk|]. intros <-. congruence.
      * intros [Hgames Hoffers]. unfold db_consistent. rewrite Hu, Hg, Ho, Hseq.
        split; [exact Hgames|]. apply map_Forall_insert_2.
        -- simpl. repeat split; try assumption. lia.
        -- intros k o Hk. destruct (Hoffers k o Hk) as (? & ? & ? & ? & ? & ?).
           repeat split; try assumption. lia.
    + apply insert_offer_error in Hins. destruct Hins as (Hu & Hg & Ho & Hseq).
      split.
      * rewrite Hu, Hg, Ho. do 2 (split; [reflexivity|]).
        split; [|split; [lia|split; [reflexivity | exact Htrace]]].
        intros k o Hk. exists o. split; [exact Hk | apply same_offer_refl].
      * apply same_tables_consistent. repeat split; assumption.
  - (* UPDATE *)
    destruct (update_offer (db w) offerId new_status now) as [result d'] eqn:Hupd.
    destruct (db_committed w result d' SqlUpdated) as (Hdb & Hclock & Htrace).
    unfold later_world. rewrite Hdb, Hclock.
    unfold update_offer in Hupd.
    destruct (trade_offers (db w) !! offerId) as [o|] eqn:Ho.
    2: { injection Hupd as <- <-. split; [|auto].
         do 2 (split; [reflexivity|]).
         split; [|split; [lia|split; [reflexivity | exact Htrace]]].
         intros k o Hk. exists o. split; [exact Hk | apply same_offer_refl]. }
    destruct (status_of_text new_status) as [st|].
    2: { injection Hupd as <- <-. split; [|auto].
         do 2 (split; [reflexivity|]).
         split; [|split; [lia|split; [reflexivity | exact Htrace]]].
         intros k o' Hk. exists o'. split; [exact Hk | apply same_offer_refl]. }
    injection Hupd as <- <-. simpl. split.
    + do 2 (split; [reflexivity|]).
      split; [|split; [lia|split; [reflexivity | exact Htrace]]].
      intros k o' Hk. destruct (decide (k = offerId)) as [->|Hne].
      * exists (updated_row o st now). rewrite lookup_insert_eq. split; [reflexivity|].
        assert (o' = o) as -> by congruence. repeat split.
      * exists o'. rewrite lookup_insert_ne by congruence.
        split; [exact Hk | apply same_offer_refl].
    + intros [Hgames Hoffers]. split; [exact Hgames|]. simpl.
      apply map_Forall_insert_2; [|exact Hoffers].
      destruct (Hoffers _ _ Ho) as (? & ? & ? & ? & ? & ?). simpl. repeat split; assumption.
  - (* publishEmailEvent *)
    split; [|auto]. unfold later_world. simpl. do 2 (split; [reflexivity|]).
    split; [|split; [lia|split; [reflexivity | eexists; reflexivity]]].
    intros k o Hk. exists o. split; [exact Hk | apply same_offer_refl].
Qed.

Lemma run_sync_later {R : Type} (t : Task R) w :
  later_world w (run_sync t w).2
  /\ (db_consistent (db w) -> db_consistent (db (run_sync t w).2)).
Proof.
  revert w. induction t as [r | e | X op k IH]; intros w; simpl;
    try (split; [apply later_world_refl | auto]).
  destruct (synchronous op); [|split; [apply later_world_refl | auto]].
  destruct (perform_later op w) as [Hlater Hd].
  destruct (perform op w) as [x w1]. simpl in *.
  destruct (IH x w1) as [Hlater' Hd'].
  split; [eapply later_world_trans; eassumption | auto].
Qed.

Lemma resume_later {R : Type} (t : Task R) w :
  later_world w (resume t w).2
  /\ (db_consistent (db w) -> db_consistent (db (resume t w).2)).
Proof.
  destruct t as [r | e | X op k]; simpl; try (split; [apply later_world_refl | auto]).
  destruct (perform_later op w) as [Hlater Hd].
  destruct (perform op w) as [x w1]. simpl in *.
  destruct (run_sync_later (k x) w1) as [Hlater' Hd'].
  split; [eapply later_world_trans; eassumption | auto].
Qed.

(** X12. Whatever two handlers are in flight and however the event loop
    takes turns between them, the world only moves forward: the users and
    the games are untouched, no offer is deleted, an offer keeps its id,
    its games, its offerer, its recipient and its creation time (only the
    status and [updated_at] can change), the sequence of ids never goes
    back, and the trace only grows. The referential integrity of the
    database survives every interleaving. *)
Theorem interleaving_keeps_integrity {R : Type} (schedule : list bool) (t1 t2 : Task R)
    (w : World) :
  later_world w (event_loop schedule t1 t2 w).2
  /\ (db_consistent (db w) -> db_consistent (db (event_loop schedule t1 t2 w).2)).
Proof.
  revert t1 t2 w. induction schedule as [|turn rest IH]; intros t1 t2 w; simpl.
  { split; [apply later_world_refl | auto]. }
  destruct turn.
  - destruct (resume_later t1 w) as [Hlater Hd].
    destruct (resume t1 w) as [t1' w1]. simpl in *.
    destruct (IH t1' t2 w1) as [Hlater' Hd'].
    split; [eapply later_world_trans; eassumption | auto].
  - destruct (resume_later t2 w) as [Hlater Hd].
    destruct (resume t2 w) as [t2' w1]. simpl in *.
    destruct (IH t1 t2' w1) as [Hlater' Hd'].
    split; [eapply later_world_trans; eassumption | auto].
Qed.

(* ===================================================================== *)
(** ** Ids and bodies *)
(* ===================================================================== *)

Section IdsAndBodies.

Context `{Externals}.

(** X13. The id of a created offer is new: after a CreateOffer that
    succeeds in a consistent database, the id of the response is the next
    value of the sequence, it is greater than the id of every offer that
    was stored, nothing was stored under it, and the table has one row
    more, the rows that were stored being as they were. *)
Theorem created_offer_id_is_new (req : Request) (w w' : World) (r : Response)
    (body_ : TradeOfferResponse) :
  db_consistent (db w) ->
  run (post_offers req) w = (Returned r, w') ->
  succeeded r = true ->
  response_body r = OfferBody body_ ->
  r_id body_ = (trade_offers_id_seq (db w) + 1)%Z
  /\ trade_offers_id_seq (db w') = r_id body_
  /\ trade_offers (db w) !! r_id body_ = None
  /\ (forall k, is_Some (trade_offers (db w) !! k) -> (k < r_id body_)%Z)
  /\ (forall k o, trade_offers (db w) !! k = Some o -> trade_offers (db w') !! k = Some o)
  /\ size (trade_offers (db w')) = S (size (trade_offers (db w))).
Proof.
  intros Hd Hrun Hok Hbody.
  destruct (post_offers_run req w) as (r0 & w0 & Hrun0 & Hcases).
  rewrite Hrun in Hrun0. injection Hrun0 as <- <-.
  destruct Hcases as [(Hfailed & _) | Hcreated]; [congruence|].
  destruct Hcreated as (actor & rq & off & g_r & offer & d' & u_o & u_r & b1 & b2
                        & _ & _ & Hins & _ & _ & -> & ->).
  injection Hbody as <-.
  apply insert_offer_rows in Hins as ([= ->] & _ & _ & _ & _ & Hfree & _ & _ & Hoffers & Hseq).
  rewrite !db_publishEmailEvent.
  change (db (emit (set_db w d') _)) with d'. rewrite Hoffers, Hseq.
  change (r_id (formatTradeOfferResponse _)) with (trade_offers_id_seq (db w) + 1)%Z.
  split; [reflexivity|]. split; [reflexivity|]. split; [exact Hfree|].
  destruct Hd as [_ Hstored]. split; [|split].
  - intros k [o Hk]. destruct (Hstored k o Hk) as (_ & _ & _ & _ & _ & Hle). lia.
  - intros k o Hk. rewrite lookup_insert_ne; [exact Hk|]. intros <-. congruence.
  - rewrite map_size_insert_None by exact Hfree. reflexivity.
Qed.

(** X14. A body that is not JSON is answered 400 [Invalid input], by the
    [catch] of the route, and nothing is written or published: CreateOffer
    reads the body first; UpdateStatus reads it only after the offer was
    found, the actor is its recipient and the offer is pending. *)
Theorem unreadable_body_is_invalid_input (req : Request) (w : World) (actor : Z) :
  authenticate req = Some actor ->
  json_body req = None ->
  run (post_offers req) w = (Returned (errorResponse 400 "Invalid input"), w)
  /\ forall offer,
       trade_offers (db w) !! params_id req = Some offer ->
       recipient_id offer = actor ->
       status offer = pending ->
       run (patch_offer req) w = (Returned (errorResponse 400 "Invalid input"), w).
Proof.
  intros Hauth Hbody. split.
  - unfold post_offers, requireAuth. rewrite Hauth, run_try_catch. simpl.
    rewrite Hbody. reflexivity.
  - intros offer Hoffer Hrecipient Hstatus.
    unfold patch_offer, requireAuth. rewrite Hauth, run_try_catch. simpl.
    unfold select_by_id. rewrite Hoffer. simpl.
    rewrite Hrecipient, Z.eqb_refl, Hstatus. simpl. rewrite Hbody. reflexivity.
Qed.

End IdsAndBodies.

(* ===================================================================== *)
(** ** Deleting games and users *)
(* ===================================================================== *)

Lemma delete_from_games_offers d gameId k o :
  trade_offers (delete_from_games d gameId) !! k = Some o
  <-> trade_offers d !! k = Some o
      /\ requested_game_id o <> gameId /\ offered_game_id o <> gameId.
Proof. unfold delete_from_games. simpl. apply map_lookup_filter_Some. Qed.

Lemma delete_from_games_consistent d gameId :
  db_consistent d -> db_consistent (delete_from_games d gameId).
Proof.
  intros [Hgames Hoffers]. split.
  - intros k g Hk. simpl in Hk. apply lookup_delete_Some in Hk as [_ Hk].
    exact (Hgames k g Hk).
  - intros k o Hk. apply delete_from_games_offers in Hk as (Hk & Hrequested & Hoffered).
    destruct (Hoffers k o Hk) as (? & [g1 Hg1] & [g2 Hg2] & ? & ? & ?). simpl.
    repeat split; try assumption.
    + exists g1. apply lookup_delete_Some. split; [congruence | exact Hg1].
    + exists g2. apply lookup_delete_Some. split; [congruence | exact Hg2].
Qed.

Lemma delete_from_users_offers d userId k o :
  trade_offers (delete_from_users d userId) !! k = Some o
  <-> trade_offers d !! k = Some o
      /\ offerer_id o <> userId /\ recipient_id o <> userId
      /\ owned_by d userId (requested_game_id o) = false
      /\ owned_by d userId (offered_game_id o) = false.
Proof. unfold delete_from_users. simpl. apply map_lookup_filter_Some. Qed.

Lemma delete_from_users_games d userId k g :
  games (delete_from_users d userId) !! k = Some g
  <-> games d !! k = Some g /\ owner_id g <> userId.
Proof. unfold delete_from_users. simpl. apply map_lookup_filter_Some. Qed.

Lemma not_owned_by d userId gameId g :
  games d !! gameId = Some g -> owned_by d userId gameId = false -> owner_id g <> userId.
Proof. unfold owned_by. intros ->. apply Z.eqb_neq. Qed.

Lemma delete_from_users_consistent d userId :
  db_consistent d -> db_consistent (delete_from_users d userId).
Proof.
  intros [Hgames Hoffers]. split.
  - intros k g Hk. apply delete_from_users_games in Hk as [Hk Howner].
    destruct (Hgames k g Hk) as [Hid [u Hu]]. split; [exact Hid|].
    exists u. simpl. apply lookup_delete_Some. split; [congruence | exact Hu].
  - intros k o Hk.
    apply delete_from_users_offers in Hk as (Hk & Hofferer & Hrecipient & Hreq & Hoff).
    destruct (Hoffers k o Hk) as (? & [g1 Hg1] & [g2 Hg2] & [u1 Hu1] & [u2 Hu2] & ?).
    split; [assumption|]. split; [|split; [|split; [|split; [|assumption]]]].
    + exists g1. apply delete_from_users_games. split; [exact Hg1|].
      eapply not_owned_by; eassumption.
    + exists g2. apply delete_from_users_games. split; [exact Hg2|].
      eapply not_owned_by; eassumption.
    + exists u1. simpl. apply lookup_delete_Some. split; [congruence | exact Hu1].
    + exists u2. simpl. apply lookup_delete_Some. split; [congruence | exact Hu2].
Qed.

Section DeleteProperties.

Context `{Externals}.

(** X15. [DELETE /games/:id] removes a game only for its owner, and with
    it exactly the offers that request or offer it; everything else is as
    it was, nothing is published, and the referential integrity of the
    database is kept. Any other answer (401, 404 for an unknown game,
    403 for a game of someone else) leaves the world as it was. *)
Theorem delete_game_cascades (req : Request) (w w' : World) (reply : Reply) :
  delete_game req w = (reply, w') ->
  match reply with
  | NoContent =>
      (exists game, games (db w) !! params_id req = Some game
                    /\ authenticate req = Some (owner_id game))
      /\ users (db w') = users (db w)
      /\ games (db w') = delete (params_id req) (games (db w))
      /\ (forall k o, trade_offers (db w') !! k = Some o
                      <-> trade_offers (db w) !! k = Some o
                          /\ requested_game_id o <> params_id req
                          /\ offered_game_id o <> params_id req)
      /\ trace w' = trace w
      /\ (db_consistent (db w) -> db_consistent (db w'))
  | Answered response =>
      w' = w
      /\ (response = errorResponse 401 "Unauthorized: Please login first"
          /\ authenticate req = None
          \/ response = errorResponse 404 "Game not found"
             /\ games (db w) !! params_id req = None
          \/ response = errorResponse 403 "Forbidden: You can only delete your own games"
             /\ exists game actor, games (db w) !! params_id req = Some game
                                   /\ authenticate req = Some actor
                                   /\ owner_id game <> actor)
  end.
Proof.
  unfold delete_game, requireAuth. cbv zeta.
  destruct (authenticate req) as [actor|] eqn:Hauth.
  2: { intros [= <- <-]. split; [reflexivity|]. left. split; reflexivity. }
  destruct (select_by_id_cases (games (db w)) (params_id req)) as [[Hnone ->]|(g & Hg & ->)].
  { intros [= <- <-]. split; [reflexivity|]. right. left. split; [reflexivity | exact Hnone]. }
  destruct (Z.eqb_spec (owner_id g) actor) as [Howner|Howner]; simpl.
  - intros [= <- <-]. split; [exists g; split; [exact Hg | congruence]|].
    do 2 (split; [reflexivity|]). split; [apply delete_from_games_offers|].
    split; [reflexivity|]. apply delete_from_games_consistent.
  - intros [= <- <-]. split; [reflexivity|]. right. right. split; [reflexivity|].
    exists g, actor. auto.
Qed.

(** X16. [DELETE /users/:id] removes a user only on the user's own
    request (another id is refused with 403 before it is looked up), and
    with the user exactly the user's games, the offers the user made or
    received and the offers about one of these games; the other users,
    games and offers are as they were, nothing is published, and the
    referential integrity of the database is kept. *)
Theorem delete_user_cascades (req : Request) (w w' : World) (reply : Reply) :
  delete_user req w = (reply, w') ->
  match reply with
  | NoContent =>
      authenticate req = Some (params_id req)
      /\ is_Some (users (db w) !! params_id req)
      /\ users (db w') = delete (params_id req) (users (db w))
      /\ (forall k g, games (db w') !! k = Some g
                      <-> games (db w) !! k = Some g /\ owner_id g <> params_id req)
      /\ (forall k o, trade_offers (db w') !! k = Some o
                      <-> trade_offers (db w) !! k = Some o
                          /\ offerer_id o <> params_id req
                          /\ recipient_id o <> params_id req
                          /\ owned_by (db w) (params_id req) (requested_game_id o) = false
                          /\ owned_by (db w) (params_id req) (offered_game_id o) = false)
      /\ trace w' = trace w
      /\ (db_consistent (db w) -> db_consistent (db w'))
  | Answered response =>
      w' = w
      /\ (response = errorResponse 401 "Unauthorized: Please login first"
          /\ authenticate req = None
          \/ response = errorResponse 403 "Forbidden: You can only delete your own profile"
             /\ (exists actor, authenticate req = Some actor /\ params_id req <> actor)
          \/ response = errorResponse 404 "User not found"
             /\ authenticate req = Some (params_id req)
             /\ users (db w) !! params_id req = None)
  end.
Proof.
  unfold delete_user, requireAuth. cbv zeta.
  destruct (authenticate req) as [actor|] eqn:Hauth.
  2: { intros [= <- <-]. split; [reflexivity|]. left. split; reflexivity. }
  destruct (Z.eqb_spec (params_id req) actor) as [Hself|Hother]; simpl.
  2: { intros [= <- <-]. split; [reflexivity|]. right. left. split; [reflexivity|].
       exists actor. auto. }
  destruct (select_by_id_cases (users (db w)) (params_id req)) as [[Hnone ->]|(u & Hu & ->)].
  { intros [= <- <-]. split; [reflexivity|]. right. right.
    split; [reflexivity|]. split; [congruence | exact Hnone]. }
  intros [= <- <-]. split; [congruence|]. split; [exists u; exact Hu|].
  split; [reflexivity|]. split; [apply delete_from_users_games|].
  split; [apply delete_from_users_offers|]. split; [reflexivity|].
  apply delete_from_users_consistent.
Qed.

(** X17. A game that was deleted takes its offers out of reach: after a
    [DELETE /games/:id] that answered 204, an offer that requested or
    offered the game is answered 404 both to a read and to an
    UpdateStatus, by whoever asks, and the world stays as it is; its
    recipient can no longer accept it. *)
Theorem deleted_game_withdraws_offers (req : Request) (w w' : World)
    (k : Z) (o : TradeOffer) (later : Request) (anyone : Z) :
  delete_game req w = (NoContent, w') ->
  trade_offers (db w) !! k = Some o ->
  requested_game_id o = params_id req \/ offered_game_id o = params_id req ->
  authenticate later = Some anyone ->
  params_id later = k ->
  run (get_offer later) w' = (Returned (errorResponse 404 "Trade offer not found"), w')
  /\ run (patch_offer later) w' = (Returned (errorResponse 404 "Trade offer not found"), w').
Proof.
  intros Hdelete Hstored Hrefers Hauth Hid.
  assert (trade_offers (db w') !! params_id later = None) as Hgone.
  { unfold delete_game, requireAuth in Hdelete. cbv zeta in Hdelete.
    destruct (authenticate req) as [actor|]; [|discriminate].
    destruct (select_by_id (games (db w)) (params_id req)) as [|g rest]; [discriminate|].
    destruct (negb (owner_id g =? actor)%Z); [discriminate|].
    injection Hdelete as <-. simpl. rewrite Hid.
    apply eq_None_not_Some. intros [o' Ho'].
    apply (map_lookup_filter_Some _ (trade_offers (db w))) in Ho' as [Ho' [Hr Hf]].
    simpl in Hr, Hf. assert (o' = o) as -> by congruence. tauto. }
  split.
  - unfold get_offer, requireAuth. rewrite Hauth. simpl.
    unfold select_by_id. rewrite Hgone. reflexivity.
  - unfold patch_offer, requireAuth. rewrite Hauth, run_try_catch. simpl.
    unfold select_by_id. rewrite Hgone. reflexivity.
Qed.

End DeleteProperties.

(* ===================================================================== *)
(** ** Sessions *)
(* ===================================================================== *)

Lemma bearer_header_token (req : Request) (token : string) :
  authorization req = Some ("Bearer " +:+ token) ->
  forall sessions,
    Sessions.authenticate sessions req = sessions !! token
    /\ Sessions.logout sessions req = delete token sessions.
Proof.
  intros Hheader sessions. unfold Sessions.authenticate, Sessions.logout. rewrite Hheader.
  change (String.eqb ("Bearer " +:+ token) EmptyString) with false.
  rewrite prefix_append. simpl negb. cbn [orb andb].
  change 7%nat with (String.length "Bearer ").
  rewrite substring_after. split; reflexivity.
Qed.

(** X18. The life of a session in the earlier version of the service: a
    login stores the token, and a request that carries it as bearer is
    authenticated as the user; a logout with that header ends the session,
    so the same header is not authenticated any more, while the session
    of every other token is as it was; a logout without a bearer header
    changes nothing. *)
Theorem session_life_cycle (sessions : Sessions.Store) (req : Request) (token : string)
    (userId : Z) :
  authorization req = Some ("Bearer " +:+ token) ->
  Sessions.authenticate (Sessions.login_session sessions token userId) req = Some userId
  /\ Sessions.authenticate
       (Sessions.logout (Sessions.login_session sessions token userId) req) req = None
  /\ (forall other token',
        authorization other = Some ("Bearer " +:+ token') -> token' <> token ->
        Sessions.authenticate (Sessions.logout sessions req) other
        = Sessions.authenticate sessions other)
  /\ (forall anonymous, authorization anonymous = None ->
        Sessions.logout sessions anonymous = sessions
        /\ Sessions.authenticate sessions anonymous = None).
Proof.
  intros Hheader. pose proof (bearer_header_token req token Hheader) as Hreq.
  split; [|split; [|split]].
  - rewrite (proj1 (Hreq _)). apply lookup_insert_eq.
  - rewrite (proj1 (Hreq _)), (proj2 (Hreq _)). apply lookup_delete_eq.
  - intros other token' Hother Hne.
    rewrite (proj2 (Hreq _)), !(proj1 (bearer_header_token other token' Hother _)).
    apply lookup_delete_ne. congruence.
  - intros anonymous Hnone. unfold Sessions.logout, Sessions.authenticate.
    rewrite Hnone. split; reflexivity.
Qed.

(* ===================================================================== *)
(** ** No offer to oneself *)
(* ===================================================================== *)

Lemma perform_no_self_offer {X : Type} (op : Op X) w :
  inserting (fun offererId recipientId => offererId <> recipientId) X op ->
  no_self_offer (db w) -> no_self_offer (db (perform op w).2).
Proof.
  intros Hop Hd. destruct op
    as [gameId | userId | offerId | statusParam offererIdParam recipientIdParam | requestedGameId offeredGameId offererId recipientId now | offerId new_status now | req | | to_ subject_ body_];
    simpl; try exact Hd.
  - destruct (insert_offer (db w) requestedGameId offeredGameId offererId recipientId now)
      as [result d'] eqn:Hins.
    rewrite (proj1 (db_committed w result d' SqlInserted)).
    destruct result as [rows|reason].
    + apply insert_offer_rows in Hins as (_ & _ & _ & _ & _ & _ & _ & _ & Ho & _).
      unfold no_self_offer. rewrite Ho. apply map_Forall_insert_2; [exact Hop | exact Hd].
    + apply insert_offer_error in Hins as (_ & _ & Ho & _).
      unfold no_self_offer. rewrite Ho. exact Hd.
  - destruct (update_offer (db w) offerId new_status now) as [result d'] eqn:Hupd.
    rewrite (proj1 (db_committed w result d' SqlUpdated)).
    unfold update_offer in Hupd.
    destruct (trade_offers (db w) !! offerId) as [o|] eqn:Ho;
      [|injection Hupd as <- <-; exact Hd].
    destruct (status_of_text new_status) as [st|]; [|injection Hupd as <- <-; exact Hd].
    injection Hupd as <- <-. unfold no_self_offer. simpl.
    apply map_Forall_insert_2; [|exact Hd]. exact (Hd _ _ Ho).
Qed.

Lemma run_no_self_offer {R : Type} (t : Task R) w :
  performs_only (inserting (fun offererId recipientId => offererId <> recipientId)) t ->
  no_self_offer (db w) -> no_self_offer (db (run t w).2).
Proof.
  revert w. induction t as [r | e | X op k IH]; intros w Ht Hd; simpl; try exact Hd.
  destruct Ht as [Hop Hk]. pose proof (perform_no_self_offer op w Hop Hd) as Hd1.
  destruct (perform op w) as [x w1]. apply IH; [apply Hk | exact Hd1].
Qed.

Lemma run_sync_no_self_offer {R : Type} (t : Task R) w :
  performs_only (inserting (fun offererId recipientId => offererId <> recipientId)) t ->
  no_self_offer (db w) ->
  performs_only (inserting (fun offererId recipientId => offererId <> recipientId))
    (run_sync t w).1
  /\ no_self_offer (db (run_sync t w).2).
Proof.
  revert w. induction t as [r | e | X op k IH]; intros w Ht Hd; simpl; try (split; assumption).
  destruct (synchronous op); [|split; assumption].
  destruct Ht as [Hop Hk]. pose proof (perform_no_self_offer op w Hop Hd) as Hd1.
  destruct (perform op w) as [x w1]. apply IH; [apply Hk | exact Hd1].
Qed.

Lemma resume_no_self_offer {R : Type} (t : Task R) w :
  performs_only (inserting (fun offererId recipientId => offererId <> recipientId)) t ->
  no_self_offer (db w) ->
  performs_only (inserting (fun offererId recipientId => offererId <> recipientId))
    (resume t w).1
  /\ no_self_offer (db (resume t w).2).
Proof.
  intros Ht Hd. destruct t as [r | e | X op k]; simpl; try (split; assumption).
  destruct Ht as [Hop Hk]. pose proof (perform_no_self_offer op w Hop Hd) as Hd1.
  destruct (perform op w) as [x w1]. apply run_sync_no_self_offer; [apply Hk | exact Hd1].
Qed.

Lemma event_loop_no_self_offer {R : Type} (schedule : list bool) (t1 t2 : Task R) w :
  performs_only (inserting (fun offererId recipientId => offererId <> recipientId)) t1 ->
  performs_only (inserting (fun offererId recipientId => offererId <> recipientId)) t2 ->
  no_self_offer (db w) -> no_self_offer (db (event_loop schedule t1 t2 w).2).
Proof.
  revert t1 t2 w. induction schedule as [|turn rest IH]; intros t1 t2 w Ht1 Ht2 Hd; simpl;
    [exact Hd|].
  destruct turn.
  - destruct (resume_no_self_offer t1 w Ht1 Hd) as [Ht1' Hd'].
    destruct (resume t1 w) as [t1' w1]. apply IH; assumption.
  - destruct (resume_no_self_offer t2 w Ht2 Hd) as [Ht2' Hd'].
    destruct (resume t2 w) as [t2' w1]. apply IH; assumption.
Qed.

Section NoSelfOffer.

Context `{Externals}.

(** X19. No offer from a user to the same user is ever stored: when the
    table holds none, it holds none after any list of CreateOffer and
    UpdateStatus calls served one after the other, and none after two
    such calls in flight together, however the event loop takes turns
    between them. The recipient of an INSERT is the owner the handler read
    for the requested game and compared with the actor; no later statement
    sets the offerer or the recipient. *)
Theorem no_offer_to_oneself (calls : list (Z * Call)) (schedule : list bool) (c1 c2 : Call)
    (w : World) :
  no_self_offer (db w) ->
  no_self_offer (db (serve_all calls w))
  /\ no_self_offer (db (event_loop schedule (handler c1) (handler c2) w).2).
Proof.
  intros Hd. split.
  - revert w Hd. induction calls as [|[now c] rest IH]; intros w Hd; simpl; [exact Hd|].
    apply IH. apply run_no_self_offer; [apply handler_inserting | exact Hd].
  - apply event_loop_no_self_offer; [apply handler_inserting.. | exact Hd].
Qed.

End NoSelfOffer.

(* ===================================================================== *)
(** ** Accounts *)
(* ===================================================================== *)

Lemma omap_nil_Forall {A B : Type} (f : A -> option B) (l : list A) :
  omap f l = [] <-> Forall (fun x => f x = None) l.
Proof.
  induction l as [|x l IH]; simpl.
  - split; [constructor | reflexivity].
  - destruct (f x) eqn:Hx.
    + split; [discriminate|]. intros Hall. apply Forall_cons in Hall as [Hnone _]. congruence.
    + rewrite IH. split; [intros Hall; constructor; assumption|].
      intros Hall. apply Forall_cons in Hall as [_ Hall]. exact Hall.
Qed.

Lemma omap_cons_one {A B : Type} (f : A -> option B) (x : A) (l : list A) (y : B) :
  f x = Some y -> Forall (fun z => f z = None) l -> omap f (x :: l) = [y].
Proof.
  intros Hx Hl. apply omap_nil_Forall in Hl.
  change (omap f (x :: l)) with (match f x with Some y => y :: omap f l | None => omap f l end).
  rewrite Hx, Hl. reflexivity.
Qed.

(** No row with this e-mail address is selected exactly when no user is
    stored with it. *)
Lemma select_users_by_email_nil s email :
  dom (site_users s) = dom (user_details s) ->
  select_users_by_email s email = []
  <-> map_Forall (fun _ u => user_email u <> email) (site_users s).
Proof.
  intros Hdom. unfold select_users_by_email. rewrite omap_nil_Forall, Forall_forall.
  split.
  - intros Hall k u Hk Heq.
    specialize (Hall (k, u) (proj2 (elem_of_map_to_list _ _ _) Hk)). simpl in Hall.
    rewrite (proj2 (String.eqb_eq _ _) Heq) in Hall.
    assert (is_Some (user_details s !! k)) as [d Hd].
    { apply elem_of_dom. rewrite <- Hdom. apply elem_of_dom. eauto. }
    rewrite Hd in Hall. discriminate.
  - intros Hall [k u] Hin. apply elem_of_map_to_list in Hin. simpl.
    destruct (String.eqb_spec (user_email u) email) as [Heq|]; [|reflexivity].
    destruct (Hall k u Hin Heq).
Qed.

(** The INSERT of a user whose address is not stored goes through, and
    leaves the table in order with the new row as the one row of its
    address. *)
Lemma insert_user_rows s name email hashed street now :
  users_in_order s ->
  map_Forall (fun _ u => user_email u <> email) (site_users s) ->
  let new_id := (users_id_seq s + 1)%Z in
  let row := {| user_id := new_id; user_name := name; user_email := email |} in
  let details := {| password := hashed; street_address := street;
                    user_created_at := now; user_updated_at := now |} in
  let s' := {| world := with_users (world s) (<[new_id := row]> (site_users s));
               user_details := <[new_id := details]> (user_details s);
               users_id_seq := new_id |} in
  insert_user s name email hashed street now = (SqlRows [(row, details)], s')
  /\ site_users s !! new_id = None
  /\ users_in_order s'
  /\ select_users_by_email s' email = [(row, details)]
  /\ select_user_row s' new_id = [(row, details)].
Proof.
  intros (Hdom & Hkeys & Hunique) Hfresh. cbv zeta.
  assert (Hfree : site_users s !! (users_id_seq s + 1) = None).
  { apply eq_None_not_Some. intros [u Hu]. destruct (Hkeys _ _ Hu) as [_ Hle]. lia. }
  assert (Hfree' : user_details s !! (users_id_seq s + 1) = None).
  { apply not_elem_of_dom. rewrite <- Hdom. apply not_elem_of_dom. exact Hfree. }
  split; [|split; [exact Hfree|split; [|split]]].
  - unfold insert_user. cbv zeta.
    rewrite !bool_decide_eq_true_2 by assumption. reflexivity.
  - unfold users_in_order, site_users. simpl.
    change (users (db (world s))) with (site_users s).
    split; [|split].
    + rewrite !dom_insert_L, Hdom. reflexivity.
    + apply map_Forall_insert_2; [simpl; split; [reflexivity | lia]|].
      intros k u Hk. destruct (Hkeys k u Hk). split; [assumption | lia].
    + rewrite (map_to_list_insert _ _ _ Hfree). simpl. apply NoDup_cons. split; [|exact Hunique].
      intros Hin. apply list_elem_of_fmap in Hin as (u & Heq & Hin).
      apply list_elem_of_fmap in Hin as ([k u'] & -> & Hin).
      apply elem_of_map_to_list in Hin. exact (Hfresh _ _ Hin (eq_sym Heq)).
  - unfold select_users_by_email, site_users. simpl.
    change (users (db (world s))) with (site_users s).
    apply Permutation_singleton_r.
    rewrite (map_to_list_insert _ _ _ Hfree).
    erewrite omap_cons_one; [reflexivity | |].
    + simpl. rewrite String.eqb_refl, lookup_insert_eq. reflexivity.
    + apply Forall_forall. intros [k u] Hin. apply elem_of_map_to_list in Hin. simpl.
      destruct (String.eqb_spec (user_email u) email) as [Heq|]; [|reflexivity].
      destruct (Hfresh k u Hin Heq).
  - unfold select_user_row, site_users. simpl. rewrite !lookup_insert_eq. reflexivity.
Qed.

(** The UPDATE of a stored user keeps the table in order: the id and the
    address of the row stay. *)
Lemma update_user_rows s k u d name street hashed now :
  users_in_order s ->
  site_users s !! k = Some u -> user_details s !! k = Some d ->
  let u' := {| user_id := user_id u; user_name := default (user_name u) name;
               user_email := user_email u |} in
  let d' := {| password := default (password d) hashed;
               street_address := default (street_address d) street;
               user_created_at := user_created_at d; user_updated_at := now |} in
  let s' := {| world := with_users (world s) (<[k := u']> (site_users s));
               user_details := <[k := d']> (user_details s);
               users_id_seq := users_id_seq s |} in
  update_user s k name street hashed now = ([(u', d')], s')
  /\ users_in_order s'.
Proof.
  intros (Hdom & Hkeys & Hunique) Hu Hd. cbv zeta. split.
  - unfold update_user, select_user_row. rewrite Hu, Hd. reflexivity.
  - unfold users_in_order, site_users. simpl.
    change (users (db (world s))) with (site_users s). split; [|split].
    + rewrite !dom_insert_L, Hdom. reflexivity.
    + apply map_Forall_insert_2; [|exact Hkeys]. exact (Hkeys _ _ Hu).
    + rewrite <- (insert_delete_eq (site_users s)).
      rewrite (map_to_list_insert _ _ _ (lookup_delete_eq (site_users s) k)).
      rewrite <- (insert_delete_id (site_users s) k u Hu) in Hunique.
      rewrite (map_to_list_insert _ _ _ (lookup_delete_eq (site_users s) k)) in Hunique.
      exact Hunique.
Qed.

Lemma account_templates_render ctx :
  is_Some (AccountTemplates.userWelcomeTemplate ctx)
  /\ is_Some (AccountTemplates.passwordChangedTemplate ctx).
Proof.
  pose proof account_templates_render_with as Hall.
  apply Forall_cons in Hall as [(t1 & r1 & _ & H1 & _) Hall].
  apply Forall_cons in Hall as [(t2 & r2 & _ & H2 & _) _].
  rewrite H1, H2. split; eexists; reflexivity.
Qed.

Lemma published_one_event w rows to_ subject_ body_ :
  exists event,
    published (new_effects w (publishEmailEvent (with_users w rows) to_ subject_ body_))
    = [event]
    /\ to event = to_ /\ subject event = subject_ /\ body event = body_.
Proof.
  exists (value (producer_record (with_users w rows) to_ subject_ body_)).
  split; [|repeat split].
  rewrite (new_effects_app w _ (publication (with_users w rows) to_ subject_ body_))
    by reflexivity.
  unfold publication. destruct (broker_ack _ _); reflexivity.
Qed.

Section AccountProperties.

Context `{Externals} `{AccountExternals}.


(** X21. Registration, login and read compose: once [POST /users] has
    answered 201, a login with the address that was registered is decided
    by [Bun.password.verify] against the hash that was stored; when it
    passes, the answer carries the id of the registration and the token
    signed for it, a token that [jwt.verify] accepts authenticates as that
    user, and [GET /users/:id] for that id answers 200 with the body of the
    registration; when it does not pass, the answer is the 401 a login
    with an address that is not stored gets. *)
Theorem register_then_login (req login : Request) (s s' : Site) (code : Z)
    (body_ : UserResponse) (input credentials : json)
    (name email password_ streetAddress attempt : string) :
  users_in_order s ->
  post_users req s = (UserJson code body_, s') ->
  json_body req = Some input ->
  UserInputSchema input = ParseSuccess (name, email, password_, streetAddress) ->
  json_body login = Some credentials ->
  LoginInputSchema credentials = ParseSuccess (email, attempt) ->
  post_auth_login login s'
  = (if Bun_password_verify attempt (Bun_password_hash password_)
     then LoginJson {| login_token := jwt_sign (user_r_id body_);
                       login_userId := user_r_id body_;
                       login_message := "Login successful";
                       login_self := "/auth/login";
                       login_user := "/users/" +:+ pretty (user_r_id body_) |}
     else Refused (errorResponse 401 "Invalid email or password"))
  /\ (forall stranger other,
        json_body stranger = Some credentials ->
        select_users_by_email s' other = [] ->
        LoginInputSchema credentials = ParseSuccess (other, attempt) ->
        post_auth_login stranger s'
        = Refused (errorResponse 401 "Invalid email or password"))
  /\ (forall bearer,
        authorization bearer = Some ("Bearer " +:+ jwt_sign (user_r_id body_)) ->
        jwt_verify (jwt_sign (user_r_id body_)) = Some (user_r_id body_) ->
        params_id bearer = user_r_id body_ ->
        authenticate bearer = Some (user_r_id body_)
        /\ get_user bearer s' = UserJson 200 body_).
Proof.
  intros Horder Hrun Hbody Hparse Hlogin Hcredentials.
  pose proof Horder as (Hdom & _). unfold post_users in Hrun.
  rewrite Hbody, Hparse in Hrun.
  destruct (select_users_by_email s email) as [|found others] eqn:Hselect; [|discriminate].
  apply (select_users_by_email_nil s email Hdom) in Hselect. cbv zeta in Hrun.
  destruct (insert_user_rows s name email (Bun_password_hash password_) streetAddress
              (clock (world s)) Horder Hselect) as (Hins & _ & _ & Hby_email & Hby_id).
  rewrite Hins in Hrun. cbn [fst] in Hrun.
  destruct (AccountTemplates.userWelcomeTemplate _) as [emailBody|]; [|discriminate].
  injection Hrun as <- <- <-.
  change (user_r_id (formatUserResponse _)) with (users_id_seq s + 1)%Z.
  split; [|split].
  - unfold post_auth_login. rewrite Hlogin, Hcredentials.
    change (select_users_by_email (site_publish ?s1 _ _ _) email)
      with (select_users_by_email s1 email).
    rewrite Hby_email. cbn [snd fst password user_id].
    destruct (Bun_password_verify attempt (Bun_password_hash password_)); reflexivity.
  - intros stranger other Hstranger Hnone Hother. unfold post_auth_login.
    rewrite Hstranger, Hother, Hnone. reflexivity.
  - intros bearer Hheader Hverify Hid. split.
    + unfold authenticate. rewrite Hheader.
      change (String.eqb ("Bearer " +:+ _) EmptyString) with false.
      rewrite prefix_append. simpl negb. cbn [orb].
      change 7%nat with (String.length "Bearer ").
      rewrite substring_after. exact Hverify.
    + assert (authenticate bearer = Some (users_id_seq s + 1)%Z) as Hauth.
      { unfold authenticate. rewrite Hheader.
        change (String.eqb ("Bearer " +:+ _) EmptyString) with false.
        rewrite prefix_append. simpl negb. cbn [orb].
        change 7%nat with (String.length "Bearer ").
        rewrite substring_after. exact Hverify. }
      unfold get_user, requireAuth. rewrite Hauth, Hid.
      change (select_user_row (site_publish ?s1 _ _ _) ?k) with (select_user_row s1 k).
      rewrite Hby_id. reflexivity.
Qed.

(** X22. [PATCH /users/:id], run alone on a users table in order, keeps
    it in order, leaves games and offers alone and never changes which
    ids are stored nor the address of any user. It answers 200 only to
    the user of the id, for a patch with at least one field; the other
    users are as they were; when the patch has a password, the hash of the
    new password is stored and exactly one event, the notice to the
    user's address, is published; when it has none, the stored hash stays
    and nothing is published. A refusal changes nothing. *)
Theorem profile_update_decision (req : Request) (s s' : Site) (reply : AccountReply) :
  users_in_order s ->
  patch_user req s = (reply, s') ->
  users_in_order s'
  /\ games (db (world s')) = games (db (world s))
  /\ trade_offers (db (world s')) = trade_offers (db (world s))
  /\ dom (site_users s') = dom (site_users s)
  /\ (forall k, user_email <$> site_users s' !! k = user_email <$> site_users s !! k)
  /\ match reply with
     | UserJson code body_ =>
         code = 200
         /\ authenticate req = Some (params_id req)
         /\ (exists u, site_users s !! params_id req = Some u
                        /\ user_r_id body_ = user_id u /\ user_r_email body_ = user_email u)
         /\ (forall k, k <> params_id req ->
               site_users s' !! k = site_users s !! k
               /\ user_details s' !! k = user_details s !! k)
         /\ exists input name streetAddress password_,
              json_body req = Some input
              /\ UserPatchSchema input = ParseSuccess (name, streetAddress, password_)
              /\ ~ (name = None /\ streetAddress = None /\ password_ = None)
              /\ match password_ with
                 | Some new_password =>
                     password <$> user_details s' !! params_id req
                     = Some (Bun_password_hash new_password)
                     /\ exists event,
                          published (new_effects (world s) (world s')) = [event]
                          /\ to event = user_r_email body_
                          /\ subject event = "Your VidEX password was changed"
                 | None =>
                     password <$> user_details s' !! params_id req
                     = password <$> user_details s !! params_id req
                     /\ world s' = with_users (world s) (site_users s')
                 end
     | Refused response => s' = s /\ succeeded response = false
     | LoginJson _ => False
     end.
Proof.
  intros Horder. unfold patch_user, requireAuth. cbv zeta.
  assert (Hrefused : forall response,
             succeeded response = false ->
             users_in_order s
             /\ games (db (world s)) = games (db (world s))
             /\ trade_offers (db (world s)) = trade_offers (db (world s))
             /\ dom (site_users s) = dom (site_users s)
             /\ (forall k, user_email <$> site_users s !! k = user_email <$> site_users s !! k)
             /\ (s = s /\ succeeded response = false)) by (intros response Hfailed; split; [exact Horder|];
           do 4 (split; [reflexivity|]); split; [reflexivity | exact Hfailed]).
  destruct (authenticate req) as [actor|] eqn:Hauth;
    [|intros [= <- <-]; apply Hrefused; reflexivity].
  destruct (Z.eqb_spec (params_id req) actor) as [Hself|Hother]; simpl;
    [|intros [= <- <-]; apply Hrefused; reflexivity].
  unfold select_user_row.
  destruct (site_users s !! params_id req) as [u|] eqn:Hu;
    [|intros [= <- <-]; apply Hrefused; reflexivity].
  destruct (user_details s !! params_id req) as [d|] eqn:Hd;
    [|intros [= <- <-]; apply Hrefused; reflexivity].
  destruct (json_body req) as [input|] eqn:Hbody;
    [|intros [= <- <-]; apply Hrefused; reflexivity].
  destruct (UserPatchSchema input) as [[[name streetAddress] password_]|message] eqn:Hparse;
    [|intros [= <- <-]; apply Hrefused; reflexivity].
  destruct (bool_decide (name = None /\ streetAddress = None /\ password_ = None)) eqn:Hfields;
    [intros [= <- <-]; apply Hrefused; reflexivity|].
  apply bool_decide_eq_false in Hfields.
  destruct (update_user_rows s (params_id req) u d name streetAddress
              (Bun_password_hash <$> password_) (clock (world s)) Horder Hu Hd)
    as (-> & Horder').
  cbn [fst].
  assert (Hemails : forall k,
             user_email <$> <[params_id req :=
                {| user_id := user_id u; user_name := default (user_name u) name;
                   user_email := user_email u |}]> (site_users s) !! k
             = user_email <$> site_users s !! k).
  { intros k. destruct (decide (k = params_id req)) as [->|Hne].
    - rewrite lookup_insert_eq, Hu. reflexivity.
    - rewrite lookup_insert_ne by congruence. reflexivity. }
  assert (Hothers : forall k, k <> params_id req ->
             <[params_id req :=
                {| user_id := user_id u; user_name := default (user_name u) name;
                   user_email := user_email u |}]> (site_users s) !! k = site_users s !! k
             /\ <[params_id req :=
                   {| password := default (password d) (Bun_password_hash <$> password_);
                      street_address := default (street_address d) streetAddress;
                      user_created_at := user_created_at d;
                      user_updated_at := clock (world s) |}]> (user_details s) !! k
                = user_details s !! k).
  { intros k Hne. rewrite !lookup_insert_ne by congruence. split; reflexivity. }
  assert (Hdom' : dom (<[params_id req :=
                {| user_id := user_id u; user_name := default (user_name u) name;
                   user_email := user_email u |}]> (site_users s)) = dom (site_users s)).
  { apply dom_insert_lookup_L. eauto. }
  destruct password_ as [new_password|].
  - destruct (proj2 (account_templates_render
                       (account_variables
                          {| user_id := user_id u; user_name := default (user_name u) name;
                             user_email := user_email u |}))) as [emailBody ->].
    intros [= <- <-]. split; [exact Horder'|]. do 2 (split; [reflexivity|]).
    split; [exact Hdom'|]. split; [exact Hemails|].
    split; [reflexivity|]. split; [congruence|].
    split; [exists u; repeat split|]. split; [exact Hothers|].
    exists input, name, streetAddress, (Some new_password).
    do 3 (split; [first [reflexivity | assumption]|]). split.
    + simpl. rewrite lookup_insert_eq. reflexivity.
    + destruct (published_one_event (world s)
                  (<[params_id req :=
                      {| user_id := user_id u; user_name := default (user_name u) name;
                         user_email := user_email u |}]> (site_users s))
                  (user_email u) "Your VidEX password was changed" emailBody)
        as (event & Hpublished & Hto & Hsubject & _).
      exists event. split; [exact Hpublished|]. split; assumption.
  - intros [= <- <-]. split; [exact Horder'|]. do 2 (split; [reflexivity|]).
    split; [exact Hdom'|]. split; [exact Hemails|].
    split; [reflexivity|]. split; [congruence|].
    split; [exists u; repeat split|]. split; [exact Hothers|].
    exists input, name, streetAddress, None.
    do 3 (split; [first [reflexivity | assumption]|]). split.
    + simpl. rewrite lookup_insert_eq, ?Hd. reflexivity.
    + reflexivity.
Qed.

End AccountProperties.

(* ===================================================================== *)
(** ** Games *)
(* ===================================================================== *)





Section GameProperties.

Context `{Externals} `{GameExternals}.


End GameProperties.

(* ===================================================================== *)
(** ** The small instance, continued *)
(* ===================================================================== *)

Lemma sample_world_consistent : db_consistent (db Sample.world).
Proof. apply (bool_decide_unpack _). vm_compute. exact I. Defined.

Lemma sample_offer_created :
  run (handler (H := Sample.externals) (CreateOffer Sample.alice_offers)) Sample.world
  = (Returned (jsonResponse 201 (formatTradeOfferResponse Sample.first_offer)),
     Sample.world_with_offer).
Proof. vm_compute. reflexivity. Defined.



(** Bob reads the offer Alice created. *)
Lemma written_offer_can_be_read_witness :
  db_consistent (db Sample.world)
  /\ run (get_offer (H := Sample.externals) Scenario.bob_reads) Sample.world_with_offer
     = (Returned (jsonResponse 200 (formatTradeOfferResponse Sample.first_offer)),
        Sample.world_with_offer).
Proof.
  split; [exact sample_world_consistent|].
  exact (written_offer_can_be_read (H := Sample.externals) (CreateOffer Sample.alice_offers)
           Sample.world _ Sample.world_with_offer
           (formatTradeOfferResponse Sample.first_offer) Scenario.bob_reads 2
           sample_world_consistent sample_offer_created eq_refl eq_refl eq_refl eq_refl).
Defined.


(** The mail to Bob about Alice's offer. *)
Lemma published_event_is_mailed_witness :
  Published Scenario.first_record
    ∈ new_effects Sample.world
        (run (post_offers (H := Sample.externals) Sample.alice_offers) Sample.world).2
  /\ exists mail,
       deliveries (processMessage (H := Scenario.runtime)
                     (message_of Scenario.first_record "first event")) = [mail]
       /\ mail_to mail = JStr "bob@example.com"
       /\ mail_subject mail = JStr "You've received a trade offer!".
Proof.
  assert (Hin : Published Scenario.first_record
                  ∈ new_effects Sample.world
                      (run (post_offers (H := Sample.externals) Sample.alice_offers)
                         Sample.world).2)
    by (vm_compute; apply list_elem_of_further, list_elem_of_here).
  split; [exact Hin|].
  destruct (published_event_is_mailed (H := Scenario.runtime)
              (post_offers (H := Sample.externals) Sample.alice_offers) Sample.world
              Scenario.first_record "first event"
              (Scenario.stringified (value Scenario.first_record))
              Hin eq_refl (conj eq_refl (conj eq_refl (conj eq_refl eq_refl))))
    as [Hmailed _].
  destruct Hmailed as (mail & Hmail & Hcontents).
  { repeat split; discriminate. }
  exists mail. split; [exact Hmail|].
  injection Hcontents as Hto Hsubject _. split; assumption.
Defined.

(** The id of Alice's offer, the first of the table. *)
Lemma created_offer_id_is_new_witness :
  db_consistent (db Sample.world)
  /\ r_id (formatTradeOfferResponse Sample.first_offer)
     = (trade_offers_id_seq (db Sample.world) + 1)%Z
  /\ size (trade_offers (db Sample.world_with_offer))
     = S (size (trade_offers (db Sample.world))).
Proof.
  split; [exact sample_world_consistent|].
  destruct (created_offer_id_is_new (H := Sample.externals) Sample.alice_offers Sample.world
              Sample.world_with_offer _ (formatTradeOfferResponse Sample.first_offer)
              sample_world_consistent sample_offer_created eq_refl eq_refl)
    as (Hid & _ & _ & _ & _ & Hsize).
  split; assumption.
Defined.

(** Alice's body that is not JSON. *)
Lemma unreadable_body_is_invalid_input_witness :
  authenticate (H := Sample.externals) Scenario.alice_garbles = Some 1
  /\ json_body Scenario.alice_garbles = None
  /\ run (post_offers (H := Sample.externals) Scenario.alice_garbles) Sample.world
     = (Returned (errorResponse 400 "Invalid input"), Sample.world).
Proof.
  split; [reflexivity|]. split; [reflexivity|].
  exact (proj1 (unreadable_body_is_invalid_input (H := Sample.externals)
                  Scenario.alice_garbles Sample.world 1 eq_refl eq_refl)).
Defined.

(** Bob deletes his Metroid, which Alice's offer requests. *)
Lemma delete_game_cascades_witness :
  delete_game (H := Sample.externals) Scenario.bob_deletes_metroid Sample.world_with_offer
  = (NoContent,
     (delete_game (H := Sample.externals) Scenario.bob_deletes_metroid
        Sample.world_with_offer).2)
  /\ games (db (delete_game (H := Sample.externals) Scenario.bob_deletes_metroid
                  Sample.world_with_offer).2)
     = delete 2 (games (db Sample.world_with_offer)).
Proof.
  assert (Hdelete : delete_game (H := Sample.externals) Scenario.bob_deletes_metroid
                      Sample.world_with_offer
                    = (NoContent,
                       (delete_game (H := Sample.externals) Scenario.bob_deletes_metroid
                          Sample.world_with_offer).2)) by reflexivity.
  split; [exact Hdelete|].
  exact (proj1 (proj2 (proj2 (delete_game_cascades (H := Sample.externals) _ _ _ _ Hdelete)))).
Defined.

(** Alice deletes her account. *)
Lemma delete_user_cascades_witness :
  delete_user (H := Sample.externals) Scenario.alice_leaves Sample.world_with_offer
  = (NoContent,
     (delete_user (H := Sample.externals) Scenario.alice_leaves Sample.world_with_offer).2)
  /\ users (db (delete_user (H := Sample.externals) Scenario.alice_leaves
                  Sample.world_with_offer).2)
     = delete 1 (users (db Sample.world_with_offer)).
Proof.
  assert (Hdelete : delete_user (H := Sample.externals) Scenario.alice_leaves
                      Sample.world_with_offer
                    = (NoContent,
                       (delete_user (H := Sample.externals) Scenario.alice_leaves
                          Sample.world_with_offer).2)) by reflexivity.
  split; [exact Hdelete|].
  exact (proj1 (proj2 (proj2 (delete_user_cascades (H := Sample.externals) _ _ _ _ Hdelete)))).
Defined.

(** Once Bob has deleted his Metroid he can no longer accept Alice's
    offer for it. *)
Lemma deleted_game_withdraws_offers_witness :
  trade_offers (db Sample.world_with_offer) !! 1 = Some Sample.first_offer
  /\ requested_game_id Sample.first_offer = params_id Scenario.bob_deletes_metroid
  /\ let w' := (delete_game (H := Sample.externals) Scenario.bob_deletes_metroid
                  Sample.world_with_offer).2 in
     run (patch_offer (H := Sample.externals) Sample.bob_accepts) w'
     = (Returned (errorResponse 404 "Trade offer not found"), w').
Proof.
  split; [reflexivity|]. split; [reflexivity|].
  exact (proj2 (deleted_game_withdraws_offers (H := Sample.externals)
                  Scenario.bob_deletes_metroid Sample.world_with_offer _ 1 Sample.first_offer
                  Sample.bob_accepts 2 eq_refl eq_refl (or_introl eq_refl) eq_refl eq_refl)).
Defined.

(** A session that is opened and closed. *)
Lemma session_life_cycle_witness :
  authorization Scenario.with_session = Some ("Bearer " +:+ "5f2c")
  /\ Sessions.authenticate (Sessions.login_session ∅ "5f2c" 1) Scenario.with_session = Some 1
  /\ Sessions.authenticate
       (Sessions.logout (Sessions.login_session ∅ "5f2c" 1) Scenario.with_session)
       Scenario.with_session = None.
Proof.
  split; [reflexivity|].
  destruct (session_life_cycle ∅ Scenario.with_session "5f2c" 1 eq_refl)
    as (Hlogin & Hlogout & _).
  split; assumption.
Defined.

(** Bob's accept and Bob's reject of Alice's offer, one after the other
    and in flight together. *)
Lemma no_offer_to_oneself_witness :
  no_self_offer (db Sample.world_with_offer)
  /\ no_self_offer
       (db (serve_all (H := Sample.externals)
              [(1700000000001, UpdateStatus Sample.bob_accepts)] Sample.world_with_offer))
  /\ no_self_offer
       (db (event_loop Sample.alternating
              (handler (H := Sample.externals) (UpdateStatus Sample.bob_accepts))
              (handler (H := Sample.externals) (UpdateStatus Sample.bob_rejects))
              Sample.world_with_offer).2).
Proof.
  assert (Hd : no_self_offer (db Sample.world_with_offer))
    by (apply (bool_decide_unpack _); vm_compute; exact I).
  split; [exact Hd|].
  exact (no_offer_to_oneself (H := Sample.externals)
           [(1700000000001, UpdateStatus Sample.bob_accepts)] Sample.alternating
           (UpdateStatus Sample.bob_accepts) (UpdateStatus Sample.bob_rejects)
           Sample.world_with_offer Hd).
Defined.


(** Dave logs in with the password of his registration. *)
Lemma register_then_login_witness :
  users_in_order Scenario.accounts
  /\ post_auth_login (H0 := Scenario.account_externals) Scenario.dave_logs_in
       (post_users (H0 := Scenario.account_externals) Scenario.dave_registers Scenario.accounts).2
     = LoginJson {| login_token := "token-of-4"; login_userId := 4;
                    login_message := "Login successful"; login_self := "/auth/login";
                    login_user := "/users/4" |}.
Proof.
  assert (Horder : users_in_order Scenario.accounts)
    by (apply (bool_decide_unpack _); vm_compute; exact I).
  split; [exact Horder|].
  assert (Hrun : post_users (H0 := Scenario.account_externals) Scenario.dave_registers
                   Scenario.accounts
                 = (UserJson 201 (formatUserResponse Scenario.dave),
                    (post_users (H0 := Scenario.account_externals) Scenario.dave_registers
                       Scenario.accounts).2)) by (vm_compute; reflexivity).
  exact (proj1 (register_then_login (H := Sample.externals) (H0 := Scenario.account_externals)
                  Scenario.dave_registers Scenario.dave_logs_in Scenario.accounts _ 201
                  (formatUserResponse Scenario.dave) _ Scenario.dave_credentials
                  "Dave" "dave@example.com" "drummer" "4 Elm St" "drummer"
                  Horder Hrun eq_refl eq_refl eq_refl eq_refl)).
Defined.

(** Alice changes her name: her address stays. *)
Lemma profile_update_decision_witness :
  users_in_order Scenario.accounts
  /\ user_email <$> site_users
                      (patch_user (H := Sample.externals) (H0 := Scenario.account_externals)
                         Scenario.alice_renames Scenario.accounts).2 !! 1
     = user_email <$> site_users Scenario.accounts !! 1.
Proof.
  assert (Horder : users_in_order Scenario.accounts)
    by (apply (bool_decide_unpack _); vm_compute; exact I).
  split; [exact Horder|].
  assert (Hrun : patch_user (H := Sample.externals) (H0 := Scenario.account_externals)
                   Scenario.alice_renames Scenario.accounts
                 = ((patch_user (H := Sample.externals) (H0 := Scenario.account_externals)
                       Scenario.alice_renames Scenario.accounts).1,
                    (patch_user (H := Sample.externals) (H0 := Scenario.account_externals)
                       Scenario.alice_renames Scenario.accounts).2)) by (vm_compute; reflexivity).
  destruct (profile_update_decision (H := Sample.externals)
              (H0 := Scenario.account_externals) _ _ _ _ Horder Hrun)
    as (_ & _ & _ & _ & Hemails & _).
  apply Hemails.
Defined.

